(** * Knowledge-extraction pipeline: segmentation, extraction, fan-out, merge

    A shallow embedding of the services of the repository
    ([services/pdf_processor.py], [services/langchain_service.py],
    [services/knowledge_extractor.py]) and the properties of the
    specification that can be settled on it. *)

From Stdlib Require Import ZArith NArith String Ascii List Lia Bool DecimalString.
From stdpp Require Import base option list relations.
Import ListNotations.

Set Warnings "-register-all".
Local Open Scope N_scope.

(** ** Python values *)

(** A Python [str] is a sequence of Unicode code points. *)
Abbreviation char := N (only parsing).
Abbreviation str := (list N) (only parsing).

(** Decoding of a UTF-8 byte sequence, used to write string literals of the
    source as they stand. *)
Fixpoint utf8_decode (bs : list N) : str :=
  match bs with
  | [] => []
  | b :: rest =>
      if b <? 128 then b :: utf8_decode rest
      else if b <? 224 then
        match rest with
        | b1 :: r => ((b - 192) * 64 + (b1 - 128)) :: utf8_decode r
        | _ => []
        end
      else if b <? 240 then
        match rest with
        | b1 :: b2 :: r =>
            ((b - 224) * 4096 + (b1 - 128) * 64 + (b2 - 128)) :: utf8_decode r
        | _ => []
        end
      else
        match rest with
        | b1 :: b2 :: b3 :: r =>
            ((b - 240) * 262144 + (b1 - 128) * 4096 + (b2 - 128) * 64 + (b3 - 128))
              :: utf8_decode r
        | _ => []
        end
  end.

Definition py (s : string) : str :=
  utf8_decode (map (fun a => N.of_nat (nat_of_ascii a)) (list_ascii_of_string s)).

(** [str(n)] for a non-negative integer. *)
Definition str_of_nat (n : nat) : str :=
  py (NilEmpty.string_of_uint (Nat.to_uint n)).

Definition LF : char := 10.

(** [str.isspace] on one code point (the whitespace table of CPython). *)
Definition isspace (c : char) : bool :=
  ((9 <=? c) && (c <=? 13)) || ((28 <=? c) && (c <=? 32))
  || (c =? 133) || (c =? 160) || (c =? 5760)
  || ((8192 <=? c) && (c <=? 8202))
  || (c =? 8232) || (c =? 8233) || (c =? 8239) || (c =? 8287) || (c =? 12288).

Fixpoint lstrip (s : str) : str :=
  match s with
  | [] => []
  | c :: s' => if isspace c then lstrip s' else s
  end.

Definition rstrip (s : str) : str := reverse (lstrip (reverse s)).

(** [s.strip()] *)
Definition strip (s : str) : str := rstrip (lstrip s).

(** [s.split(sep)] for a one-character separator: never the empty list. *)
Fixpoint split_on (sep : char) (s : str) : list str :=
  match s with
  | [] => [[]]
  | c :: s' =>
      if c =? sep then [] :: split_on sep s'
      else match split_on sep s' with
           | l :: ls => (c :: l) :: ls
           | [] => [[c]]
           end
  end.

(** [sep.join(parts)] *)
Fixpoint join (sep : str) (parts : list str) : str :=
  match parts with
  | [] => []
  | [p] => p
  | p :: ps => p ++ sep ++ join sep ps
  end.

(** Truth value of a string: [if line]. *)
Definition nonempty (s : str) : bool :=
  match s with [] => false | _ => true end.

(** JSON values as Python holds them after parsing; a [dict] keeps its
    insertion order. A float is kept as its binary64 bit pattern. *)
Inductive json : Type :=
| JNull
| JBool (b : bool)
| JInt (z : Z)
| JFloat (bits : N)
| JStr (s : str)
| JList (l : list json)
| JDict (d : list (str * json)).

Abbreviation dict := (list (str * json)) (only parsing).

(** [d[k] = v]: overwrite in place, or append a new key. *)
Fixpoint dict_setitem (k : str) (v : json) (d : dict) : dict :=
  match d with
  | [] => [(k, v)]
  | (k', v') :: r =>
      if bool_decide (k' = k) then (k', v) :: r
      else (k', v') :: dict_setitem k v r
  end.

(** [d.get(k)] *)
Fixpoint dict_get (k : str) (d : dict) : option json :=
  match d with
  | [] => None
  | (k', v') :: r => if bool_decide (k' = k) then Some v' else dict_get k r
  end.

(** Exceptions. Every exception of the model is an instance of [Exception]
    (cancellation and interpreter exits are not modelled); [exn_langchain]
    tells the instances of [LangChainException]. *)
Record exn : Type := mkExn {
  exn_class : string;
  exn_langchain : bool;
  exn_msg : str
}.

(** The result of a call that may raise. *)
Inductive outcome (A : Type) : Type :=
| Return (a : A)
| Raise (e : exn).
Arguments Return {A} a.
Arguments Raise {A} e.

Definition is_raise {A} (o : outcome A) : bool :=
  match o with Raise _ => true | Return _ => false end.

(** A record of a [logging] logger. *)
Inductive level : Type := INFO | ERROR.
Record log_record : Type := mkLog {
  log_name : string;
  log_level : level;
  log_msg : str
}.

(** The state the services run in: the Python objects that are shared by
    reference (a reference is an index of [store]), the records logged so
    far, and the requests sent to the text-generation service. *)
Record request : Type := mkRequest { system_message : str; human_message : str }.

Record world : Type := mkWorld {
  store : list json;
  log : list log_record;
  sent : list request
}.

(** Code that reads and writes the [world] and may raise. *)
Definition M (A : Type) : Type := world -> outcome A * world.

Definition ret {A} (a : A) : M A := fun w => (Return a, w).
Definition raise {A} (e : exn) : M A := fun w => (Raise e, w).
Definition bind {A B} (c : M A) (k : A -> M B) : M B :=
  fun w => match c w with
           | (Return a, w') => k a w'
           | (Raise e, w') => (Raise e, w')
           end.
(** [try: c except Exception as e: h e] *)
Definition try_except {A} (c : M A) (h : exn -> M A) : M A :=
  fun w => match c w with
           | (Return a, w') => (Return a, w')
           | (Raise e, w') => h e w'
           end.

Notation "x <- c ;; k" := (bind c (fun x => k))
  (at level 100, c at next level, right associativity).
Notation "c ;;; k" := (bind c (fun _ => k))
  (at level 100, right associativity).

(** Code that leaves the shared objects as they are. *)
Definition keeps_store {A} (c : M A) : Prop :=
  forall w, store (snd (c w)) = store w.

Definition logging (name : string) (lvl : level) (msg : str) : M unit :=
  fun w => (Return tt,
            {| store := store w;
               log := log w ++ [ {| log_name := name; log_level := lvl; log_msg := msg |} ];
               sent := sent w |}).

(** The object behind a reference. *)
Definition deref (w : world) (r : nat) : json := default JNull (store w !! r).

(** A new object enters the store; its reference is returned. *)
Definition alloc (v : json) : M nat :=
  fun w => (Return (length (store w)),
            {| store := store w ++ [v]; log := log w; sent := sent w |}).

Definition TypeError (msg : string) : exn :=
  {| exn_class := "TypeError"; exn_langchain := false; exn_msg := py msg |}.

(** The object after [obj[k] = v]: a [dict] is updated, any other value
    raises [TypeError]. *)
Definition setitem_result (k : str) (v : json) (obj : json) : outcome json :=
  match obj with
  | JDict d => Return (JDict (dict_setitem k v d))
  | JList _ => Raise (TypeError "list indices must be integers or slices, not str")
  | JStr _ => Raise (TypeError "'str' object does not support item assignment")
  | JInt _ => Raise (TypeError "'int' object does not support item assignment")
  | JFloat _ => Raise (TypeError "'float' object does not support item assignment")
  | JBool _ => Raise (TypeError "'bool' object does not support item assignment")
  | JNull => Raise (TypeError "'NoneType' object does not support item assignment")
  end.

(** [obj[k] = v] on the object behind [r], in place. *)
Definition setitem (r : nat) (k : str) (v : json) : M unit :=
  fun w =>
    match setitem_result k v (deref w r) with
    | Return obj =>
        (Return tt,
         {| store := <[r := obj]> (store w); log := log w; sent := sent w |})
    | Raise e => (Raise e, w)
    end.

(** ** Chapter Segmenter ([services/pdf_processor.py]) *)

(** The chapter dictionaries [{"chapter_number", "title", "content"}]. *)
Record ChapterUnit : Type := mkChapter {
  chapter_number : nat;
  title : str;
  content : str
}.

(** [PDFProcessor._extract_chapter_title]: first loop, over [lines[:3]]. *)
Fixpoint first_title_line (lines : list str) : option str :=
  match lines with
  | [] => None
  | line :: rest =>
      let line := strip line in
      if nonempty line && (N.of_nat (length line) <? 100) then Some line
      else first_title_line rest
  end.

(** Second loop, over all [lines]. *)
Fixpoint first_nonempty_line (lines : list str) : option str :=
  match lines with
  | [] => None
  | line :: rest =>
      let line := strip line in
      if nonempty line then
        Some (if 100 <? N.of_nat (length line)
              then take 100 line ++ py "..." else line)
      else first_nonempty_line rest
  end.

Definition _extract_chapter_title (chapter_text : str) : str :=
  let lines := split_on LF (strip chapter_text) in
  match first_title_line (take 3 lines) with
  | Some line => line
  | None =>
      match first_nonempty_line lines with
      | Some line => line
      | None => py "Untitled Chapter"
      end
  end.

(** The title rule in the words of the specification: the first three
    non-empty lines are scanned for one under the length cap; otherwise the
    first non-empty line, truncated with an ellipsis when over the cap;
    otherwise the placeholder. *)
Definition title_spec (chapter_text : str) : str :=
  let lines := filter (fun l => nonempty l = true)
                 (map strip (split_on LF (strip chapter_text))) in
  match find (fun l => N.of_nat (length l) <? 100) (take 3 lines) with
  | Some line => line
  | None =>
      match lines with
      | line :: _ =>
          if 100 <? N.of_nat (length line) then take 100 line ++ py "..." else line
      | [] => py "Untitled Chapter"
      end
  end.

(** The two tests of [_extract_chapter_title] on a stripped line, for the
    statements about it. *)
Definition short_line (l : str) : bool :=
  nonempty l && (N.of_nat (length l) <? 100).

Definition truncated (l : str) : str :=
  if 100 <? N.of_nat (length l) then take 100 l ++ py "..." else l.

(** [chapter_patterns], in the order of the source. *)
Definition chapter_patterns : list str :=
  [ py "第[一二三四五六七八九十\d]+章.*?(?=第[一二三四五六七八九十\d]+章|$)";
    py "Chapter\s+\d+.*?(?=Chapter\s+\d+|$)";
    py "CHAPTER\s+\d+.*?(?=CHAPTER\s+\d+|$)";
    py "\n\d+\..*?(?=\n\d+\.|$)";
    py "\n[A-Z][^.]*\n.*?(?=\n[A-Z][^.]*\n|$)" ].

Section Segmenter.

(** [re.findall(pattern, text, re.DOTALL | re.IGNORECASE)] for a pattern
    without groups, and [self.text_splitter.split_text]: library calls,
    taken as parameters. *)
Variable re_findall : str -> str -> list str.
Variable split_text : str -> list str.

(** The inner loop over [enumerate(matches)]: one chapter per match,
    numbered from 1. *)
Definition chapters_of_matches (matches : list str) : list ChapterUnit :=
  imap (fun i m =>
          {| chapter_number := i + 1;
             title := _extract_chapter_title m;
             content := strip m |})
       matches.

(** The loop over [chapter_patterns], left at the first pattern with more
    than one match. *)
Fixpoint try_patterns (patterns : list str) (text : str) : list ChapterUnit :=
  match patterns with
  | [] => []
  | pattern :: rest =>
      let matches := re_findall pattern text in
      if negb (bool_decide (matches = [])) && (1 <? length matches)%nat
      then chapters_of_matches matches
      else try_patterns rest text
  end.

(** [PDFProcessor._split_into_chapters] *)
Definition _split_into_chapters (text : str) : list ChapterUnit :=
  match try_patterns chapter_patterns text with
  | [] =>
      [ {| chapter_number := 1;
           title := py "Complete Document";
           content := strip text |} ]
  | chapters => chapters
  end.

(** [PDFProcessor._split_by_chunks] *)
Definition _split_by_chunks (text : str) : list ChapterUnit :=
  imap (fun i chunk =>
          {| chapter_number := i + 1;
             title := py "Section " ++ str_of_nat (i + 1);
             content := strip chunk |})
       (split_text text).

(** The segmentation of [extract_chapters]: pattern split, then the chunk
    split when at most one chapter was found. *)
Definition segment (full_text : str) : list ChapterUnit :=
  let chapters := _split_into_chapters full_text in
  if (length chapters <=? 1)%nat then _split_by_chunks full_text else chapters.

(** [PDFProcessor.extract_chapters], from the page contents of the loaded
    documents on. *)
Definition extract_chapters (documents : list str) : list ChapterUnit :=
  segment (join [LF] documents).

End Segmenter.

(** ** The regular expressions of [chapter_patterns]

    A backtracking matcher with the priorities of Python's [re]: greedy and
    lazy repetition, alternation tried left to right, lookahead, [$]. The
    digit and case tables of the Unicode database are a parameter. *)
Module Re.

Record tables : Type := mkTables {
  isdecimal : char -> bool;
  lower : char -> char
}.

(** The tables on code points below 128. *)
Definition ascii_tables : tables :=
  {| isdecimal := fun c => (48 <=? c) && (c <=? 57);
     lower := fun c => if (65 <=? c) && (c <=? 90) then c + 32 else c |}.

Inductive regex : Type :=
| Eps
| Chr (p : char -> bool)
| Seq (r1 r2 : regex)
| Alt (r1 r2 : regex)
| Star (r : regex)
| LazyStar (r : regex)
| Ahead (r : regex)
| Dollar.

Definition Plus (r : regex) : regex := Seq r (Star r).

(** [mtch r k s]: match [r] at the head of [s], then continue with [k] on
    what is left; the first success in priority order wins. *)
Fixpoint mtch (r : regex) (k : str -> option str) (s : str) {struct r}
  : option str :=
  match r with
  | Eps => k s
  | Chr p =>
      match s with
      | c :: s' => if p c then k s' else None
      | [] => None
      end
  | Seq a b => mtch a (mtch b k) s
  | Alt a b =>
      match mtch a k s with
      | Some e => Some e
      | None => mtch b k s
      end
  | Star a =>
      (fix loop (fuel : nat) (s : str) {struct fuel} : option str :=
         match fuel with
         | O => k s
         | S fuel' =>
             match mtch a (fun s' => if (length s' <? length s)%nat
                                     then loop fuel' s' else None) s with
             | Some e => Some e
             | None => k s
             end
         end) (length s) s
  | LazyStar a =>
      (fix loop (fuel : nat) (s : str) {struct fuel} : option str :=
         match fuel with
         | O => k s
         | S fuel' =>
             match k s with
             | Some e => Some e
             | None => mtch a (fun s' => if (length s' <? length s)%nat
                                         then loop fuel' s' else None) s
             end
         end) (length s) s
  | Ahead a =>
      match mtch a Some s with
      | Some _ => k s
      | None => None
      end
  | Dollar =>
      match s with
      | [] => k s
      | [c] => if c =? LF then k s else None
      | _ => None
      end
  end.

(** [re.findall] for a pattern without groups: the matches from left to
    right, not overlapping. *)
Fixpoint scan (r : regex) (fuel : nat) (s : str) : list str :=
  match fuel with
  | O => []
  | S fuel' =>
      let next := match s with [] => [] | _ :: s' => scan r fuel' s' end in
      match mtch r Some s with
      | Some rest =>
          let n := (length s - length rest)%nat in
          take n s :: (if (n =? 0)%nat then next else scan r fuel' rest)
      | None => next
      end
  end.

Definition findall (r : regex) (s : str) : list str := scan r (S (length s)) s.

Section Patterns.
Variable T : tables.

(** With [re.IGNORECASE] *)
Definition lit (c : char) : regex := Chr (fun x => lower T x =? lower T c).
Definition word (w : str) : regex := foldr (fun c r => Seq (lit c) r) Eps w.
Definition one_of (set : str) (x : char) : bool :=
  existsb (fun c => lower T x =? lower T c) set.
(** With [re.DOTALL] *)
Definition any : regex := Chr (fun _ => true).
Definition space : regex := Chr isspace.
Definition digit : regex := Chr (isdecimal T).
Definition upper_AZ : regex :=
  Chr (fun x => (97 <=? lower T x) && (lower T x <=? 122)).
Definition not_dot : regex := Chr (fun x => negb (x =? 46)).
Definition seq (rs : list regex) : regex := foldr Seq Eps rs.

Definition marker_zh : regex :=
  seq [ word (py "第");
        Plus (Chr (fun x => one_of (py "一二三四五六七八九十") x || isdecimal T x));
        word (py "章") ].
Definition marker_chapter : regex :=
  seq [ word (py "Chapter"); Plus space; Plus digit ].
Definition marker_numbered : regex :=
  seq [ lit LF; Plus digit; lit 46 ].
Definition marker_heading : regex :=
  seq [ lit LF; upper_AZ; Star not_dot; lit LF ].

(** [marker.*?(?=marker|$)] *)
Definition up_to_next (marker : regex) : regex :=
  seq [ marker; LazyStar any; Ahead (Alt marker Dollar) ].

(** The compiled forms of [chapter_patterns], in the same order. *)
Definition compiled : list regex :=
  [ up_to_next marker_zh;
    up_to_next marker_chapter;
    up_to_next (seq [ word (py "CHAPTER"); Plus space; Plus digit ]);
    up_to_next marker_numbered;
    up_to_next marker_heading ].

Definition compile (pattern : str) : option regex :=
  snd <$> find (fun pr => bool_decide (fst pr = pattern))
               (zip chapter_patterns compiled).

(** [re.findall(pattern, text, re.DOTALL | re.IGNORECASE)] on the
    patterns of [chapter_patterns]. *)
Definition re_findall (pattern text : str) : list str :=
  match compile pattern with
  | Some r => findall r text
  | None => []
  end.
End Patterns.

End Re.

(** ** [RecursiveCharacterTextSplitter]

    The splitter of [langchain_text_splitters] as [PDFProcessor.__init__]
    builds it: literal separators kept at the head of the piece that follows
    them, whitespace stripped from every chunk, lengths in characters. *)
Module TextSplitter.

Record t : Type := mkSplitter {
  chunk_size : Z;
  chunk_overlap : Z;
  separators : list str
}.

Definition len (s : str) : Z := Z.of_nat (length s).

Fixpoint is_prefix (p s : str) : bool :=
  match p, s with
  | [], _ => true
  | _ :: _, [] => false
  | a :: p', b :: s' => (a =? b) && is_prefix p' s'
  end.

(** [re.search(re.escape(sep), text)] *)
Fixpoint contains (sep text : str) : bool :=
  is_prefix sep text
  || match text with [] => false | _ :: text' => contains sep text' end.

(** The pieces between the occurrences of a non-empty [sep], each
    occurrence glued to the piece after it; [cur] is the piece being read,
    reversed, and [skip] counts the characters of an occurrence still to
    pass. *)
Fixpoint split_keep (sep : str) (skip : nat) (cur : str) (s : str) : list str :=
  match s with
  | [] => [reverse cur]
  | c :: s' =>
      match skip with
      | S k => split_keep sep k (c :: cur) s'
      | O =>
          if is_prefix sep s
          then reverse cur :: split_keep sep (length sep - 1) [c] s'
          else split_keep sep 0 (c :: cur) s'
      end
  end.

Definition _split_text_with_regex (text separator : str) : list str :=
  let splits :=
    match separator with
    | [] => map (fun c => [c]) text
    | _ => split_keep separator 0 [] text
    end in
  filter (fun x => nonempty x = true) splits.

Definition _join_docs (docs : list str) (separator : str) : option str :=
  match strip (join separator docs) with
  | [] => None
  | text => Some text
  end.

Section Splitter.
Variable self : t.

(** The [while] loop of [_merge_splits] that drops pieces from the head
    of [current_doc]. *)
Fixpoint pop_head (fuel : nat) (_len separator_len : Z)
         (current_doc : list str) (total : Z) : list str * Z :=
  match fuel with
  | O => (current_doc, total)
  | S fuel' =>
      if ((chunk_overlap self <? total)
          || ((chunk_size self
                 <? total + _len
                    + (if (0 <? length current_doc)%nat then separator_len else 0))
              && (0 <? total)))%Z
      then match current_doc with
           | [] => (current_doc, total)
           | d0 :: rest =>
               pop_head fuel' _len separator_len rest
                 (total - (len d0
                           + (if (1 <? length current_doc)%nat
                              then separator_len else 0)))%Z
           end
      else (current_doc, total)
  end.

(** The [for] loop of [_merge_splits], with its state
    [(docs, current_doc, total)]. *)
Fixpoint merge_loop (separator : str) (splits : list str)
         (docs current_doc : list str) (total : Z) : list str :=
  match splits with
  | [] =>
      match _join_docs current_doc separator with
      | Some doc => docs ++ [doc]
      | None => docs
      end
  | d :: rest =>
      let separator_len := len separator in
      let _len := len d in
      let '(docs, current_doc, total) :=
        if (chunk_size self
              <? total + _len
                 + (if (0 <? length current_doc)%nat then separator_len else 0))%Z
        then
          match current_doc with
          | [] => (docs, current_doc, total)
          | _ =>
              let docs := match _join_docs current_doc separator with
                          | Some doc => docs ++ [doc]
                          | None => docs
                          end in
              let '(current_doc, total) :=
                pop_head (S (length current_doc)) _len separator_len
                         current_doc total in
              (docs, current_doc, total)
          end
        else (docs, current_doc, total) in
      let current_doc := current_doc ++ [d] in
      merge_loop separator rest docs current_doc
        (total + _len
         + (if (1 <? length current_doc)%nat then separator_len else 0))%Z
  end.

Definition _merge_splits (splits : list str) (separator : str) : list str :=
  merge_loop separator splits [] [] 0%Z.

(** The loop of [_split_text] over the pieces; [deeper] is the recursive
    call on the remaining separators, when there are any. *)
Fixpoint split_loop (deeper : option (str -> list str)) (splits : list str)
         (_good_splits final_chunks : list str) : list str :=
  match splits with
  | [] =>
      match _good_splits with
      | [] => final_chunks
      | _ => final_chunks ++ _merge_splits _good_splits []
      end
  | s :: rest =>
      if (len s <? chunk_size self)%Z
      then split_loop deeper rest (_good_splits ++ [s]) final_chunks
      else
        let final_chunks :=
          match _good_splits with
          | [] => final_chunks
          | _ => final_chunks ++ _merge_splits _good_splits []
          end in
        let final_chunks :=
          match deeper with
          | None => final_chunks ++ [s]
          | Some f => final_chunks ++ f s
          end in
        split_loop deeper rest [] final_chunks
  end.

(** [_split_text]: the first separator that is empty or occurs in the
    text is used (the last one when none does), and pieces that are
    still too long are split with the separators after it. *)
Fixpoint _split_text (separators : list str) (text : str) : list str :=
  match separators with
  | [] => []
  | _s :: new_separators =>
      match _s with
      | [] => split_loop None (_split_text_with_regex text _s) [] []
      | _ =>
          if contains _s text
          then
            let deeper := match new_separators with
                          | [] => None
                          | _ => Some (_split_text new_separators)
                          end in
            split_loop deeper (_split_text_with_regex text _s) [] []
          else
            match new_separators with
            | [] => split_loop None (_split_text_with_regex text _s) [] []
            | _ => _split_text new_separators text
            end
      end
  end.

Definition split_text (text : str) : list str :=
  _split_text (separators self) text.
End Splitter.

End TextSplitter.

(** [PDFProcessor.__init__]: the splitter of the processor. *)
Definition text_splitter : TextSplitter.t :=
  {| TextSplitter.chunk_size := 4000;
     TextSplitter.chunk_overlap := 200;
     TextSplitter.separators := [ [LF; LF]; [LF]; [32]; [] ] |}.

(** ** Template-Guided Extractor and Merge Stage
    ([services/langchain_service.py]) *)
Module LangChainService.

(** What a global name of the module is bound to; of the [json] module
    only [dumps(_, indent=2, ensure_ascii=False)] is used. *)
Inductive binding : Type :=
| JsonModule (dumps : json -> str)
| Other.

(** The global names of [services/langchain_service.py], from its
    [import] statements and definitions. *)
Definition module_globals : list (string * binding) :=
  [ ("logging", Other); ("os", Other);
    ("Dict", Other); ("Any", Other); ("List", Other);
    ("ChatOpenAI", Other); ("ChatPromptTemplate", Other);
    ("JsonOutputParser", Other); ("LangChainException", Other);
    ("load_dotenv", Other); ("logger", Other);
    ("LangChainService", Other) ]%string.

(** The same module with [import json] added. *)
Definition with_json (dumps : json -> str) : list (string * binding) :=
  ("json", JsonModule dumps)%string :: module_globals.

Definition lookup_name (name : string) (globals : list (string * binding))
  : option binding :=
  snd <$> find (fun nb => String.eqb (fst nb) name) globals.

Definition logger : level -> str -> M unit := logging "services.langchain_service".

Definition knowledge_system : str := py
"You are an expert educational content analyzer. Your task is to extract knowledge points from course material and structure them according to a provided JSON template.

CRITICAL INSTRUCTIONS:
1. Extract ONLY knowledge points that are actually present in the provided text
2. Follow the EXACT structure of the provided JSON template
3. Fill in the template with relevant content from the text
4. If a section in the template has no corresponding content in the text, use null or empty values
5. Maintain the original JSON structure and field names
6. Ensure all output is valid JSON format

QUALITY REQUIREMENTS:
- Extract key concepts, definitions, examples, and important details
- Summarize complex topics clearly and concisely
- Preserve important technical terms and terminology
- Maintain logical connections between related concepts".

(** [self.knowledge_prompt], formatted with its two inputs. *)
Definition knowledge_prompt (chapter_content json_structure : str) : request :=
  {| system_message := knowledge_system;
     human_message :=
       py "Please analyze the following course chapter and extract knowledge points according to the provided JSON structure.

CHAPTER CONTENT:
" ++ chapter_content ++ py "

JSON STRUCTURE TEMPLATE:
" ++ json_structure ++ py "

Extract the knowledge points from the chapter content and fill the JSON template accordingly. Return ONLY the filled JSON structure, no additional text or explanations." |}.

Definition merge_system : str := py
"You are an expert at consolidating educational content. Your task is to merge multiple knowledge point extractions into a single, comprehensive JSON structure.

INSTRUCTIONS:
1. Combine all knowledge points from different chapters
2. Eliminate duplicates while preserving unique information
3. Organize content logically within the target structure
4. Ensure comprehensive coverage of all topics
5. Maintain the exact JSON structure provided
6. Return ONLY the merged JSON, no additional text".

Definition merge_prompt (extracted_points target_structure : str) : request :=
  {| system_message := merge_system;
     human_message :=
       py "Please merge the following extracted knowledge points into the target JSON structure:

EXTRACTED KNOWLEDGE POINTS:
" ++ extracted_points ++ py "

TARGET JSON STRUCTURE:
" ++ target_structure ++ py "

Merge all knowledge points into a comprehensive, well-organized JSON structure." |}.

Section Service.
(** The module's globals, the text-generation service ([self.llm]: the
    text of the reply, or a transport failure) and
    [self.json_parser]. *)
Variable globals : list (string * binding).
Variable llm : request -> outcome str.
Variable json_parser : str -> outcome json.

(** Evaluation of the expression [json.dumps]. *)
Definition json_dumps : M (json -> str) :=
  match lookup_name "json" globals with
  | Some (JsonModule dumps) => ret dumps
  | Some Other =>
      raise {| exn_class := "AttributeError"; exn_langchain := false;
               exn_msg := py "'json' has no attribute 'dumps'" |}
  | None =>
      raise {| exn_class := "NameError"; exn_langchain := false;
               exn_msg := py "name 'json' is not defined" |}
  end.

(** [(prompt | self.llm | self.json_parser).ainvoke(inputs)]: one request
    is sent, and the text of the reply is parsed. *)
Definition ainvoke (prompt : request) : M json :=
  fun w =>
    let w := {| store := store w; log := log w; sent := sent w ++ [prompt] |} in
    match llm prompt with
    | Return text => (json_parser text, w)
    | Raise e => (Raise e, w)
    end.

(** [LangChainService.extract_knowledge_from_chapter] *)
Definition extract_knowledge_from_chapter
           (chapter_content : str) (json_structure : json) : M json :=
  try_except
    (logger INFO (py "Starting knowledge extraction with LangChain") ;;;
     dumps <- json_dumps ;;
     let inputs := knowledge_prompt chapter_content (dumps json_structure) in
     result <- ainvoke inputs ;;
     logger INFO (py "Successfully extracted knowledge points") ;;;
     ret result)
    (fun e =>
       if exn_langchain e
       then logger ERROR (py "LangChain processing error: " ++ exn_msg e) ;;; raise e
       else logger ERROR (py "Unexpected error in knowledge extraction: " ++ exn_msg e) ;;;
            raise e).

(** [LangChainService.merge_knowledge_points]; [extracted_points] holds
    the references of the chapter results. *)
Definition merge_knowledge_points
           (extracted_points : list nat) (target_structure : json) : M json :=
  try_except
    (logger INFO (py "Starting knowledge points merge") ;;;
     dumps <- json_dumps ;;
     w <- (fun w => (Return w, w)) ;;
     let inputs :=
       merge_prompt (dumps (JList (map (deref w) extracted_points)))
                    (dumps target_structure) in
     result <- ainvoke inputs ;;
     logger INFO (py "Successfully merged knowledge points") ;;;
     ret result)
    (fun e =>
       logger ERROR (py "Error merging knowledge points: " ++ exn_msg e) ;;; raise e).
End Service.

End LangChainService.

(** ** Concurrency-Bounded Fan-Out Orchestrator
    ([services/knowledge_extractor.py]) *)
Module KnowledgeExtractor.

(** The service the orchestrator is built on: the awaited result of
    [extract_knowledge_from_chapter], and [merge_knowledge_points]. *)
Record Service : Type := mkService {
  svc_extract : str -> json -> outcome json;
  svc_merge : list nat -> json -> M json
}.

Record t : Type := mkExtractor {
  langchain_service : Service;
  max_concurrent_requests : nat
}.

(** [KnowledgeExtractor.__init__] *)
Definition init (langchain_service : Service) : t :=
  {| langchain_service := langchain_service; max_concurrent_requests := 3 |}.

Definition logger : level -> str -> M unit := logging "services.knowledge_extractor".

(** A task of [_process_chapter_with_semaphore]: waiting for the semaphore,
    inside [async with] awaiting the extraction, or done with a reference
    to its result or with the exception it raised. *)
Inductive phase : Type :=
| Waiting
| InFlight
| Done (r : outcome nat).

Definition is_inflight (p : phase) : bool :=
  match p with InFlight => true | _ => false end.
Definition is_waiting (p : phase) : bool :=
  match p with Waiting => true | _ => false end.
Definition result_of (p : phase) : option (outcome nat) :=
  match p with Done r => Some r | _ => None end.

(** The event loop during [asyncio.gather]: the value of the semaphore,
    the tasks in the order they were created, and the world. *)
Record config : Type := mkConfig {
  sem : nat;
  tasks : list phase;
  cw : world
}.

Fixpoint count {A} (f : A -> bool) (l : list A) : nat :=
  match l with
  | [] => 0
  | x :: r => (if f x then 1 else 0) + count f r
  end.

Definition lift {A} (o : outcome A) : M A := fun w => (o, w).

(** The references among the results of [gather], in order. *)
Definition successes (chapter_results : list (outcome nat)) : list nat :=
  omap (fun o => match o with Return r => Some r | Raise _ => None end)
       chapter_results.

Definition pipeline_failure : exn :=
  {| exn_class := "Exception"; exn_langchain := false;
     exn_msg := py "Failed to process any chapters successfully" |}.

(** The records [Failed to process chapter ...] of the orchestrator. *)
Definition is_failure_record (r : log_record) : bool :=
  String.eqb (log_name r) "services.knowledge_extractor"
  && match log_level r with ERROR => true | INFO => false end
  && TextSplitter.is_prefix (py "Failed to process chapter ") (log_msg r).

Definition failure_logs (l : list log_record) : nat := count is_failure_record l.

Section Run.
Variable self : t.
Variable chapters : list ChapterUnit.
Variable knowledge_structure : json.

Definition chapter_info (chapter : ChapterUnit) : json :=
  JDict [ (py "chapter_number", JInt (Z.of_nat (chapter_number chapter)));
          (py "title", JStr (title chapter)) ].

(** [_process_chapter_with_semaphore] inside [async with], up to the
    [await]. *)
Definition process_chapter_enter (chapter : ChapterUnit) : M unit :=
  logger INFO (py "Processing chapter: " ++ title chapter).

(** ... and from the reply of the extraction on. *)
Definition process_chapter_resume (chapter : ChapterUnit) : M nat :=
  try_except
    (v <- lift (svc_extract (langchain_service self)
                            (content chapter) knowledge_structure) ;;
     result <- alloc v ;;
     setitem result (py "_chapter_info") (chapter_info chapter) ;;;
     logger INFO (py "Completed processing chapter: " ++ title chapter) ;;;
     ret result)
    (fun e =>
       logger ERROR (py "Error processing chapter " ++ title chapter
                     ++ py ": " ++ exn_msg e) ;;;
       raise e).

(** The body of [_process_chapter_with_semaphore], run without
    interruption. *)
Definition _process_chapter_with_semaphore (chapter : ChapterUnit) : M nat :=
  process_chapter_enter chapter ;;; process_chapter_resume chapter.

(** [semaphore = asyncio.Semaphore(self.max_concurrent_requests)] and one
    task per chapter. *)
Definition initial (w : world) : config :=
  {| sem := max_concurrent_requests self;
     tasks := map (fun _ => Waiting) chapters;
     cw := w |}.

(** One step of the event loop: a waiting task enters [async with] when
    the semaphore is positive, or the extraction of a task in flight
    ends, the task finishes and leaves [async with]. *)
Inductive step : config -> config -> Prop :=
| step_acquire cfg i chapter :
    tasks cfg !! i = Some Waiting ->
    chapters !! i = Some chapter ->
    (0 < sem cfg)%nat ->
    step cfg {| sem := sem cfg - 1;
                tasks := <[i := InFlight]> (tasks cfg);
                cw := snd (process_chapter_enter chapter (cw cfg)) |}
| step_release cfg i chapter :
    tasks cfg !! i = Some InFlight ->
    chapters !! i = Some chapter ->
    step cfg {| sem := sem cfg + 1;
                tasks := <[i := Done (fst (process_chapter_resume chapter (cw cfg)))]>
                           (tasks cfg);
                cw := snd (process_chapter_resume chapter (cw cfg)) |}.

(** The step task [i] can take, if any. *)
Definition fire (i : nat) (cfg : config) : config :=
  match tasks cfg !! i, chapters !! i with
  | Some Waiting, Some chapter =>
      if (0 <? sem cfg)%nat
      then {| sem := sem cfg - 1;
              tasks := <[i := InFlight]> (tasks cfg);
              cw := snd (process_chapter_enter chapter (cw cfg)) |}
      else cfg
  | Some InFlight, Some chapter =>
      {| sem := sem cfg + 1;
         tasks := <[i := Done (fst (process_chapter_resume chapter (cw cfg)))]>
                    (tasks cfg);
         cw := snd (process_chapter_resume chapter (cw cfg)) |}
  | _, _ => cfg
  end.

Definition run_schedule (schedule : list nat) (cfg : config) : config :=
  foldl (fun cfg i => fire i cfg) cfg schedule.

(** [await asyncio.gather] with [return_exceptions=True]: once every
    task is done, their results and exceptions in the order of the
    tasks. *)
Definition gather (cfg : config) : option (list (outcome nat)) :=
  mapM result_of (tasks cfg).

(** The loop over [enumerate(chapter_results)], from index [i] on. *)
Fixpoint filter_results (i : nat) (chapter_results : list (outcome nat))
         (successful_results : list nat) : M (list nat) :=
  match chapter_results with
  | [] => ret successful_results
  | Raise e :: rest =>
      logger ERROR (py "Failed to process chapter " ++ str_of_nat (i + 1)
                    ++ py ": " ++ exn_msg e) ;;;
      filter_results (S i) rest successful_results
  | Return result :: rest =>
      filter_results (S i) rest (successful_results ++ [result])
  end.

(** From the results of [gather] to the list handed to the merge. *)
Definition collect (chapter_results : list (outcome nat)) : M (list nat) :=
  successful_results <- filter_results 0 chapter_results [] ;;
  match successful_results with
  | [] => raise pipeline_failure
  | _ =>
      logger INFO (py "Successfully processed "
                   ++ str_of_nat (length successful_results)
                   ++ py " chapters") ;;;
      ret successful_results
  end.

Definition on_error (e : exn) : M json :=
  logger ERROR (py "Error in knowledge extraction process: " ++ exn_msg e) ;;;
  raise e.

(** [extract_knowledge_points] after [gather]. *)
Definition finish (chapter_results : list (outcome nat)) : M json :=
  try_except
    (successful_results <- collect chapter_results ;;
     svc_merge (langchain_service self) successful_results knowledge_structure)
    on_error.

Definition start : M unit :=
  logger INFO (py "Starting knowledge extraction for "
               ++ str_of_nat (length chapters) ++ py " chapters").

(** [KnowledgeExtractor.extract_knowledge_points]: the start, any
    interleaving of the tasks up to the point where all are done, and
    the rest of the function. *)
Definition extract_knowledge_points (w : world) (res : outcome json * world) : Prop :=
  exists cfg chapter_results,
    rtc step (initial (snd (start w))) cfg
    /\ gather cfg = Some chapter_results
    /\ res = finish chapter_results (cw cfg).

(** What the call for a chapter ends with: the tagged result, or the
    exception of the extraction or of the tagging. *)
Definition chapter_outcome (chapter : ChapterUnit) : outcome json :=
  match svc_extract (langchain_service self) (content chapter) knowledge_structure with
  | Return v => setitem_result (py "_chapter_info") (chapter_info chapter) v
  | Raise e => Raise e
  end.

Definition extraction_fails (chapter : ChapterUnit) : bool :=
  is_raise (svc_extract (langchain_service self) (content chapter) knowledge_structure).

(** The extraction returns JSON objects, as its signature
    [-> Dict[str, Any]] says. *)
Definition returns_objects : Prop :=
  forall chapter v,
    In chapter chapters ->
    svc_extract (langchain_service self) (content chapter) knowledge_structure
    = Return v ->
    exists d, v = JDict d.

(** What a finished task holds, given the world: the reference of the
    tagged result of its chapter, allocated during the run that started
    in [w0], or the exception of its chapter. *)
Definition finished_as (w0 w : world) (chapter : ChapterUnit) (r : outcome nat) : Prop :=
  match r, chapter_outcome chapter with
  | Return ref, Return obj =>
      store w !! ref = Some obj /\ (length (store w0) <= ref)%nat
  | Raise e, Raise e' => e = e'
  | _, _ => False
  end.

(** The invariant of the fan-out started in [w0]. *)
Definition consistent (w0 : world) (cfg : config) : Prop :=
  length (tasks cfg) = length chapters
  /\ (sem cfg + count is_inflight (tasks cfg))%nat = max_concurrent_requests self
  /\ (exists new, store (cw cfg) = store w0 ++ new)
  /\ sent (cw cfg) = sent w0
  /\ failure_logs (log (cw cfg)) = failure_logs (log w0)
  /\ (forall i r, tasks cfg !! i = Some (Done r) ->
       exists chapter, chapters !! i = Some chapter
                       /\ finished_as w0 (cw cfg) chapter r)
  /\ (forall i j ref, tasks cfg !! i = Some (Done (Return ref)) ->
       tasks cfg !! j = Some (Done (Return ref)) -> i = j).

(** The steps still to take: two for a waiting task, one for a task in
    flight. *)
Definition remaining (cfg : config) : nat :=
  2 * count is_waiting (tasks cfg) + count is_inflight (tasks cfg).

End Run.

(** The orchestrator on [LangChainService]. *)
Definition real_service (globals : list (string * LangChainService.binding))
           (llm : request -> outcome str) (json_parser : str -> outcome json)
  : Service :=
  {| svc_extract := fun chapter_content json_structure =>
       fst (LangChainService.extract_knowledge_from_chapter
              globals llm json_parser chapter_content json_structure
              {| store := []; log := []; sent := [] |});
     svc_merge := LangChainService.merge_knowledge_points globals llm json_parser |}.

End KnowledgeExtractor.


(** The segmenter of the application: Python's [re] on the code points
    below 128 and the splitter of [PDFProcessor.__init__]. *)
Definition app_findall : str -> str -> list str := Re.re_findall Re.ascii_tables.
Definition app_split_text : str -> list str := TextSplitter.split_text text_splitter.
Definition app_segment : str -> list ChapterUnit := segment app_findall app_split_text.

(** ** A sample run

    The scenario of the specification: a text with three chapter markers,
    the template [{"topics": []}], an extraction that returns
    [{"topics": ["X"]}] for the first two chapters and raises for the
    third, and a merge that concatenates the [topics] of its inputs. *)
Module Sample.

Definition text : str := py "Chapter 1 A
Chapter 2 B
Chapter 3 C".

Definition chapters : list ChapterUnit := app_segment text.

Definition template : json := JDict [(py "topics", JList [])].

Definition boom : exn :=
  {| exn_class := "RuntimeError"; exn_langchain := false; exn_msg := py "boom" |}.

Definition topics_of (v : json) : list json :=
  match v with
  | JDict d => match dict_get (py "topics") d with
               | Some (JList l) => l
               | _ => []
               end
  | _ => []
  end.

Definition service : KnowledgeExtractor.Service :=
  {| KnowledgeExtractor.svc_extract := fun chapter_content _ =>
       if bool_decide (chapter_content = py "Chapter 3 C")
       then Raise boom
       else Return (JDict [(py "topics", JList [JStr (py "X")])]);
     KnowledgeExtractor.svc_merge := fun extracted_points _ w =>
       (Return (JDict [(py "topics",
                        JList (concat (map (fun r => topics_of (deref w r))
                                           extracted_points)))]),
        w) |}.

Definition extractor : KnowledgeExtractor.t := KnowledgeExtractor.init service.

(** The same with room for two calls only. *)
Definition narrow : KnowledgeExtractor.t :=
  {| KnowledgeExtractor.langchain_service := service;
     KnowledgeExtractor.max_concurrent_requests := 2 |}.

Definition empty_world : world := {| store := []; log := []; sent := [] |}.

Definition started : world := snd (KnowledgeExtractor.start chapters empty_world).

(** All three calls enter; the third fails first, then the second and
    the first return. *)
Definition final : KnowledgeExtractor.config :=
  KnowledgeExtractor.run_schedule extractor chapters template
    [0; 1; 2; 2; 1; 0]%nat
    (KnowledgeExtractor.initial extractor chapters started).

(** With room for two, the third call is still waiting after every task
    was offered a step. *)
Definition midway : KnowledgeExtractor.config :=
  KnowledgeExtractor.run_schedule narrow chapters template
    [0; 1; 2]%nat
    (KnowledgeExtractor.initial narrow chapters started).

End Sample.

(** ** Further cases of the orchestrator *)

(** The objects handed to the merge, read off the chapters: the tagged
    result of every chapter whose call ends well, in chapter order. *)
Definition expected_results (self : KnowledgeExtractor.t) (ks : json)
           (chapters : list ChapterUnit) : list json :=
  omap (fun chapter =>
          match KnowledgeExtractor.chapter_outcome self ks chapter with
          | Return v => Some v
          | Raise _ => None
          end)
       chapters.

Definition is_object (v : json) : bool :=
  match v with JDict _ => true | _ => false end.

Module Cases.

(** The sample extractor with a limit of zero. *)
Definition stuck : KnowledgeExtractor.t :=
  {| KnowledgeExtractor.langchain_service := Sample.service;
     KnowledgeExtractor.max_concurrent_requests := 0 |}.

(** An extraction that answers the second chapter with a JSON array. *)
Definition listy : KnowledgeExtractor.Service :=
  {| KnowledgeExtractor.svc_extract := fun chapter_content _ =>
       if bool_decide (chapter_content = py "Chapter 2 B")
       then Return (JList [JStr (py "X")])
       else Return (JDict [(py "topics", JList [JStr (py "X")])]);
     KnowledgeExtractor.svc_merge := KnowledgeExtractor.svc_merge Sample.service |}.

Definition listy_extractor : KnowledgeExtractor.t := KnowledgeExtractor.init listy.

Definition listy_final : KnowledgeExtractor.config :=
  KnowledgeExtractor.run_schedule listy_extractor Sample.chapters Sample.template
    [0; 1; 2; 0; 1; 2]%nat
    (KnowledgeExtractor.initial listy_extractor Sample.chapters Sample.started).

(** An extraction that returns an object which already has the reserved
    key. *)
Definition tagging : KnowledgeExtractor.Service :=
  {| KnowledgeExtractor.svc_extract := fun _ _ =>
       Return (JDict [(py "_chapter_info", JStr (py "mine"));
                      (py "topics", JList [])]);
     KnowledgeExtractor.svc_merge := KnowledgeExtractor.svc_merge Sample.service |}.



(** A service with [import json]: a serializer that tells objects from
    the rest, a text-generation service that fails on one chapter, and a
    parser that returns an empty object. *)
Definition dumps (v : json) : str :=
  match v with JDict _ => py "{}" | JList _ => py "[]" | _ => py "null" end.

Definition rate_limit : exn :=
  {| exn_class := "LangChainException"; exn_langchain := true;
     exn_msg := py "rate limit" |}.

Definition llm (r : request) : outcome str :=
  if TextSplitter.is_prefix (py "You are an expert educational") (system_message r)
  then Raise rate_limit
  else Return (py "{}").

Definition json_parser (text : str) : outcome json := Return (JDict []).

Definition empty_world : world := {| store := []; log := []; sent := [] |}.

Definition patient_llm (r : request) : outcome str := Return (py "{}").

Definition real_extractor : KnowledgeExtractor.t :=
  KnowledgeExtractor.init
    (KnowledgeExtractor.real_service (LangChainService.with_json dumps)
                                     patient_llm json_parser).

Definition real_final : KnowledgeExtractor.config :=
  KnowledgeExtractor.run_schedule real_extractor Sample.chapters Sample.template
    [0; 1; 0; 2; 1; 2]%nat
    (KnowledgeExtractor.initial real_extractor Sample.chapters
       (snd (KnowledgeExtractor.start Sample.chapters empty_world))).

End Cases.

(** ** Upload validation ([utils/file_validator.py]) *)
Module FileValidator.

(** An [UploadFile]: its name, its bytes, and the position of the next
    read. *)
Record UploadFile : Type := mkUpload {
  filename : str;
  data : list N;
  position : nat
}.

(** [await file.read()]: the bytes from the position to the end. *)
Definition read (file : UploadFile) : list N * UploadFile :=
  (drop (position file) (data file),
   {| filename := filename file; data := data file;
      position := Nat.max (position file) (length (data file)) |}).

(** [await file.seek(offset)] *)
Definition seek (offset : nat) (file : UploadFile) : UploadFile :=
  {| filename := filename file; data := data file; position := offset |}.

(** What a call of the application raises: FastAPI's [HTTPException], or
    any other exception. *)
Inductive error : Type :=
| HTTPException (status_code : nat) (detail : str)
| Other (e : exn).

Definition endswith (suffix s : str) : bool :=
  TextSplitter.is_prefix (reverse suffix) (reverse s).

Definition startswith (prefix s : str) : bool := TextSplitter.is_prefix prefix s.

(** [self.max_file_size] *)
Definition max_file_size : N := 50 * 1024 * 1024.

Definition logger : level -> str -> M unit := logging "utils.file_validator".

Section Validator.
(** [str.lower], [bytes.decode('utf-8')] (its exception is
    [UnicodeDecodeError]) and [json.loads]: library calls, taken as
    parameters. *)
Variable str_lower : str -> str.
Variable decode : list N -> outcome str.
Variable json_loads : str -> outcome json.

(** [FileValidator.validate_pdf]: what it raises, if anything, the file
    object and the world after the call. *)
Definition validate_pdf (pdf_file : UploadFile) (w : world)
  : option error * UploadFile * world :=
  if negb (endswith (py ".pdf") (str_lower (filename pdf_file)))
  then (Some (HTTPException 400 (py "File must have .pdf extension")), pdf_file, w)
  else
    let (file_content, pdf_file) := read pdf_file in
    if max_file_size <? N.of_nat (length file_content)
    then (Some (HTTPException 400
                  (py "PDF file too large. Maximum size: "
                   ++ str_of_nat (N.to_nat (max_file_size / (1024 * 1024)))
                   ++ py "MB")),
          pdf_file, w)
    else
      let pdf_file := seek 0 pdf_file in
      if negb (startswith (py "%PDF") file_content)
      then (Some (HTTPException 400 (py "Invalid PDF file format")), pdf_file, w)
      else (None, pdf_file,
            snd (logger INFO (py "PDF file validation successful: "
                              ++ filename pdf_file) w)).

(** [FileValidator.validate_json] *)
Definition validate_json (json_file : UploadFile) (w : world)
  : option error * UploadFile * world :=
  if negb (endswith (py ".json") (str_lower (filename json_file)))
  then (Some (HTTPException 400 (py "File must have .json extension")), json_file, w)
  else
    let (file_content, json_file) := read json_file in
    if 10 * 1024 * 1024 <? N.of_nat (length file_content)
    then (Some (HTTPException 400 (py "JSON file too large. Maximum size: 10MB")),
          json_file, w)
    else
      match decode file_content with
      | Raise _ =>
          (Some (HTTPException 400 (py "JSON file must be UTF-8 encoded")), json_file, w)
      | Return text =>
          match json_loads text with
          | Raise e =>
              if String.eqb (exn_class e) "JSONDecodeError"
              then (Some (HTTPException 400 (py "Invalid JSON format: " ++ exn_msg e)),
                    json_file, w)
              else (Some (Other e), json_file, w)
          | Return json_content =>
              if negb (is_object json_content)
              then (Some (HTTPException 400
                            (py "JSON file must contain a valid object structure")),
                    json_file, w)
              else
                let json_file := seek 0 json_file in
                (None, json_file,
                 snd (logger INFO (py "JSON file validation successful: "
                                   ++ filename json_file) w))
          end
      end.

End Validator.

End FileValidator.

(** ** The endpoint ([main.py]), with [JSONProcessor.parse_json_file]
    ([utils/json_processor.py]) and the whole of
    [PDFProcessor.extract_chapters] *)
Module Main.
Import FileValidator.

(** What the endpoint takes from its libraries and its environment. *)
Record env : Type := mkEnv {
  (** [str.lower], [bytes.decode('utf-8')], [json.loads] *)
  str_lower : str -> str;
  decode : list N -> outcome str;
  json_loads : str -> outcome json;
  (** [PyPDFLoader(path).load()]: the page contents, from the bytes of
      the file if there is one *)
  load_pdf : option (list N) -> outcome (list str);
  (** [re.findall] and the splitter of [PDFProcessor] *)
  re_findall : str -> str -> list str;
  split_text : str -> list str;
  (** the globals of [services/langchain_service.py], the
      text-generation service and the parser *)
  globals : list (string * LangChainService.binding);
  llm : request -> outcome str;
  json_parser : str -> outcome json;
  (** [datetime.now().isoformat()] *)
  now_isoformat : str;
  (** [str(e)] of an [HTTPException] *)
  http_str : nat -> str -> str;
  (** the [UnboundLocalError] of the interpreter for a name, the
      [FileNotFoundError] of the system for a path, and the validation
      error of [ProcessResponse] for a value *)
  unbound_local : string -> exn;
  file_not_found : str -> exn;
  validation_error : json -> exn;
  (** [__name__] of [main.py] *)
  main_name : string
}.

(** [ProcessResponse] *)
Record ProcessResponse : Type := mkProcessResponse {
  success : bool;
  message : str;
  response_data : json;
  processed_at : str
}.

(** The state of a request: the files on disk (directories are not
    modelled and the disk does not fail), the world of the services, the two
    uploads, and the locals [pdf_path] and [json_path] of [process_files],
    unbound until they are assigned. *)
Record state : Type := mkState {
  files : list (str * list N);
  wld : world;
  pdf_file : UploadFile;
  json_file : UploadFile;
  pdf_path : option str;
  json_path : option str
}.

Definition set_files (fs : list (str * list N)) (s : state) : state :=
  {| files := fs; wld := wld s; pdf_file := pdf_file s; json_file := json_file s;
     pdf_path := pdf_path s; json_path := json_path s |}.
Definition set_world (w : world) (s : state) : state :=
  {| files := files s; wld := w; pdf_file := pdf_file s; json_file := json_file s;
     pdf_path := pdf_path s; json_path := json_path s |}.
Definition set_pdf_file (f : UploadFile) (s : state) : state :=
  {| files := files s; wld := wld s; pdf_file := f; json_file := json_file s;
     pdf_path := pdf_path s; json_path := json_path s |}.
Definition set_json_file (f : UploadFile) (s : state) : state :=
  {| files := files s; wld := wld s; pdf_file := pdf_file s; json_file := f;
     pdf_path := pdf_path s; json_path := json_path s |}.
Definition set_pdf_path (p : str) (s : state) : state :=
  {| files := files s; wld := wld s; pdf_file := pdf_file s; json_file := json_file s;
     pdf_path := Some p; json_path := json_path s |}.
Definition set_json_path (p : str) (s : state) : state :=
  {| files := files s; wld := wld s; pdf_file := pdf_file s; json_file := json_file s;
     pdf_path := pdf_path s; json_path := Some p |}.

(** The files on disk: [open(path, 'wb')] with [write], [os.path.exists],
    and the deletion of [os.remove]. *)
Fixpoint fs_lookup (path : str) (fs : list (str * list N)) : option (list N) :=
  match fs with
  | [] => None
  | (p, bytes) :: rest => if bool_decide (p = path) then Some bytes else fs_lookup path rest
  end.

Definition fs_delete (path : str) (fs : list (str * list N)) : list (str * list N) :=
  filter (fun entry => fst entry <> path) fs.

Definition fs_write (path : str) (bytes : list N) (fs : list (str * list N))
  : list (str * list N) :=
  (path, bytes) :: fs_delete path fs.

Definition exists_ (path : str) (fs : list (str * list N)) : bool :=
  match fs_lookup path fs with Some _ => true | None => false end.

(** Code of a request. *)
Definition IO (A : Type) : Type := state -> (A + error) * state.

Definition io_ret {A} (a : A) : IO A := fun s => (inl a, s).
Definition io_raise {A} (e : error) : IO A := fun s => (inr e, s).
Definition io_bind {A B} (c : IO A) (k : A -> IO B) : IO B :=
  fun s => match c s with
           | (inl a, s') => k a s'
           | (inr e, s') => (inr e, s')
           end.
(** [try: c except Exception as e: h e] *)
Definition io_try {A} (c : IO A) (h : error -> IO A) : IO A :=
  fun s => match c s with
           | (inl a, s') => (inl a, s')
           | (inr e, s') => h e s'
           end.

Notation "x <<- c ;; k" := (io_bind c (fun x => k))
  (at level 100, c at next level, right associativity).
Notation "c >>> k" := (io_bind c (fun _ => k))
  (at level 100, right associativity).

(** A call of a service, which sees the world only. *)
Definition call {A} (c : M A) : IO A :=
  fun s => match c (wld s) with
           | (Return a, w) => (inl a, set_world w s)
           | (Raise e, w) => (inr (Other e), set_world w s)
           end.

(** Universal newlines of a file opened in text mode. *)
Fixpoint universal_newlines (s : str) : str :=
  match s with
  | [] => []
  | c :: rest =>
      if c =? 13
      then LF :: match rest with
                 | d :: rest' =>
                     if d =? LF then universal_newlines rest' else universal_newlines rest
                 | [] => []
                 end
      else c :: universal_newlines rest
  end.

Section Endpoint.
Variable E : env.

Definition error_str (e : error) : str :=
  match e with
  | HTTPException status_code detail => http_str E status_code detail
  | Other e => exn_msg e
  end.

Definition Exception (msg : str) : exn :=
  {| exn_class := "Exception"; exn_langchain := false; exn_msg := msg |}.

(** [JSONProcessor.parse_json_file] *)
Definition parse_json_file (json_path : str) (fs : list (str * list N)) : M json :=
  let logger := logging "utils.json_processor" in
  let reading_failed (e : exn) : M json :=
    logger ERROR (py "Error reading JSON file: " ++ exn_msg e) ;;; raise e in
  match fs_lookup json_path fs with
  | None => reading_failed (file_not_found E json_path)
  | Some bytes =>
      match decode E bytes with
      | Raise e => reading_failed e
      | Return content =>
          match json_loads E (universal_newlines content) with
          | Return json_structure =>
              logger INFO (py "Successfully parsed JSON structure file") ;;;
              ret json_structure
          | Raise e =>
              if String.eqb (exn_class e) "JSONDecodeError"
              then logger ERROR (py "JSON parsing error: " ++ exn_msg e) ;;;
                   raise (Exception (py "Invalid JSON format: " ++ exn_msg e))
              else reading_failed e
          end
      end
  end.

(** [PDFProcessor.extract_chapters], from the path on. *)
Definition extract_chapters_of_file (pdf_path : str) (fs : list (str * list N))
  : M (list ChapterUnit) :=
  let logger := logging "services.pdf_processor" in
  try_except
    (logger INFO (py "Starting PDF extraction from: " ++ pdf_path) ;;;
     documents <- KnowledgeExtractor.lift (load_pdf E (fs_lookup pdf_path fs)) ;;
     logger INFO (py "Loaded " ++ str_of_nat (length documents) ++ py " pages from PDF") ;;;
     let chapters := extract_chapters (re_findall E) (split_text E) documents in
     logger INFO (py "Successfully extracted " ++ str_of_nat (length chapters)
                  ++ py " chapters") ;;;
     ret chapters)
    (fun e => logger ERROR (py "Error extracting PDF chapters: " ++ exn_msg e) ;;;
              raise e).

(** [knowledge_extractor = KnowledgeExtractor(langchain_service)] *)
Definition knowledge_extractor : KnowledgeExtractor.t :=
  KnowledgeExtractor.init
    (KnowledgeExtractor.real_service (globals E) (llm E) (json_parser E)).

Definition logger (lvl : level) (msg : str) : IO unit :=
  call (logging (main_name E) lvl msg).

Definition validate_uploads : IO unit :=
  fun s =>
    match validate_pdf (str_lower E) (pdf_file s) (wld s) with
    | (Some e, f, w) => (inr e, set_world w (set_pdf_file f s))
    | (None, f, w) =>
        let s := set_world w (set_pdf_file f s) in
        match validate_json (str_lower E) (decode E) (json_loads E)
                            (json_file s) (wld s) with
        | (Some e, f, w) => (inr e, set_world w (set_json_file f s))
        | (None, f, w) => (inl tt, set_world w (set_json_file f s))
        end
    end.

(** [pdf_path = ...; json_path = ...] and the two [async with] blocks. *)
Definition save_uploads : IO unit :=
  fun s =>
    let temp_dir := py "temp_uploads" in
    let pdf_path := temp_dir ++ py "/" ++ filename (pdf_file s) in
    let json_path := temp_dir ++ py "/" ++ filename (json_file s) in
    let s := set_json_path json_path (set_pdf_path pdf_path s) in
    let (content, f) := read (pdf_file s) in
    let s := set_files (fs_write pdf_path content (files s)) (set_pdf_file f s) in
    let (json_content, f) := read (json_file s) in
    (inl tt, set_files (fs_write json_path json_content (files s)) (set_json_file f s)).

(** The value of a local variable of [process_files]. *)
Definition local (name : string) (value : state -> option str) : IO str :=
  fun s => match value s with
           | Some v => (inl v, s)
           | None => (inr (Other (unbound_local E name)), s)
           end.

(** [process_files], the [try] block up to the call of the orchestrator. *)
Definition before_extraction : IO (list ChapterUnit * json) :=
  (fun s => logger INFO (py "Processing files - PDF: " ++ filename (pdf_file s)
                         ++ py ", JSON: " ++ filename (json_file s)) s) >>>
  validate_uploads >>>
  save_uploads >>>
  json_path <<- local "json_path" json_path ;;
  knowledge_structure <<- (fun s => call (parse_json_file json_path (files s)) s) ;;
  logger INFO (py "Successfully parsed knowledge structure JSON") >>>
  pdf_path <<- local "pdf_path" pdf_path ;;
  pdf_chapters <<- (fun s => call (extract_chapters_of_file pdf_path (files s)) s) ;;
  logger INFO (py "Extracted " ++ str_of_nat (length pdf_chapters)
               ++ py " chapters from PDF") >>>
  io_ret (pdf_chapters, knowledge_structure).

(** [os.remove(path)] *)
Definition remove (path : str) : IO unit :=
  fun s => if exists_ path (files s)
           then (inl tt, set_files (fs_delete path (files s)) s)
           else (inr (Other (file_not_found E path)), s).

(** ... and the [try] block after it. *)
Definition after_extraction (structured_knowledge : json) : IO ProcessResponse :=
  pdf_path <<- local "pdf_path" pdf_path ;;
  remove pdf_path >>>
  json_path <<- local "json_path" json_path ;;
  remove json_path >>>
  logger INFO (py "Successfully processed files and extracted knowledge points") >>>
  if is_object structured_knowledge
  then io_ret {| success := true;
                 message := py "Knowledge points extracted successfully";
                 response_data := structured_knowledge;
                 processed_at := now_isoformat E |}
  else io_raise (Other (validation_error E structured_knowledge)).

(** One round of the loop [for file_path in [pdf_path, json_path]]. *)
Definition cleanup (file_path : str) : IO unit :=
  fun s => if exists_ file_path (files s)
           then (inl tt, set_files (fs_delete file_path (files s)) s)
           else (inl tt, s).

(** The handler [except Exception as e] of [process_files]. *)
Definition on_error (e : error) : IO ProcessResponse :=
  logger ERROR (py "Error processing files: " ++ error_str e) >>>
  pdf_path <<- local "pdf_path" pdf_path ;;
  json_path <<- local "json_path" json_path ;;
  cleanup pdf_path >>>
  cleanup json_path >>>
  io_raise (HTTPException 500 (py "Failed to process files: " ++ error_str e)).

(** [process_files]: what it returns or raises, for every schedule of the
    calls of the orchestrator. *)
Definition process_files (s : state) (res : (ProcessResponse + error) * state) : Prop :=
  match before_extraction s with
  | (inr e, s1) => res = on_error e s1
  | (inl (pdf_chapters, knowledge_structure), s1) =>
      exists r,
        KnowledgeExtractor.extract_knowledge_points
          knowledge_extractor pdf_chapters knowledge_structure (wld s1) r
        /\ res = match fst r with
                 | Return structured_knowledge =>
                     io_try (after_extraction structured_knowledge) on_error
                            (set_world (snd r) s1)
                 | Raise e => on_error (Other e) (set_world (snd r) s1)
                 end
  end.

(** What the client gets: the response model, FastAPI's answer to an
    [HTTPException], or the answer of [global_exception_handler]. *)
Inductive response : Type :=
| Processed (body : ProcessResponse)
| HttpError (status_code : nat) (detail : str)
| ServerError (message : str) (error : str).

Definition status_of (r : response) : nat :=
  match r with
  | Processed _ => 200
  | HttpError status_code _ => status_code
  | ServerError _ _ => 500
  end.

(** [global_exception_handler] *)
Definition global_exception_handler (exc : exn) : state -> response * state :=
  fun s =>
    (ServerError (py "Internal server error") (exn_msg exc),
     snd (logger ERROR (py "Unhandled exception: " ++ exn_msg exc) s)).

(** The answer of the application to what [process_files] did. *)
Definition answer (res : (ProcessResponse + error) * state) : response * state :=
  match fst res with
  | inl body => (Processed body, snd res)
  | inr (HTTPException status_code detail) => (HttpError status_code detail, snd res)
  | inr (Other exc) => global_exception_handler exc (snd res)
  end.

(** A request: two fresh uploads, read from their beginning. *)
Definition incoming (pdf_name : str) (pdf_bytes : list N)
           (json_name : str) (json_bytes : list N)
           (fs : list (str * list N)) (w : world) : state :=
  {| files := fs; wld := w;
     pdf_file := {| filename := pdf_name; data := pdf_bytes; position := 0 |};
     json_file := {| filename := json_name; data := json_bytes; position := 0 |};
     pdf_path := None; json_path := None |}.

End Endpoint.

(** The state of a request whose uploads were saved under [p1] and [p2]:
    the two locals are bound, and the disk is [fs] but for those two
    paths. *)
Definition saved (fs : list (str * list N)) (p1 p2 : str) (s : state) : Prop :=
  pdf_path s = Some p1
  /\ json_path s = Some p2
  /\ forall q, q <> p1 -> q <> p2 -> fs_lookup q (files s) = fs_lookup q fs.

Definition absent (p : str) (s : state) : Prop := fs_lookup p (files s) = None.

End Main.

(** ** Cleaning of data for serialization ([utils/json_processor.py]) *)
Module JSONProcessor.

(** Python values as [_clean_non_serializable] tells them apart: the
    scalars of JSON, lists, dicts (whose keys are any hashable values),
    tuples, and any other object. Values that contain themselves are not
    modelled. *)
Inductive pyobj : Type :=
| PNone
| PBool (b : bool)
| PInt (z : Z)
| PFloat (bits : N)
| PStr (s : str)
| PList (items : list pyobj)
| PTuple (items : list pyobj)
| PDict (entries : list (pyobj * pyobj))
| PObject (id : nat).

Section Cleaning.
(** [str(obj)], and whether the interpreter converts an [int] to text (it
    refuses one with more digits than its limit, with [ValueError]). *)
Variable py_str : pyobj -> str.
Variable int_ok : Z -> bool.

(** [JSONProcessor._clean_non_serializable] *)
Fixpoint _clean_non_serializable (obj : pyobj) : pyobj :=
  match obj with
  | PDict entries =>
      PDict (map (fun kv : pyobj * pyobj =>
                    let (k, v) := kv in (k, _clean_non_serializable v))
                 entries)
  | PList items => PList (map _clean_non_serializable items)
  | PStr _ | PInt _ | PFloat _ | PBool _ | PNone => obj
  | _ => PStr (py_str obj)
  end.

(** The keys [json.dumps] takes: [str], [int], [float], [bool] or
    [None]. *)
Definition key_ok (k : pyobj) : bool :=
  match k with
  | PInt z => int_ok z
  | PStr _ | PFloat _ | PBool _ | PNone => true
  | _ => false
  end.

(** [json.dumps(data, ensure_ascii=False)] returns, rather than raising
    [TypeError] or [ValueError]. *)
Fixpoint serializable (obj : pyobj) : bool :=
  match obj with
  | PInt z => int_ok z
  | PNone | PBool _ | PFloat _ | PStr _ => true
  | PList items | PTuple items => forallb serializable items
  | PDict entries =>
      forallb (fun kv : pyobj * pyobj =>
                 let (k, v) := kv in key_ok k && serializable v)
              entries
  | PObject _ => false
  end.

(** [JSONProcessor.ensure_json_serializable]; the warning it logs is left
    out. *)
Definition ensure_json_serializable (data : pyobj) : pyobj :=
  if serializable data then data else _clean_non_serializable data.

(** What cleaning cannot repair is absent: the keys of the dicts that are
    reached through lists and dicts are keys [json.dumps] takes, and the
    integers reached that way are within the limit. *)
Fixpoint keys_ok (obj : pyobj) : bool :=
  match obj with
  | PInt z => int_ok z
  | PList items => forallb keys_ok items
  | PDict entries =>
      forallb (fun kv : pyobj * pyobj => let (k, v) := kv in key_ok k && keys_ok v)
              entries
  | _ => true
  end.

End Cleaning.


End JSONProcessor.

(** Uploads and an environment for them. *)
Module Uploads.

Definition decode_error : exn :=
  {| exn_class := "UnicodeDecodeError"; exn_langchain := false;
     exn_msg := py "'utf-8' codec can't decode byte 0xff in position 0: invalid start byte" |}.

Definition json_error : exn :=
  {| exn_class := "JSONDecodeError"; exn_langchain := false;
     exn_msg := py "Expecting value: line 1 column 1 (char 0)" |}.

Definition E : Main.env :=
  {| Main.str_lower := map (Re.lower Re.ascii_tables);
     Main.decode := fun bytes =>
       if existsb (fun b => 128 <=? b) bytes then Raise decode_error
       else Return bytes;
     Main.json_loads := fun text =>
       if bool_decide (strip text = py "{}") then Return (JDict [])
       else if bool_decide (strip text = py "[]") then Return (JList [])
       else Raise json_error;
     Main.load_pdf := fun bytes =>
       match bytes with
       | Some _ => Return [Sample.text]
       | None => Raise {| exn_class := "ValueError"; exn_langchain := false;
                          exn_msg := py "File path is not a valid file or url" |}
       end;
     Main.re_findall := app_findall;
     Main.split_text := app_split_text;
     Main.globals := LangChainService.module_globals;
     Main.llm := Cases.patient_llm;
     Main.json_parser := Cases.json_parser;
     Main.now_isoformat := py "2024-05-01T12:00:00";
     Main.http_str := fun status_code detail =>
       str_of_nat status_code ++ py ": " ++ detail;
     Main.unbound_local := fun name =>
       {| exn_class := "UnboundLocalError"; exn_langchain := false;
          exn_msg := py "cannot access local variable '" ++ py name
                     ++ py "' where it is not associated with a value" |};
     Main.file_not_found := fun path =>
       {| exn_class := "FileNotFoundError"; exn_langchain := false;
          exn_msg := py "[Errno 2] No such file or directory: '" ++ path ++ py "'" |};
     Main.validation_error := fun _ =>
       {| exn_class := "ValidationError"; exn_langchain := false;
          exn_msg := py "1 validation error for ProcessResponse" |};
     Main.main_name := "main" |}.

(** The same environment on the module with [import json]. *)
Definition E_json : Main.env :=
  {| Main.str_lower := Main.str_lower E;
     Main.decode := Main.decode E;
     Main.json_loads := Main.json_loads E;
     Main.load_pdf := Main.load_pdf E;
     Main.re_findall := Main.re_findall E;
     Main.split_text := Main.split_text E;
     Main.globals := LangChainService.with_json Cases.dumps;
     Main.llm := Main.llm E;
     Main.json_parser := Main.json_parser E;
     Main.now_isoformat := Main.now_isoformat E;
     Main.http_str := Main.http_str E;
     Main.unbound_local := Main.unbound_local E;
     Main.file_not_found := Main.file_not_found E;
     Main.validation_error := Main.validation_error E;
     Main.main_name := Main.main_name E |}.

Definition course_pdf : FileValidator.UploadFile :=
  {| FileValidator.filename := py "Course.PDF";
     FileValidator.data := py "%PDF-1.7 pages";
     FileValidator.position := 0 |}.

Definition template_json : FileValidator.UploadFile :=
  {| FileValidator.filename := py "template.json";
     FileValidator.data := py "{}";
     FileValidator.position := 0 |}.

Definition good : Main.state :=
  Main.incoming (py "Course.PDF") (py "%PDF-1.7 pages") (py "template.json") (py "{}")
                [(py "temp_uploads/old.pdf", py "%PDF old")] Cases.empty_world.

Definition bad : Main.state :=
  Main.incoming (py "notes.txt") (py "plain text") (py "template.json") (py "{}")
                [(py "temp_uploads/old.pdf", py "%PDF old")] Cases.empty_world.

(** A run of the request [good] on [E_json], up to its end. *)
Definition good_start : (list ChapterUnit * json + FileValidator.error) * Main.state :=
  Main.before_extraction E_json good.

Definition good_chapters : list ChapterUnit :=
  match fst good_start with inl (chapters, _) => chapters | inr _ => [] end.

Definition good_template : json :=
  match fst good_start with inl (_, ks) => ks | inr _ => JNull end.

Definition good_final : KnowledgeExtractor.config :=
  KnowledgeExtractor.run_schedule (Main.knowledge_extractor E_json)
    good_chapters good_template [0; 1; 2; 2; 0; 1]%nat
    (KnowledgeExtractor.initial (Main.knowledge_extractor E_json) good_chapters
       (snd (KnowledgeExtractor.start good_chapters (Main.wld (snd good_start))))).

Definition good_run : outcome json * world :=
  KnowledgeExtractor.finish (Main.knowledge_extractor E_json) good_template
    [Return 1%nat; Return 2%nat; Return 0%nat] (KnowledgeExtractor.cw good_final).

Definition good_end : (Main.ProcessResponse + FileValidator.error) * Main.state :=
  Main.io_try (Main.after_extraction E_json (JDict [])) (Main.on_error E_json)
              (Main.set_world (snd good_run) (snd good_start)).

End Uploads.

(** * Properties *)

#[local] Arguments py : simpl never.

(** ** Chapter Segmenter *)

Lemma chapter_numbers_from {A} (f g : nat -> A -> str) (l : list A) (k : nat) :
  map chapter_number
      (imap (fun i x => {| chapter_number := k + i + 1; title := f i x; content := g i x |}) l)
  = seq (k + 1) (length l).
Proof.
  revert k f g. induction l as [|x l IH]; intros k f g; [reflexivity|].
  rewrite imap_cons. cbn [map length seq chapter_number].
  f_equal; [lia|].
  specialize (IH (S k) (fun i => f (S i)) (fun i => g (S i))).
  replace (S k + 1)%nat with (S (k + 1)) in IH by lia.
  rewrite <- IH. f_equal. apply imap_ext. intros i y _. cbn. f_equal. lia.
Qed.

Lemma chapter_numbers_imap {A} (f g : nat -> A -> str) (l : list A) :
  map chapter_number
      (imap (fun i x => {| chapter_number := i + 1; title := f i x; content := g i x |}) l)
  = seq 1 (length l).
Proof. exact (chapter_numbers_from f g l 0). Qed.

Section SegmenterFacts.
Variable re_findall : str -> str -> list str.
Variable split_text : str -> list str.

Local Abbreviation wins text p := (1 < length (re_findall p text))%nat.
Local Abbreviation loses text p := (length (re_findall p text) <= 1)%nat.

Lemma more_than_one_match (matches : list str) :
  negb (bool_decide (matches = [])) && (1 <? length matches)%nat = true
  <-> (1 < length matches)%nat.
Proof.
  rewrite andb_true_iff, Nat.ltb_lt, negb_true_iff, bool_decide_eq_false.
  split; [tauto|]. intros H; split; [|exact H]. intros ->. cbn in H. lia.
Qed.

Lemma length_chapters_of_matches (matches : list str) :
  length (chapters_of_matches matches) = length matches.
Proof. apply length_imap. Qed.

Lemma numbers_chapters_of_matches (matches : list str) :
  map chapter_number (chapters_of_matches matches) = seq 1 (length matches).
Proof. apply chapter_numbers_imap. Qed.

Lemma length_split_by_chunks (text : str) :
  length (_split_by_chunks split_text text) = length (split_text text).
Proof. apply length_imap. Qed.

Lemma numbers_split_by_chunks (text : str) :
  map chapter_number (_split_by_chunks split_text text)
  = seq 1 (length (split_text text)).
Proof. apply chapter_numbers_imap. Qed.

Lemma try_patterns_all_lose (patterns : list str) (text : str) :
  Forall (fun p => loses text p) patterns ->
  try_patterns re_findall patterns text = [].
Proof.
  induction 1 as [|p ps Hp _ IH]; [reflexivity|]. cbn [try_patterns].
  destruct (negb _ && _) eqn:E; [|exact IH].
  apply more_than_one_match in E. lia.
Qed.

Lemma try_patterns_first (before after : list str) (p text : str) :
  Forall (fun q => loses text q) before ->
  wins text p ->
  try_patterns re_findall (before ++ p :: after) text
  = chapters_of_matches (re_findall p text).
Proof.
  intros Hb Hp. induction Hb as [|q qs Hq _ IH]; cbn [try_patterns app].
  - apply more_than_one_match in Hp. now rewrite Hp.
  - destruct (negb _ && _) eqn:E; [|exact IH].
    apply more_than_one_match in E. lia.
Qed.

(** Either every pattern of a list loses, or the list splits at its first
    winner. *)
Lemma first_winner (patterns : list str) (text : str) :
  Forall (fun p => loses text p) patterns
  \/ exists before p after,
       patterns = before ++ p :: after
       /\ Forall (fun q => loses text q) before /\ wins text p.
Proof.
  induction patterns as [|q qs IH]; [left; constructor|].
  destruct (le_lt_dec (length (re_findall q text)) 1) as [Hq|Hq].
  - destruct IH as [IH|(before & p & after & -> & Hb & Hp)].
    + left. now constructor.
    + right. exists (q :: before), p, after. repeat split; auto.
  - right. exists [], q, qs. repeat split; auto.
Qed.

Lemma segment_winner (before after : list str) (p text : str) :
  chapter_patterns = before ++ p :: after ->
  Forall (fun q => loses text q) before ->
  wins text p ->
  _split_into_chapters re_findall text = chapters_of_matches (re_findall p text)
  /\ segment re_findall split_text text = chapters_of_matches (re_findall p text).
Proof.
  intros Hpat Hb Hp. unfold segment, _split_into_chapters.
  rewrite Hpat, (try_patterns_first _ _ _ _ Hb Hp).
  pose proof (length_chapters_of_matches (re_findall p text)) as Hl.
  destruct (chapters_of_matches (re_findall p text)) as [|c [|c' cs]] eqn:E;
    cbn in Hl; try lia.
  split; reflexivity.
Qed.

Lemma segment_no_winner (text : str) :
  Forall (fun p => loses text p) chapter_patterns ->
  _split_into_chapters re_findall text
  = [ {| chapter_number := 1; title := py "Complete Document"; content := strip text |} ]
  /\ segment re_findall split_text text = _split_by_chunks split_text text.
Proof.
  intros H. unfold segment, _split_into_chapters.
  rewrite (try_patterns_all_lose _ _ H). split; reflexivity.
Qed.

End SegmenterFacts.

(** C5. The boundary patterns are tried in the order of [chapter_patterns]:
    when [p] is the first pattern with more than one match in [text], the
    chapters are the matches of [p] in document order, numbered 1..N by
    position (the number is the index of the match plus one, the marker text
    is not read for it); the patterns after [p] are not consulted, as any
    other matcher that agrees on the patterns up to [p] gives the same
    chapters. *)
Theorem first_pattern_with_several_matches_wins
        (re_findall re_findall' : str -> str -> list str)
        (split_text : str -> list str)
        (before after : list str) (p text : str) :
  chapter_patterns = before ++ p :: after ->
  Forall (fun q => (length (re_findall q text) <= 1)%nat) before ->
  (1 < length (re_findall p text))%nat ->
  let matches := re_findall p text in
  let out := segment re_findall split_text text in
  out = _split_into_chapters re_findall text
  /\ length out = length matches
  /\ map chapter_number out = seq 1 (length matches)
  /\ (forall i m, matches !! i = Some m ->
       out !! i = Some {| chapter_number := i + 1;
                          title := _extract_chapter_title m;
                          content := strip m |})
  /\ ((forall q, q ∈ before ++ [p] -> re_findall' q text = re_findall q text) ->
      segment re_findall' split_text text = out).
Proof.
  intros Hpat Hb Hp matches out.
  destruct (segment_winner re_findall split_text _ _ _ _ Hpat Hb Hp) as [H1 H2].
  subst out matches. rewrite H1, H2.
  split; [reflexivity|]. split; [apply length_chapters_of_matches|].
  split; [apply numbers_chapters_of_matches|]. split.
  - intros i m Hm. unfold chapters_of_matches.
    rewrite list_lookup_imap, Hm. reflexivity.
  - intros Hagree.
    assert (Hb' : Forall (fun q => (length (re_findall' q text) <= 1)%nat) before).
    { rewrite Forall_forall in Hb |- *. intros q Hq.
      rewrite Hagree; [now apply Hb|]. apply elem_of_app. now left. }
    assert (Hp' : (1 < length (re_findall' p text))%nat).
    { rewrite Hagree; [exact Hp|]. apply elem_of_app. right. now apply list_elem_of_singleton. }
    destruct (segment_winner re_findall' split_text _ _ _ _ Hpat Hb' Hp') as [_ H3].
    rewrite H3, Hagree; [reflexivity|].
    apply elem_of_app. right. now apply list_elem_of_singleton.
Qed.

(** Decides [Forall (fun p => length (findall p text) <= 1) patterns] on a
    closed text by evaluation. *)
Ltac all_lose :=
  repeat (apply List.Forall_cons; [vm_compute; lia|]); apply List.Forall_nil.

Lemma first_pattern_with_several_matches_wins_witness :
  let text := py "Chapter 7 Intro
foo
chapter  9 Next
bar" in
  let p := py "Chapter\s+\d+.*?(?=Chapter\s+\d+|$)" in
  (1 < length (app_findall p text))%nat
  /\ length (app_segment text) = length (app_findall p text)
  /\ map chapter_number (app_segment text) = seq 1 (length (app_findall p text)).
Proof.
  intros text p.
  assert (Hpat : chapter_patterns
                 = [nth 0 chapter_patterns []] ++ p
                     :: [nth 2 chapter_patterns []; nth 3 chapter_patterns [];
                         nth 4 chapter_patterns []]) by (vm_compute; reflexivity).
  assert (Hb : Forall (fun q => (length (app_findall q text) <= 1)%nat)
                      [nth 0 chapter_patterns []]).
  { all_lose. }
  assert (Hp : (1 < length (app_findall p text))%nat).
  { vm_compute. lia. }
  destruct (first_pattern_with_several_matches_wins
              app_findall app_findall app_split_text _ _ _ text Hpat Hb Hp)
    as (_ & Hlen & Hnum & _).
  split; [exact Hp|]. split; [exact Hlen|exact Hnum].
Defined.

(** The chapters are numbered by position: markers 7 and 9 give chapters 1
    and 2. *)
Example numbers_not_read_from_markers :
  app_segment (py "Chapter 7 Intro
foo
chapter  9 Next
bar")
  = [ {| chapter_number := 1; title := py "Chapter 7 Intro";
         content := py "Chapter 7 Intro
foo" |};
      {| chapter_number := 2; title := py "chapter  9 Next";
         content := py "chapter  9 Next
bar" |} ].
Proof. vm_compute. reflexivity. Qed.

(** C2, as the code has it. For every text the segmentation returns units
    whose [chapter_number] fields are exactly 1..N in output order; the
    sequence is non-empty exactly when some pattern has more than one match
    or the text splitter returns at least one chunk. *)
Theorem segment_numbers_from_one
        (re_findall : str -> str -> list str) (split_text : str -> list str)
        (text : str) :
  let out := segment re_findall split_text text in
  map chapter_number out = seq 1 (length out)
  /\ (out <> [] <->
      Exists (fun p => (1 < length (re_findall p text))%nat) chapter_patterns
      \/ split_text text <> []).
Proof.
  intros out. subst out.
  destruct (first_winner re_findall chapter_patterns text)
    as [Hall|(before & p & after & Hpat & Hb & Hp)].
  - destruct (segment_no_winner re_findall split_text text Hall) as [_ ->].
    split.
    + rewrite numbers_split_by_chunks, length_split_by_chunks. reflexivity.
    + assert (Hlen := length_split_by_chunks split_text text).
      split.
      * intros Hne. right. intros E. apply Hne.
        rewrite E in Hlen. now apply nil_length_inv.
      * intros [Hex|Hne].
        -- exfalso. rewrite Exists_exists in Hex. destruct Hex as (q & Hq & Hw).
           rewrite Forall_forall in Hall. specialize (Hall q Hq). lia.
        -- intros E. apply Hne. rewrite E in Hlen. symmetry in Hlen.
           now apply nil_length_inv.
  - destruct (segment_winner re_findall split_text _ _ _ _ Hpat Hb Hp) as [_ ->].
    split.
    + rewrite numbers_chapters_of_matches, length_chapters_of_matches. reflexivity.
    + assert (Hlen := length_chapters_of_matches (re_findall p text)).
      split.
      * intros _. left. rewrite Hpat. apply Exists_app. right. now constructor.
      * intros _ E. rewrite E in Hlen. cbn in Hlen. lia.
Qed.

(** C2, as the specification states it, fails on the empty text: no pattern
    matches, the single whole-document chapter is replaced by the chunks of
    the splitter, and there are none. *)
Lemma segment_empty_text : app_segment (py "") = [].
Proof. vm_compute. reflexivity. Qed.

Example segment_blank_text : app_segment (py "   ") = [].
Proof. vm_compute. reflexivity. Qed.

(** C7, as the code has it. When no pattern has more than one match, the
    output is the chunk split: one unit per chunk of the text splitter, in
    order, numbered from 1 and titled [Section i], with the stripped chunk
    as content; it is one unit when the splitter returns one chunk. *)
Theorem no_boundary_gives_chunks
        (re_findall : str -> str -> list str) (split_text : str -> list str)
        (text : str) :
  Forall (fun p => (length (re_findall p text) <= 1)%nat) chapter_patterns ->
  let out := segment re_findall split_text text in
  out = _split_by_chunks split_text text
  /\ length out = length (split_text text)
  /\ map chapter_number out = seq 1 (length (split_text text))
  /\ (forall i chunk, split_text text !! i = Some chunk ->
       out !! i = Some {| chapter_number := i + 1;
                          title := py "Section " ++ str_of_nat (i + 1);
                          content := strip chunk |})
  /\ (forall chunk, split_text text = [chunk] ->
       out = [ {| chapter_number := 1; title := py "Section 1";
                  content := strip chunk |} ]).
Proof.
  intros Hall out. subst out.
  destruct (segment_no_winner re_findall split_text text Hall) as [_ ->].
  split; [reflexivity|]. split; [apply length_split_by_chunks|].
  split; [apply numbers_split_by_chunks|]. split.
  - intros i chunk Hc. unfold _split_by_chunks.
    rewrite list_lookup_imap, Hc. reflexivity.
  - intros chunk Hc. unfold _split_by_chunks. rewrite Hc. reflexivity.
Qed.

Lemma no_boundary_gives_chunks_witness :
  Forall (fun p => (length (app_findall p (py "hello world")) <= 1)%nat) chapter_patterns
  /\ app_segment (py "hello world")
     = [ {| chapter_number := 1; title := py "Section 1";
            content := py "hello world" |} ].
Proof.
  assert (H : Forall (fun p => (length (app_findall p (py "hello world")) <= 1)%nat)
                     chapter_patterns).
  { all_lose. }
  split; [exact H|].
  destruct (no_boundary_gives_chunks app_findall app_split_text _ H)
    as (_ & _ & _ & _ & Hone).
  exact (Hone (py "hello world") eq_refl).
Defined.

(** C7, as the specification states it, fails on a long text without
    boundaries: two words of 3000 letters with a space between them give two
    units, not one holding the whole document. *)
Lemma long_text_without_boundary_gives_two_units :
  let text := repeat (97 : N) 3000 ++ [32] ++ repeat (98 : N) 3000 in
  Forall (fun p => (length (app_findall p text) <= 1)%nat) chapter_patterns
  /\ app_segment text
     = [ {| chapter_number := 1; title := py "Section 1";
            content := repeat (97 : N) 3000 |};
         {| chapter_number := 2; title := py "Section 2";
            content := repeat (98 : N) 3000 |} ].
Proof.
  intros text. split.
  - all_lose.
  - vm_compute. reflexivity.
Qed.

(** *** Chapter titles *)

Lemma first_title_line_find (lines : list str) :
  first_title_line lines = find short_line (map strip lines).
Proof.
  induction lines as [|l ls IH]; [reflexivity|].
  cbn [first_title_line map find]. unfold short_line at 1.
  destruct (nonempty (strip l) && _); [reflexivity|exact IH].
Qed.

Lemma first_nonempty_line_find (lines : list str) :
  first_nonempty_line lines = truncated <$> find nonempty (map strip lines).
Proof.
  induction lines as [|l ls IH]; [reflexivity|].
  cbn [first_nonempty_line map find].
  destruct (nonempty (strip l)); [reflexivity|exact IH].
Qed.

Lemma ellipsis_length : length (py "...") = 3%nat.
Proof. vm_compute. reflexivity. Qed.

Lemma truncated_nonempty (l : str) : nonempty l = true -> truncated l <> [].
Proof.
  unfold truncated. destruct l as [|c l]; [discriminate|]. intros _.
  destruct (100 <? _); [|discriminate].
  intros E. apply (f_equal (@length N)) in E.
  rewrite length_app, ellipsis_length in E. cbn [length] in E. lia.
Qed.

Lemma truncated_length (l : str) : (length (truncated l) <= 103)%nat.
Proof.
  unfold truncated. destruct (100 <? N.of_nat (length l)) eqn:E.
  - rewrite length_app, length_take, ellipsis_length. lia.
  - apply N.ltb_ge in E. lia.
Qed.

(** C8, as the code has it. The title is the first of the first three lines
    of the stripped text (blank lines among them count) that is non-empty
    and shorter than 100 characters once stripped; failing that, the first
    non-empty line of the whole text, cut to 100 characters and followed by
    an ellipsis when it is longer than 100; and [Untitled Chapter] exactly
    when that search finds no non-empty line. A title is never empty and has
    at most 103 characters. *)
Theorem chapter_title_rule (chapter_text : str) :
  let lines := map strip (split_on LF (strip chapter_text)) in
  _extract_chapter_title chapter_text
  = match find short_line (take 3 lines) with
    | Some line => line
    | None =>
        match find nonempty lines with
        | Some line => truncated line
        | None => py "Untitled Chapter"
        end
    end
  /\ (find nonempty lines = None ->
      _extract_chapter_title chapter_text = py "Untitled Chapter")
  /\ (forall line, find nonempty lines = Some line ->
      exists l, In l lines /\ nonempty l = true
                /\ (_extract_chapter_title chapter_text = l
                    \/ _extract_chapter_title chapter_text = truncated l))
  /\ _extract_chapter_title chapter_text <> []
  /\ (length (_extract_chapter_title chapter_text) <= 103)%nat.
Proof.
  intros lines.
  assert (Heq : _extract_chapter_title chapter_text
                = match find short_line (take 3 lines) with
                  | Some line => line
                  | None =>
                      match find nonempty lines with
                      | Some line => truncated line
                      | None => py "Untitled Chapter"
                      end
                  end).
  { unfold _extract_chapter_title.
    rewrite first_title_line_find, first_nonempty_line_find.
    subst lines. rewrite firstn_map.
    destruct (find short_line _); [reflexivity|].
    destruct (find nonempty _); reflexivity. }
  split; [exact Heq|].
  assert (Hshort : forall l, find short_line (take 3 lines) = Some l ->
                             In l lines /\ nonempty l = true
                             /\ (length l < 100)%nat).
  { intros l Hl. apply find_some in Hl. destruct Hl as [Hin Hs].
    unfold short_line in Hs. apply andb_true_iff in Hs. destruct Hs as [Hn Hlt].
    apply N.ltb_lt in Hlt. split; [|split; [exact Hn|lia]].
    rewrite <- (firstn_skipn 3 lines). apply in_or_app. now left. }
  split; [|split; [|split]].
  - intros Hnone. rewrite Heq, Hnone.
    destruct (find short_line (take 3 lines)) as [l|] eqn:E; [|reflexivity].
    destruct (Hshort l eq_refl) as (Hin & Hn & _).
    exfalso. apply (find_none _ _ Hnone) in Hin. congruence.
  - intros line Hline. rewrite Heq, Hline.
    destruct (find short_line (take 3 lines)) as [l|] eqn:E.
    + destruct (Hshort l eq_refl) as (Hin & Hn & _). exists l. auto.
    + apply find_some in Hline. destruct Hline as [Hin Hn]. exists line. auto.
  - rewrite Heq.
    destruct (find short_line (take 3 lines)) as [l|] eqn:E.
    + destruct (Hshort l eq_refl) as (_ & Hn & _). destruct l; [discriminate|discriminate].
    + destruct (find nonempty lines) as [l|] eqn:E2.
      * apply find_some in E2. apply truncated_nonempty. tauto.
      * vm_compute. discriminate.
  - rewrite Heq.
    destruct (find short_line (take 3 lines)) as [l|] eqn:E.
    + destruct (Hshort l eq_refl) as (_ & _ & Hlt). lia.
    + destruct (find nonempty lines) as [l|].
      * apply truncated_length.
      * vm_compute. lia.
Qed.

(** C8, as the specification states it, fails when a blank line is among
    the first three: the long first line is followed by two blank lines, so
    the code never looks at the short fourth line, which is the second
    non-empty one. *)
Lemma blank_lines_count_among_the_first_three :
  let text := repeat (65 : N) 150 ++ [LF; LF; LF] ++ py "Short" in
  title_spec text = py "Short"
  /\ _extract_chapter_title text = repeat (65 : N) 100 ++ py "...".
Proof. intros text. split; vm_compute; reflexivity. Qed.

Example title_of_blank_text : _extract_chapter_title (py "  ") = py "Untitled Chapter".
Proof. vm_compute. reflexivity. Qed.

Example title_of_line_of_100 :
  _extract_chapter_title (repeat (65 : N) 100) = repeat (65 : N) 100.
Proof. vm_compute. reflexivity. Qed.

(** ** Template-Guided Extractor and Merge Stage *)

Lemma keeps_store_ret {A} (a : A) : keeps_store (ret a).
Proof. intros w. reflexivity. Qed.

Lemma keeps_store_raise {A} (e : exn) : keeps_store (@raise A e).
Proof. intros w. reflexivity. Qed.

Lemma keeps_store_logging name lvl msg : keeps_store (logging name lvl msg).
Proof. intros w. reflexivity. Qed.

Lemma keeps_store_bind {A B} (c : M A) (k : A -> M B) :
  keeps_store c -> (forall a, keeps_store (k a)) -> keeps_store (bind c k).
Proof.
  intros Hc Hk w. unfold bind. specialize (Hc w).
  destruct (c w) as [[a|e] w']; cbn in *; [|exact Hc].
  rewrite (Hk a w'). exact Hc.
Qed.

Lemma keeps_store_try_except {A} (c : M A) (h : exn -> M A) :
  keeps_store c -> (forall e, keeps_store (h e)) -> keeps_store (try_except c h).
Proof.
  intros Hc Hh w. unfold try_except. specialize (Hc w).
  destruct (c w) as [[a|e] w']; cbn in *; [exact Hc|].
  rewrite (Hh e w'). exact Hc.
Qed.

Create HintDb frame.
#[local] Hint Resolve keeps_store_ret keeps_store_raise keeps_store_logging : frame.

Lemma deref_store (w1 w2 : world) (refs : list nat) :
  store w1 = store w2 -> map (deref w1) refs = map (deref w2) refs.
Proof. intros Hs. apply map_ext. intros r. unfold deref. now rewrite Hs. Qed.

Section ServiceFacts.
Import LangChainService.
Variable globals : list (string * binding).
Variable llm : request -> outcome str.
Variable json_parser : str -> outcome json.

Lemma keeps_store_json_dumps : keeps_store (json_dumps globals).
Proof.
  unfold json_dumps. destruct (lookup_name _ _) as [[dumps|]|]; auto with frame.
Qed.

Lemma keeps_store_ainvoke prompt : keeps_store (ainvoke llm json_parser prompt).
Proof. intros w. unfold ainvoke. destruct (llm prompt); reflexivity. Qed.

Lemma keeps_store_extract chapter_content json_structure :
  keeps_store (extract_knowledge_from_chapter globals llm json_parser
                                              chapter_content json_structure).
Proof.
  unfold extract_knowledge_from_chapter, logger.
  apply keeps_store_try_except.
  - repeat (apply keeps_store_bind; [|intros ?]);
      auto using keeps_store_json_dumps, keeps_store_ainvoke with frame.
  - intros e. destruct (exn_langchain e);
      apply keeps_store_bind; auto with frame.
Qed.

Lemma keeps_store_merge extracted_points target_structure :
  keeps_store (merge_knowledge_points globals llm json_parser
                                      extracted_points target_structure).
Proof.
  unfold merge_knowledge_points, logger.
  apply keeps_store_try_except.
  - repeat (apply keeps_store_bind; [|intros ?]);
      auto using keeps_store_json_dumps, keeps_store_ainvoke with frame.
    intros w. reflexivity.
  - intros e. apply keeps_store_bind; auto with frame.
Qed.

(** What a merge call does depends on the store only: the outcome, the
    records it logs and the request it sends, at most one. *)
Lemma merge_shape extracted_points target_structure (w : world) :
  exists o records requests,
    (length requests <= 1)%nat
    /\ forall w', store w' = store w ->
         merge_knowledge_points globals llm json_parser
                                extracted_points target_structure w'
         = (o, {| store := store w';
                  log := log w' ++ records;
                  sent := sent w' ++ requests |}).
Proof.
  destruct (lookup_name "json" globals) as [[dumps|]|] eqn:Hl.
  - pose (req := merge_prompt (dumps (JList (map (deref w) extracted_points)))
                              (dumps target_structure)).
    assert (Hrun : forall w', store w' = store w ->
              merge_knowledge_points globals llm json_parser
                                     extracted_points target_structure w'
              = try_except
                  (logger INFO (py "Starting knowledge points merge") ;;;
                   result <- ainvoke llm json_parser req ;;
                   logger INFO (py "Successfully merged knowledge points") ;;;
                   ret result)
                  (fun e => logger ERROR (py "Error merging knowledge points: "
                                          ++ exn_msg e) ;;; raise e) w').
    { intros w' Hs. unfold merge_knowledge_points, json_dumps. rewrite Hl.
      unfold try_except, bind, logger, logging, ret. cbn.
      erewrite (deref_store _ w) by (cbn; exact Hs). reflexivity. }
    destruct (llm req) as [text|e] eqn:El; [destruct (json_parser text) as [v|e] eqn:Ep|].
    + eexists (Return v), _, [req]. split; [cbn; lia|]. intros w' Hs.
      rewrite (Hrun w' Hs).
      unfold try_except, bind, logger, logging, ret, raise, ainvoke.
      rewrite El, Ep. cbn. rewrite <- !app_assoc. reflexivity.
    + eexists (Raise e), _, [req]. split; [cbn; lia|]. intros w' Hs.
      rewrite (Hrun w' Hs).
      unfold try_except, bind, logger, logging, ret, raise, ainvoke.
      rewrite El, Ep. cbn. rewrite <- !app_assoc. reflexivity.
    + eexists (Raise e), _, [req]. split; [cbn; lia|]. intros w' Hs.
      rewrite (Hrun w' Hs).
      unfold try_except, bind, logger, logging, ret, raise, ainvoke.
      rewrite El. cbn. rewrite <- !app_assoc. reflexivity.
  - eexists _, _, []. split; [cbn; lia|]. intros w' Hs.
    unfold merge_knowledge_points, json_dumps. rewrite Hl.
    unfold try_except, bind, logger, logging, ret, raise. cbn.
    rewrite (app_nil_r (sent w')), <- !app_assoc. reflexivity.
  - eexists _, _, []. split; [cbn; lia|]. intros w' Hs.
    unfold merge_knowledge_points, json_dumps. rewrite Hl.
    unfold try_except, bind, logger, logging, ret, raise. cbn.
    rewrite (app_nil_r (sent w')), <- !app_assoc. reflexivity.
Qed.

End ServiceFacts.

(** C4. On the module as it is written the extraction sends no request:
    [json] is not among the globals of [services/langchain_service.py], so
    evaluating [json.dumps] raises [NameError] before the inputs of the chain
    exist; the handler logs it and raises it again, whatever the chapter,
    the template, the service and the parser are. *)
Theorem extract_raises_before_any_request
        (llm : request -> outcome str) (json_parser : str -> outcome json)
        (chapter_content : str) (json_structure : json) (w : world) :
  LangChainService.extract_knowledge_from_chapter
    LangChainService.module_globals llm json_parser chapter_content json_structure w
  = (Raise {| exn_class := "NameError"; exn_langchain := false;
              exn_msg := py "name 'json' is not defined" |},
     {| store := store w;
        log := log w
               ++ [ {| log_name := "services.langchain_service"; log_level := INFO;
                       log_msg := py "Starting knowledge extraction with LangChain" |};
                    {| log_name := "services.langchain_service"; log_level := ERROR;
                       log_msg := py "Unexpected error in knowledge extraction: "
                                  ++ py "name 'json' is not defined" |} ];
        sent := sent w |}).
Proof.
  unfold LangChainService.extract_knowledge_from_chapter, LangChainService.json_dumps,
    try_except, bind, LangChainService.logger, logging, raise.
  cbn. rewrite <- app_assoc. reflexivity.
Qed.

(** X9. With [import json] in the module the extraction does what the
    specification says: one request, carrying the serialized template, and
    the outcome is the transport failure or what the parser makes of the
    reply. *)
Lemma extract_with_json_sends_one_request
      (dumps : json -> str) (llm : request -> outcome str)
      (json_parser : str -> outcome json)
      (chapter_content : str) (json_structure : json) (w : world) :
  let req := LangChainService.knowledge_prompt chapter_content (dumps json_structure) in
  let res := LangChainService.extract_knowledge_from_chapter
               (LangChainService.with_json dumps) llm json_parser
               chapter_content json_structure w in
  sent (snd res) = sent w ++ [req]
  /\ store (snd res) = store w
  /\ fst res = match llm req with
               | Return text => json_parser text
               | Raise e => Raise e
               end.
Proof.
  intros req res. subst res.
  unfold LangChainService.extract_knowledge_from_chapter, LangChainService.json_dumps,
    LangChainService.ainvoke, try_except, bind, LangChainService.logger, logging,
    ret, raise.
  cbn. fold req.
  destruct (llm req) as [text|e]; [destruct (json_parser text) as [v|e]|];
    cbn; try destruct (exn_langchain e); cbn; auto.
Qed.

Example extract_fails_on_a_sample :
  fst (LangChainService.extract_knowledge_from_chapter
         LangChainService.module_globals
         (fun _ => Return (py "{}")) (fun _ => Return (JDict []))
         (py "Cells divide.") (JDict [(py "topics", JList [])])
         {| store := []; log := []; sent := [] |})
  = Raise {| exn_class := "NameError"; exn_langchain := false;
             exn_msg := py "name 'json' is not defined" |}.
Proof. vm_compute. reflexivity. Qed.

(** ** Concurrency-Bounded Fan-Out Orchestrator *)

Import KnowledgeExtractor.

(** On the module as it is written every chapter fails: the orchestrator on
    [LangChainService] sees the [NameError] of each extraction. *)
Lemma real_service_fails_every_chapter
      (llm : request -> outcome str) (json_parser : str -> outcome json)
      (ks : json) (chapter : ChapterUnit) :
  extraction_fails
    (init (real_service LangChainService.module_globals llm json_parser)) ks chapter
  = true.
Proof. reflexivity. Qed.

(** A task run on its own is its two halves in sequence. *)
Lemma process_chapter_halves (self : t) (ks : json) (chapter : ChapterUnit) (w : world) :
  _process_chapter_with_semaphore self ks chapter w
  = process_chapter_resume self ks chapter (snd (process_chapter_enter chapter w)).
Proof. reflexivity. Qed.

Lemma count_app {A} (f : A -> bool) (l1 l2 : list A) :
  count f (l1 ++ l2) = (count f l1 + count f l2)%nat.
Proof. induction l1 as [|x l1 IH]; cbn; [reflexivity|]. rewrite IH. destruct (f x); lia. Qed.

Lemma count_insert {A} (f : A -> bool) (l : list A) (i : nat) (x y : A) :
  l !! i = Some x ->
  (count f (<[i := y]> l) + (if f x then 1 else 0)
   = count f l + (if f y then 1 else 0))%nat.
Proof.
  revert i. induction l as [|z l IH]; intros [|i] H; try discriminate.
  - injection H as ->. cbn. destruct (f x), (f y); lia.
  - change (<[S i := y]> (z :: l)) with (z :: <[i := y]> l).
    change ((z :: l) !! S i) with (l !! i) in H.
    cbn [count]. specialize (IH i H). revert IH.
    destruct (f x), (f y), (f z); lia.
Qed.

Lemma count_positive {A} (f : A -> bool) (l : list A) :
  (0 < count f l)%nat -> exists i x, l !! i = Some x /\ f x = true.
Proof.
  induction l as [|z l IH]; cbn; [lia|].
  destruct (f z) eqn:E.
  - intros _. exists 0%nat, z. auto.
  - intros H. destruct (IH H) as (i & x & Hi & Hx). exists (S i), x. auto.
Qed.

Lemma count_pointwise {A B} (f : A -> bool) (g : B -> bool) (l : list A) (k : list B) :
  Forall2 (fun x y => f x = g y) l k -> count f l = count g k.
Proof. induction 1 as [|x y l k H _ IH]; cbn; [reflexivity|]. now rewrite H, IH. Qed.

Lemma count_le_length {A} (f : A -> bool) (l : list A) : (count f l <= length l)%nat.
Proof. induction l as [|x l IH]; cbn; [lia|]. destruct (f x); lia. Qed.

Lemma all_done (l : list phase) :
  count is_waiting l = 0%nat -> count is_inflight l = 0%nat ->
  exists results, mapM result_of l = Some results.
Proof.
  induction l as [|p l IH]; cbn; [eauto|].
  destruct p as [| |r]; cbn; try lia.
  intros Hw Hf. destruct (IH Hw Hf) as [rs Hrs]. exists (r :: rs).
  rewrite Hrs. reflexivity.
Qed.

Lemma not_a_failure_record (lvl : level) (rest : str) :
  is_failure_record {| log_name := "services.knowledge_extractor"; log_level := lvl;
                       log_msg := py "Error processing chapter " ++ rest |} = false
  /\ is_failure_record {| log_name := "services.knowledge_extractor"; log_level := lvl;
                          log_msg := py "Processing chapter: " ++ rest |} = false
  /\ is_failure_record {| log_name := "services.knowledge_extractor"; log_level := lvl;
                          log_msg := py "Completed processing chapter: " ++ rest |} = false
  /\ is_failure_record {| log_name := "services.knowledge_extractor"; log_level := lvl;
                          log_msg := py "Starting knowledge extraction for " ++ rest |} = false
  /\ is_failure_record {| log_name := "services.knowledge_extractor"; log_level := lvl;
                          log_msg := py "Successfully processed " ++ rest |} = false.
Proof. destruct lvl; repeat split; vm_compute; reflexivity. Qed.

Lemma a_failure_record (rest : str) :
  is_failure_record {| log_name := "services.knowledge_extractor"; log_level := ERROR;
                       log_msg := py "Failed to process chapter " ++ rest |} = true.
Proof. vm_compute. reflexivity. Qed.

Lemma failure_logs_app (l1 l2 : list log_record) :
  failure_logs (l1 ++ l2) = (failure_logs l1 + failure_logs l2)%nat.
Proof. apply count_app. Qed.

Lemma failure_logs_snoc (l : list log_record) (r : log_record) :
  failure_logs (l ++ [r])
  = (failure_logs l + (if is_failure_record r then 1 else 0))%nat.
Proof.
  unfold failure_logs. rewrite count_app. cbn. destruct (is_failure_record r); lia.
Qed.

Lemma insert_last {A} (l : list A) (v x : A) :
  <[length l := x]> (l ++ [v]) = l ++ [x].
Proof.
  rewrite insert_app_r_alt by lia. now rewrite Nat.sub_diag.
Qed.

Lemma lookup_last {A} (l : list A) (v : A) : (l ++ [v]) !! length l = Some v.
Proof. now apply list_lookup_middle. Qed.

Section RunFacts.
Variable self : t.
Variable chapters : list ChapterUnit.
Variable ks : json.

Local Abbreviation K := (max_concurrent_requests self).
Local Abbreviation stp := (step self chapters ks).

(** What the second half of a task does to the world, in terms of the
    outcome of its chapter: one record that is not a failure record, and
    one new object when the extraction returned. *)
Lemma resume_effect (chapter : ChapterUnit) (w : world) :
  exists extra rec,
    snd (process_chapter_resume self ks chapter w)
    = {| store := store w ++ extra; log := log w ++ [rec]; sent := sent w |}
    /\ is_failure_record rec = false
    /\ match fst (process_chapter_resume self ks chapter w),
             chapter_outcome self ks chapter with
       | Return ref, Return obj => ref = length (store w) /\ extra = [obj]
       | Raise e, Raise e' => e = e'
       | _, _ => False
       end.
Proof.
  unfold process_chapter_resume, chapter_outcome, try_except, bind, lift, alloc,
    setitem, KnowledgeExtractor.logger, logging, ret, raise, deref.
  destruct (svc_extract _ _ _) as [v|e]; simpl.
  - rewrite lookup_last. simpl.
    destruct (setitem_result _ _ v) as [obj|e]; simpl.
    + rewrite insert_last. eexists [obj], _. split; [reflexivity|].
      split; [apply (not_a_failure_record INFO)|]. auto.
    + eexists [v], _. split; [reflexivity|].
      split; [apply (not_a_failure_record ERROR)|]. reflexivity.
  - eexists [], _. rewrite app_nil_r. split; [reflexivity|].
    split; [apply (not_a_failure_record ERROR)|]. reflexivity.
Qed.

Lemma finished_as_mono (w0 w w' : world) (chapter : ChapterUnit) (r : outcome nat) :
  (exists extra, store w' = store w ++ extra) ->
  finished_as self ks w0 w chapter r -> finished_as self ks w0 w' chapter r.
Proof.
  intros [extra Hs]. unfold finished_as.
  destruct r as [ref|e], (chapter_outcome self ks chapter) as [obj|e']; auto.
  intros [H1 H2]. split; [|exact H2]. rewrite Hs. now apply lookup_app_l_Some.
Qed.

Lemma finished_ref_allocated (w0 w : world) (chapter : ChapterUnit) (ref : nat) :
  finished_as self ks w0 w chapter (Return ref) -> (ref < length (store w))%nat.
Proof.
  unfold finished_as. destruct (chapter_outcome self ks chapter); [|tauto].
  intros [H _]. now apply lookup_lt_Some in H.
Qed.

Lemma initial_tasks (w : world) (i : nat) (p : phase) :
  tasks (initial self chapters w) !! i = Some p -> p = Waiting.
Proof.
  unfold initial. simpl. revert i. induction chapters as [|c cs IH]; intros [|i] H;
    try discriminate.
  - now injection H.
  - exact (IH i H).
Qed.

Lemma initial_counts (w : world) :
  count is_inflight (tasks (initial self chapters w)) = 0%nat
  /\ count is_waiting (tasks (initial self chapters w)) = length chapters.
Proof.
  unfold initial. simpl. induction chapters as [|c cs [IH1 IH2]]; [auto|].
  simpl. rewrite IH1, IH2. auto.
Qed.

Lemma initial_consistent (w0 : world) :
  consistent self chapters ks w0 (initial self chapters w0).
Proof.
  destruct (initial_counts w0) as [Hf _].
  repeat split.
  - unfold initial. simpl. apply length_map.
  - rewrite Hf. unfold initial. simpl. lia.
  - exists []. unfold initial. simpl. now rewrite app_nil_r.
  - intros i r H. apply initial_tasks in H. discriminate.
  - intros i j ref H. apply initial_tasks in H. discriminate.
Qed.

Lemma step_consistent (w0 : world) (cfg cfg' : config) :
  consistent self chapters ks w0 cfg -> stp cfg cfg' ->
  consistent self chapters ks w0 cfg'.
Proof.
  intros (Hlen & Hsem & [new Hstore] & Hsent & Hlog & Hdone & Hinj) Hstep.
  destruct Hstep as [cfg i chapter Hi Hc Hpos | cfg i chapter Hi Hc].
  - (* a waiting task enters *)
    pose proof (count_insert is_inflight _ i _ InFlight Hi) as Hcount.
    simpl in Hcount.
    assert (Hold : forall j r, <[i := InFlight]> (tasks cfg) !! j = Some (Done r) ->
                               tasks cfg !! j = Some (Done r)).
    { intros j r H. apply list_lookup_insert_Some in H.
      destruct H as [(_ & H & _)|(_ & H)]; [discriminate|exact H]. }
    unfold process_chapter_enter, KnowledgeExtractor.logger, logging.
    repeat split; cbn [cw store log sent tasks sem fst snd].
    + now rewrite length_insert.
    + lia.
    + eauto.
    + exact Hsent.
    + rewrite failure_logs_snoc.
      destruct (not_a_failure_record INFO (title chapter)) as (_ & -> & _). lia.
    + intros j r H. destruct (Hdone j r (Hold j r H)) as (c & Hcj & Hfin).
      exists c. split; [exact Hcj|].
      eapply finished_as_mono; [|exact Hfin]. exists []. cbn [store fst snd]. now rewrite app_nil_r.
    + intros j k ref Hj Hk. eauto.
  - (* a task in flight finishes *)
    pose proof (count_insert is_inflight _ i _
                  (Done (fst (process_chapter_resume self ks chapter (cw cfg)))) Hi)
      as Hcount.
    simpl in Hcount.
    destruct (resume_effect chapter (cw cfg)) as (extra & rec & Hw & Hrec & Hres).
    set (r := fst (process_chapter_resume self ks chapter (cw cfg))) in *.
    assert (Hnew : finished_as self ks w0
                     (snd (process_chapter_resume self ks chapter (cw cfg))) chapter r).
    { unfold finished_as. rewrite Hw; cbn [store log sent fst snd].
      destruct r as [ref|e], (chapter_outcome self ks chapter) as [obj|e']; auto.
      destruct Hres as [-> ->]. split; [apply lookup_last|].
      rewrite Hstore, length_app. lia. }
    assert (Hmono : exists extra0,
               store (snd (process_chapter_resume self ks chapter (cw cfg)))
               = store (cw cfg) ++ extra0).
    { rewrite Hw; cbn [store log sent fst snd]. eauto. }
    assert (Hfresh : forall ref, r = Return ref -> ref = length (store (cw cfg))).
    { intros ref E. rewrite E in Hres.
      destruct (chapter_outcome self ks chapter); tauto. }
    assert (Hcases : forall j r', <[i := Done r]> (tasks cfg) !! j = Some (Done r') ->
               (j = i /\ r' = r) \/ (j <> i /\ tasks cfg !! j = Some (Done r'))).
    { intros j r' H. apply list_lookup_insert_Some in H.
      destruct H as [(-> & H & _)|(Hne & H)].
      - left. split; [reflexivity|]. now injection H.
      - right. split; [congruence|exact H]. }
    assert (Hlt : forall j ref, tasks cfg !! j = Some (Done (Return ref)) ->
                                (ref < length (store (cw cfg)))%nat).
    { intros j ref H. destruct (Hdone j _ H) as (c & _ & Hfin).
      eapply finished_ref_allocated; eassumption. }
    repeat split; cbn [cw store log sent tasks sem fst snd].
    + now rewrite length_insert.
    + lia.
    + rewrite Hw; cbn [store log sent fst snd]. rewrite Hstore, <- app_assoc. eauto.
    + rewrite Hw; cbn [store log sent fst snd]. exact Hsent.
    + rewrite Hw; cbn [store log sent fst snd]. rewrite failure_logs_snoc, Hrec. lia.
    + intros j r' H. destruct (Hcases j r' H) as [[-> ->]|[Hne Hj]].
      * exists chapter. split; [exact Hc|exact Hnew].
      * destruct (Hdone j r' Hj) as (c & Hcj & Hfin).
        exists c. split; [exact Hcj|]. eapply finished_as_mono; eassumption.
    + intros j k ref Hj Hk.
      destruct (Hcases j _ Hj) as [[-> Ej]|[Hnj Hj']],
               (Hcases k _ Hk) as [[-> Ek]|[Hnk Hk']]; auto.
      * symmetry in Ej. apply Hfresh in Ej. apply Hlt in Hk'. lia.
      * symmetry in Ek. apply Hfresh in Ek. apply Hlt in Hj'. lia.
      * eauto.
Qed.

Lemma reachable_consistent (w0 : world) (cfg : config) :
  rtc stp (initial self chapters w0) cfg -> consistent self chapters ks w0 cfg.
Proof.
  intros H.
  apply (rtc_ind_r (R := stp) (fun c => consistent self chapters ks w0 c)
                   (initial self chapters w0)); [ | |exact H].
  - apply initial_consistent.
  - intros y z _ Hyz IH. eapply step_consistent; eassumption.
Qed.

End RunFacts.

Section Completion.
Variable self : t.
Variable chapters : list ChapterUnit.
Variable ks : json.

Local Abbreviation K := (max_concurrent_requests self).
Local Abbreviation stp := (step self chapters ks).

(** Every step is one of the [remaining] ones. *)
Lemma step_remaining (cfg cfg' : config) :
  stp cfg cfg' -> remaining cfg = S (remaining cfg').
Proof.
  intros [c i chapter Hi Hc Hpos | c i chapter Hi Hc]; unfold remaining;
    cbn [tasks].
  - pose proof (count_insert is_waiting _ i _ InFlight Hi) as Hw.
    pose proof (count_insert is_inflight _ i _ InFlight Hi) as Hf.
    cbn [is_waiting is_inflight] in Hw, Hf. lia.
  - set (r := fst _).
    pose proof (count_insert is_waiting _ i _ (Done r) Hi) as Hw.
    pose proof (count_insert is_inflight _ i _ (Done r) Hi) as Hf.
    cbn [is_waiting is_inflight] in Hw, Hf. lia.
Qed.

(** No deadlock: while a task is not done and the limit is positive, a
    step can be taken. *)
Lemma some_step (w0 : world) (cfg : config) :
  consistent self chapters ks w0 cfg -> (0 < K)%nat -> (0 < remaining cfg)%nat ->
  exists cfg', stp cfg cfg'.
Proof.
  intros (Hlen & Hsem & _) HK Hrem. unfold remaining in Hrem.
  assert (Hchap : forall i p, tasks cfg !! i = Some p ->
                              exists chapter, chapters !! i = Some chapter).
  { intros i p H. apply lookup_lt_Some in H. rewrite Hlen in H.
    apply lookup_lt_is_Some_2 in H. destruct H as [c Hc]. eauto. }
  destruct (Nat.eq_dec (count is_inflight (tasks cfg)) 0%nat) as [Hz|Hnz].
  - assert (Hw : (0 < count is_waiting (tasks cfg))%nat) by lia.
    apply count_positive in Hw. destruct Hw as (i & p & Hi & Hp).
    destruct p; try discriminate.
    destruct (Hchap i _ Hi) as [c Hc].
    eexists. eapply step_acquire; [exact Hi|exact Hc|lia].
  - assert (Hf : (0 < count is_inflight (tasks cfg))%nat) by lia.
    apply count_positive in Hf. destruct Hf as (i & p & Hi & Hp).
    destruct p; try discriminate.
    destruct (Hchap i _ Hi) as [c Hc].
    eexists. eapply step_release; [exact Hi|exact Hc].
Qed.

(** The fan-out ends: from every configuration of a run, with a positive
    limit, a configuration where [gather] has its results is reached. *)
Lemma run_completes (w0 : world) (cfg : config) :
  consistent self chapters ks w0 cfg -> (0 < K)%nat ->
  exists cfg' results, rtc stp cfg cfg' /\ gather cfg' = Some results.
Proof.
  remember (remaining cfg) as n eqn:Hn. revert cfg Hn.
  induction n as [|n IH]; intros cfg Hn Hcons HK.
  - unfold remaining in Hn.
    destruct (all_done (tasks cfg)) as [results Hres]; [lia|lia|].
    exists cfg, results. split; [apply rtc_refl|exact Hres].
  - destruct (some_step w0 cfg Hcons HK) as [cfg1 Hstep]; [lia|].
    pose proof (step_remaining _ _ Hstep) as Hrem.
    destruct (IH cfg1) as (cfg' & results & Hrtc & Hres);
      [lia|eapply step_consistent; eassumption|exact HK|].
    exists cfg', results. split; [eapply rtc_l; eassumption|exact Hres].
Qed.

Lemma fire_step (i : nat) (cfg : config) :
  fire self chapters ks i cfg = cfg \/ stp cfg (fire self chapters ks i cfg).
Proof.
  unfold fire.
  destruct (tasks cfg !! i) as [[| |r]|] eqn:Hi; auto;
    destruct (chapters !! i) as [c|] eqn:Hc; auto.
  - destruct (0 <? sem cfg)%nat eqn:Hs; auto.
    right. apply Nat.ltb_lt in Hs. now apply step_acquire.
  - right. now apply step_release.
Qed.

Lemma run_schedule_rtc (schedule : list nat) (cfg : config) :
  rtc stp cfg (run_schedule self chapters ks schedule cfg).
Proof.
  revert cfg. induction schedule as [|i s IH]; intros cfg; [apply rtc_refl|].
  unfold run_schedule. cbn [foldl].
  destruct (fire_step i cfg) as [E|Hstep].
  - rewrite E. apply IH.
  - eapply rtc_l; [exact Hstep|apply IH].
Qed.

(** The results of [gather] are those of the tasks, position by
    position. *)
Lemma gather_lookup (cfg : config) (results : list (outcome nat)) :
  gather cfg = Some results ->
  length results = length (tasks cfg)
  /\ forall i r, results !! i = Some r <-> tasks cfg !! i = Some (Done r).
Proof.
  unfold gather. intros H. apply mapM_Some in H.
  split; [symmetry; eapply Forall2_length; exact H|].
  intros i r. split; intros Hi.
  - destruct (Forall2_lookup_r _ _ _ _ _ H Hi) as (p & Hp & Hpr).
    destruct p; try discriminate. cbn in Hpr. now injection Hpr as ->.
  - destruct (Forall2_lookup_l _ _ _ _ _ H Hi) as (r' & Hr' & Hpr).
    cbn in Hpr. now injection Hpr as ->.
Qed.

End Completion.

(** *** After [gather] *)

Lemma length_successes (results : list (outcome nat)) :
  (length (successes results) + count is_raise results)%nat = length results.
Proof.
  induction results as [|[r|e] rs IH]; [reflexivity| |].
  - change (successes (Return r :: rs)) with (r :: successes rs).
    cbn [length count is_raise]. lia.
  - change (successes (Raise e :: rs)) with (successes rs).
    cbn [length count is_raise]. lia.
Qed.

Lemma filter_results_spec (i : nat) (results : list (outcome nat)) (acc : list nat)
      (w : world) :
  exists records,
    failure_logs records = count is_raise results
    /\ filter_results i results acc w
       = (Return (acc ++ successes results),
          {| store := store w; log := log w ++ records; sent := sent w |}).
Proof.
  revert i acc w. induction results as [|[r|e] rs IH]; intros i acc w.
  - exists []. split; [reflexivity|]. cbn. rewrite !app_nil_r. now destruct w.
  - destruct (IH (S i) (acc ++ [r]) w) as (records & Hcount & Hrun).
    exists records. split; [exact Hcount|].
    cbn [filter_results]. rewrite Hrun.
    change (successes (Return r :: rs)) with (r :: successes rs).
    rewrite <- app_assoc. reflexivity.
  - cbn [filter_results]. unfold bind, KnowledgeExtractor.logger, logging.
    cbn [fst snd].
    match goal with
    | |- context [filter_results _ _ _ ?w1] =>
        destruct (IH (S i) acc w1) as (records & Hcount & Hrun)
    end.
    eexists (_ :: records). split.
    + unfold failure_logs in *. cbn [count]. rewrite a_failure_record.
      cbn [is_raise count]. unfold failure_logs in Hcount. rewrite Hcount. reflexivity.
    + rewrite Hrun. cbn [store log sent]. rewrite <- app_assoc. reflexivity.
Qed.

(** [collect] leaves the store as it is, logs one failure record per failed
    task, and raises exactly when no task succeeded. *)
Lemma collect_spec (results : list (outcome nat)) (w : world) :
  exists records,
    failure_logs records = count is_raise results
    /\ snd (collect results w)
       = {| store := store w; log := log w ++ records; sent := sent w |}
    /\ fst (collect results w)
       = match successes results with
         | [] => Raise pipeline_failure
         | successful_results => Return successful_results
         end.
Proof.
  unfold collect, bind.
  destruct (filter_results_spec 0%nat results [] w) as (records & Hcount & Hrun).
  rewrite Hrun. cbn [app].
  destruct (successes results) as [|r rs] eqn:E.
  - exists records. auto.
  - eexists (records ++ [_]). split; [|split].
    + rewrite failure_logs_snoc.
      destruct (not_a_failure_record INFO
                  (str_of_nat (length (r :: rs)) ++ py " chapters"))
        as (_ & _ & _ & _ & ->). lia.
    + unfold KnowledgeExtractor.logger, logging, ret. cbn [fst snd store log sent].
      rewrite <- app_assoc. reflexivity.
    + reflexivity.
Qed.

Lemma dict_get_setitem (k : str) (v : json) (d : list (str * json)) :
  dict_get k (dict_setitem k v d) = Some v.
Proof.
  induction d as [|[k' v'] d IH]; cbn [dict_setitem dict_get].
  - now rewrite bool_decide_eq_true_2.
  - destruct (bool_decide (k' = k)) eqn:E; cbn [dict_get]; rewrite E; auto.
Qed.

Lemma dict_get_setitem_other (k k0 : str) (v : json) (d : list (str * json)) :
  k0 <> k -> dict_get k0 (dict_setitem k v d) = dict_get k0 d.
Proof.
  intros Hne. induction d as [|[k' v'] d IH]; cbn [dict_setitem dict_get].
  - rewrite bool_decide_eq_false_2; [reflexivity|congruence].
  - destruct (bool_decide (k' = k)) eqn:E; cbn [dict_get].
    + apply bool_decide_eq_true in E. subst k'.
      rewrite bool_decide_eq_false_2; [reflexivity|congruence].
    + now rewrite IH.
Qed.

Lemma gathered_not_in_flight (cfg : config) (results : list (outcome nat)) :
  gather cfg = Some results -> count is_inflight (tasks cfg) = 0%nat.
Proof.
  unfold gather. intros H. apply mapM_Some in H.
  induction H as [|p r l k Hp _ IH]; [reflexivity|].
  destruct p; try discriminate. exact IH.
Qed.

Lemma success_in_output (results : list (outcome nat)) (i ref : nat) :
  results !! i = Some (Return ref) -> ref ∈ successes results.
Proof.
  intros H. unfold successes. apply list_elem_of_omap.
  exists (Return ref). split; [|reflexivity]. eapply list_elem_of_lookup_2; exact H.
Qed.

(** C3. In every configuration a run passes through, the calls in flight
    and the value of the semaphore add up to the limit, so at most
    [max_concurrent_requests] calls are in flight; a task gets in flight
    only by taking a unit of a positive semaphore, it finishes only from in
    flight and gives the unit back whether it ends with a result or with an
    exception, so that all units are back when [gather] returns. The limit
    of a new [KnowledgeExtractor] is 3. *)
Theorem in_flight_never_exceeds_limit
        (self : t) (chapters : list ChapterUnit) (ks : json) (w : world)
        (cfg : config) :
  rtc (step self chapters ks) (initial self chapters w) cfg ->
  (count is_inflight (tasks cfg) <= max_concurrent_requests self)%nat
  /\ (sem cfg + count is_inflight (tasks cfg))%nat = max_concurrent_requests self
  /\ (forall results, gather cfg = Some results ->
      sem cfg = max_concurrent_requests self)
  /\ (forall cfg' i, step self chapters ks cfg cfg' ->
      tasks cfg !! i = Some Waiting -> tasks cfg' !! i <> Some Waiting ->
      tasks cfg' !! i = Some InFlight
      /\ (0 < sem cfg)%nat /\ sem cfg' = (sem cfg - 1)%nat)
  /\ (forall cfg' i r, step self chapters ks cfg cfg' ->
      tasks cfg' !! i = Some (Done r) ->
      tasks cfg !! i = Some (Done r)
      \/ (tasks cfg !! i = Some InFlight /\ sem cfg' = (sem cfg + 1)%nat))
  /\ max_concurrent_requests (init (langchain_service self)) = 3%nat.
Proof.
  intros Hrun.
  destruct (reachable_consistent self chapters ks w cfg Hrun) as (Hlen & Hsem & _).
  split; [lia|]. split; [exact Hsem|]. split; [|split; [|split; [|reflexivity]]].
  - intros results Hres. apply gathered_not_in_flight in Hres. lia.
  - intros cfg' i Hstep Hw Hnw.
    destruct Hstep as [c j chapter Hj Hc Hpos | c j chapter Hj Hc]; cbn [tasks sem] in *.
    + destruct (Nat.eq_dec j i) as [->|Hne].
      * rewrite list_lookup_insert_eq by (eapply lookup_lt_Some; exact Hw). auto.
      * rewrite list_lookup_insert_ne in Hnw by exact Hne. contradiction.
    + destruct (Nat.eq_dec j i) as [->|Hne].
      * congruence.
      * rewrite list_lookup_insert_ne in Hnw by exact Hne. contradiction.
  - intros cfg' i r Hstep Hd.
    destruct Hstep as [c j chapter Hj Hc Hpos | c j chapter Hj Hc]; cbn [tasks sem] in *.
    + apply list_lookup_insert_Some in Hd.
      destruct Hd as [(_ & Hd & _)|(_ & Hd)]; [discriminate|auto].
    + apply list_lookup_insert_Some in Hd.
      destruct Hd as [(<- & Hd & _)|(_ & Hd)]; auto.
Qed.

Lemma in_flight_never_exceeds_limit_witness :
  rtc (step Sample.narrow Sample.chapters Sample.template)
      (initial Sample.narrow Sample.chapters Sample.started) Sample.midway
  /\ tasks Sample.midway = [InFlight; InFlight; Waiting]
  /\ (count is_inflight (tasks Sample.midway) <= 2)%nat.
Proof.
  assert (H : rtc (step Sample.narrow Sample.chapters Sample.template)
                  (initial Sample.narrow Sample.chapters Sample.started)
                  Sample.midway) by apply run_schedule_rtc.
  split; [exact H|]. split; [vm_compute; reflexivity|].
  exact (proj1 (in_flight_never_exceeds_limit _ _ _ _ _ H)).
Defined.

Section Results.
Variable self : t.
Variable chapters : list ChapterUnit.
Variable ks : json.
Variable w : world.
Variable cfg : config.
Variable results : list (outcome nat).
Hypothesis Hrun : rtc (step self chapters ks) (initial self chapters w) cfg.
Hypothesis Hres : gather cfg = Some results.

(** When [gather] returns, there is one result per chapter, and it is what
    the call for that chapter ended with. *)
Lemma result_of_chapter (i : nat) (chapter : ChapterUnit) :
  chapters !! i = Some chapter ->
  exists r, results !! i = Some r
            /\ finished_as self ks w (cw cfg) chapter r.
Proof.
  intros Hc.
  destruct (reachable_consistent self chapters ks w cfg Hrun)
    as (Hlen & _ & _ & _ & _ & Hdone & _).
  destruct (gather_lookup cfg results Hres) as [Hl Hlook].
  assert (Hi : (i < length results)%nat).
  { rewrite Hl, Hlen. eapply lookup_lt_Some; exact Hc. }
  apply lookup_lt_is_Some_2 in Hi. destruct Hi as [r Hr].
  exists r. split; [exact Hr|].
  apply Hlook in Hr. destruct (Hdone i r Hr) as (c & Hc' & Hfin).
  congruence.
Qed.

Lemma length_results : length results = length chapters.
Proof.
  destruct (reachable_consistent self chapters ks w cfg Hrun) as (Hlen & _).
  destruct (gather_lookup cfg results Hres) as [Hl _]. congruence.
Qed.

Lemma results_distinct (i j ref : nat) :
  results !! i = Some (Return ref) -> results !! j = Some (Return ref) -> i = j.
Proof.
  destruct (reachable_consistent self chapters ks w cfg Hrun)
    as (_ & _ & _ & _ & _ & _ & Hinj).
  destruct (gather_lookup cfg results Hres) as [_ Hlook].
  intros Hi Hj. apply Hlook in Hi, Hj. eauto.
Qed.

End Results.

(** C6. When [gather] returns, every chapter whose extraction returned a
    JSON object [d] has a result in the store that is [d] with the record
    [{"chapter_number": .., "title": ..}] of that very chapter under the key
    [_chapter_info] (the other keys as the extraction left them); the
    reference of that result is in the output sequence, which is built after
    the record was inserted and leaves the store as it is, and no other
    chapter shares the object. *)
Theorem result_carries_chapter_info
        (self : t) (chapters : list ChapterUnit) (ks : json) (w : world)
        (cfg : config) (results : list (outcome nat))
        (i : nat) (chapter : ChapterUnit) (d : list (str * json)) :
  rtc (step self chapters ks) (initial self chapters w) cfg ->
  gather cfg = Some results ->
  chapters !! i = Some chapter ->
  svc_extract (langchain_service self) (content chapter) ks = Return (JDict d) ->
  exists ref tagged,
    results !! i = Some (Return ref)
    /\ store (cw cfg) !! ref = Some (JDict tagged)
    /\ tagged = dict_setitem (py "_chapter_info") (chapter_info chapter) d
    /\ dict_get (py "_chapter_info") tagged
       = Some (JDict [ (py "chapter_number", JInt (Z.of_nat (chapter_number chapter)));
                       (py "title", JStr (title chapter)) ])
    /\ (forall k, k <> py "_chapter_info" -> dict_get k tagged = dict_get k d)
    /\ ref ∈ successes results
    /\ store (snd (collect results (cw cfg))) = store (cw cfg)
    /\ (forall j, results !! j = Some (Return ref) -> j = i).
Proof.
  intros Hrun Hres Hc Hext.
  destruct (result_of_chapter self chapters ks w cfg results Hrun Hres i chapter Hc)
    as (r & Hr & Hfin).
  unfold finished_as, chapter_outcome in Hfin. rewrite Hext in Hfin.
  cbn [setitem_result] in Hfin.
  destruct r as [ref|e]; [|contradiction]. destruct Hfin as [Hstore _].
  exists ref, (dict_setitem (py "_chapter_info") (chapter_info chapter) d).
  split; [exact Hr|]. split; [exact Hstore|]. split; [reflexivity|].
  split; [apply dict_get_setitem|].
  split; [intros k Hk; now apply dict_get_setitem_other|].
  split; [eapply success_in_output; exact Hr|].
  split.
  - destruct (collect_spec results (cw cfg)) as (records & _ & -> & _). reflexivity.
  - intros j Hj. eapply results_distinct; eassumption.
Qed.

Lemma result_carries_chapter_info_witness :
  exists ref tagged,
    store (cw Sample.final) !! ref = Some (JDict tagged)
    /\ dict_get (py "_chapter_info") tagged
       = Some (JDict [ (py "chapter_number", JInt 2); (py "title", JStr (py "Chapter 2 B")) ]).
Proof.
  assert (Hrun : rtc (step Sample.extractor Sample.chapters Sample.template)
                     (initial Sample.extractor Sample.chapters Sample.started)
                     Sample.final) by apply run_schedule_rtc.
  assert (Hres : gather Sample.final
                 = Some [Return 1%nat; Return 0%nat; Raise Sample.boom])
    by (vm_compute; reflexivity).
  assert (Hc : Sample.chapters !! 1%nat
               = Some {| chapter_number := 2; title := py "Chapter 2 B";
                         content := py "Chapter 2 B" |})
    by (vm_compute; reflexivity).
  assert (Hext : svc_extract (langchain_service Sample.extractor)
                             (content {| chapter_number := 2; title := py "Chapter 2 B";
                                         content := py "Chapter 2 B" |})
                             Sample.template
                 = Return (JDict [(py "topics", JList [JStr (py "X")])]))
    by (vm_compute; reflexivity).
  destruct (result_carries_chapter_info _ _ _ _ _ _ _ _ _ Hrun Hres Hc Hext)
    as (ref & tagged & _ & Hstore & _ & Hget & _).
  exists ref, tagged. split; [exact Hstore|exact Hget].
Defined.

Lemma successes_keep_order (results : list (outcome nat)) (i j ri rj : nat) :
  (i < j)%nat ->
  results !! i = Some (Return ri) ->
  results !! j = Some (Return rj) ->
  exists p q, (p < q)%nat
              /\ successes results !! p = Some ri
              /\ successes results !! q = Some rj.
Proof.
  revert i j. induction results as [|x rs IH]; intros i j Hij Hi Hj; [discriminate|].
  destruct j as [|j]; [lia|]. change ((x :: rs) !! S j) with (rs !! j) in Hj.
  destruct i as [|i].
  - injection Hi as ->.
    change (successes (Return ri :: rs)) with (ri :: successes rs).
    apply success_in_output in Hj. apply list_elem_of_lookup_1 in Hj.
    destruct Hj as [q Hq]. exists 0%nat, (S q). repeat split; [lia|exact Hq].
  - change ((x :: rs) !! S i) with (rs !! i) in Hi.
    destruct (IH i j) as (p & q & Hpq & Hp & Hq); [lia|exact Hi|exact Hj|].
    destruct x as [r|e].
    + change (successes (Return r :: rs)) with (r :: successes rs).
      exists (S p), (S q). repeat split; [lia|exact Hp|exact Hq].
    + change (successes (Raise e :: rs)) with (successes rs).
      exists p, q. auto.
Qed.

(** C10. The output sequence is the sequence of the results of [gather]
    with the exceptions left out, and [gather] gives its results in the
    order of the chapters, whatever the order in which the calls ended: when
    chapters [i < j] both succeed, the result of chapter [i] (the object
    tagged with chapter [i]) stands before the result of chapter [j] in the
    output. *)
Theorem output_keeps_chapter_order
        (self : t) (chapters : list ChapterUnit) (ks : json) (w : world)
        (cfg : config) (results : list (outcome nat))
        (i j ri rj : nat) :
  rtc (step self chapters ks) (initial self chapters w) cfg ->
  gather cfg = Some results ->
  (i < j)%nat ->
  results !! i = Some (Return ri) ->
  results !! j = Some (Return rj) ->
  fst (collect results (cw cfg)) = Return (successes results)
  /\ (exists p q, (p < q)%nat
                  /\ successes results !! p = Some ri
                  /\ successes results !! q = Some rj)
  /\ (exists ci cj, chapters !! i = Some ci /\ chapters !! j = Some cj
                    /\ Return (deref (cw cfg) ri) = chapter_outcome self ks ci
                    /\ Return (deref (cw cfg) rj) = chapter_outcome self ks cj).
Proof.
  intros Hrun Hres Hij Hi Hj.
  destruct (successes_keep_order results i j ri rj Hij Hi Hj)
    as (p & q & Hpq & Hp & Hq).
  split; [|split].
  - destruct (collect_spec results (cw cfg)) as (records & _ & _ & ->).
    destruct (successes results); [discriminate|reflexivity].
  - eauto.
  - pose proof (length_results self chapters ks w cfg results Hrun Hres) as Hlen.
    assert (Hci : is_Some (chapters !! i)).
    { apply lookup_lt_is_Some_2. rewrite <- Hlen. eapply lookup_lt_Some; exact Hi. }
    assert (Hcj : is_Some (chapters !! j)).
    { apply lookup_lt_is_Some_2. rewrite <- Hlen. eapply lookup_lt_Some; exact Hj. }
    destruct Hci as [ci Hci], Hcj as [cj Hcj]. exists ci, cj.
    split; [exact Hci|]. split; [exact Hcj|].
    destruct (result_of_chapter self chapters ks w cfg results Hrun Hres i ci Hci)
      as (r1 & Hr1 & Hf1).
    destruct (result_of_chapter self chapters ks w cfg results Hrun Hres j cj Hcj)
      as (r2 & Hr2 & Hf2).
    rewrite Hi in Hr1. rewrite Hj in Hr2.
    injection Hr1 as <-. injection Hr2 as <-.
    unfold finished_as in Hf1, Hf2. unfold deref.
    destruct (chapter_outcome self ks ci); [|contradiction].
    destruct (chapter_outcome self ks cj); [|contradiction].
    destruct Hf1 as [-> _], Hf2 as [-> _]. auto.
Qed.

Lemma output_keeps_chapter_order_witness :
  gather Sample.final = Some [Return 1%nat; Return 0%nat; Raise Sample.boom]
  /\ fst (collect [Return 1%nat; Return 0%nat; Raise Sample.boom] (cw Sample.final))
     = Return (successes [Return 1%nat; Return 0%nat; Raise Sample.boom])
  /\ successes [Return 1%nat; Return 0%nat; Raise Sample.boom] = [1; 0]%nat.
Proof.
  assert (Hrun : rtc (step Sample.extractor Sample.chapters Sample.template)
                     (initial Sample.extractor Sample.chapters Sample.started)
                     Sample.final) by apply run_schedule_rtc.
  assert (Hres : gather Sample.final
                 = Some [Return 1%nat; Return 0%nat; Raise Sample.boom])
    by (vm_compute; reflexivity).
  split; [exact Hres|]. split; [|reflexivity].
  refine (proj1 (output_keeps_chapter_order _ _ _ _ _ _ 0%nat 1%nat 1%nat 0%nat
                   Hrun Hres _ eq_refl eq_refl)).
  lia.
Defined.

Lemma finish_after_collect (self : t) (ks : json) (results : list (outcome nat))
      (w : world) :
  finish self ks results w
  = match fst (collect results w) with
    | Return successful_results =>
        try_except (svc_merge (langchain_service self) successful_results ks)
                   on_error (snd (collect results w))
    | Raise e => on_error e (snd (collect results w))
    end.
Proof.
  unfold finish, try_except, bind.
  destruct (collect results w) as [[succ|e] w']; reflexivity.
Qed.

Lemma failed_task_failed_extraction
      (self : t) (chapters : list ChapterUnit) (ks : json) (w0 w : world)
      (chapter : ChapterUnit) (r : outcome nat) :
  returns_objects self chapters ks ->
  In chapter chapters ->
  finished_as self ks w0 w chapter r ->
  is_raise r = extraction_fails self ks chapter.
Proof.
  intros Hobj Hin. unfold finished_as, chapter_outcome, extraction_fails.
  destruct (svc_extract _ _ _) as [v|e] eqn:E.
  - destruct (Hobj chapter v Hin E) as [d ->]. cbn [setitem_result].
    destruct r; [reflexivity|contradiction].
  - destruct r; [contradiction|reflexivity].
Qed.

(** C1. With a positive limit and an extraction that returns JSON objects,
    let [M] of the [N] chapters be those whose extraction fails. The
    fan-out always comes to its end, and at every end of it: each chapter
    has its own result, failed exactly when its own extraction fails,
    whatever the other calls did; the list of successes has [N - M]
    elements and [M] failure records are logged; when [M < N] that list is
    what is handed to the merge, whose outcome is the outcome of the run;
    when [M = N] the run raises the pipeline failure; and the pipeline
    failure is raised at that point exactly when [M = N]. *)
Theorem partial_failure_tolerance
        (self : t) (chapters : list ChapterUnit) (ks : json) (w : world) (M : nat) :
  (0 < max_concurrent_requests self)%nat ->
  returns_objects self chapters ks ->
  M = count (extraction_fails self ks) chapters ->
  let N := length chapters in
  let w0 := snd (start chapters w) in
  (M <= N)%nat
  /\ (exists cfg results,
        rtc (step self chapters ks) (initial self chapters w0) cfg
        /\ gather cfg = Some results)
  /\ forall cfg results,
       rtc (step self chapters ks) (initial self chapters w0) cfg ->
       gather cfg = Some results ->
       (forall i chapter, chapters !! i = Some chapter ->
          exists r, results !! i = Some r
                    /\ is_raise r = extraction_fails self ks chapter)
       /\ length (successes results) = (N - M)%nat
       /\ failure_logs (log (snd (collect results (cw cfg))))
          = (failure_logs (log w) + M)%nat
       /\ ((M < N)%nat ->
           fst (collect results (cw cfg)) = Return (successes results)
           /\ finish self ks results (cw cfg)
              = try_except (svc_merge (langchain_service self) (successes results) ks)
                           on_error (snd (collect results (cw cfg))))
       /\ (M = N ->
           fst (collect results (cw cfg)) = Raise pipeline_failure
           /\ fst (finish self ks results (cw cfg)) = Raise pipeline_failure)
       /\ (fst (collect results (cw cfg)) = Raise pipeline_failure <-> M = N).
Proof.
  intros HK Hobj HM N w0.
  assert (HMN : (M <= N)%nat) by (subst M N; apply count_le_length).
  split; [exact HMN|]. split.
  { destruct (run_completes self chapters ks w0 (initial self chapters w0))
      as (cfg & results & Hrtc & Hres);
      [apply initial_consistent|exact HK|eauto]. }
  intros cfg results Hrun Hres.
  pose proof (length_results self chapters ks w0 cfg results Hrun Hres) as Hlen.
  assert (Hper : forall i chapter, chapters !! i = Some chapter ->
            exists r, results !! i = Some r
                      /\ is_raise r = extraction_fails self ks chapter).
  { intros i chapter Hc.
    destruct (result_of_chapter self chapters ks w0 cfg results Hrun Hres i chapter Hc)
      as (r & Hr & Hfin).
    exists r. split; [exact Hr|].
    eapply failed_task_failed_extraction; [exact Hobj| |exact Hfin].
    apply list_elem_of_In. eapply list_elem_of_lookup_2; exact Hc. }
  assert (Hcount : count is_raise results = M).
  { subst M. apply count_pointwise.
    apply Forall2_same_length_lookup_2; [exact Hlen|].
    intros i r chapter Hr Hc. destruct (Hper i chapter Hc) as (r' & Hr' & E).
    congruence. }
  assert (Hsucc : length (successes results) = (N - M)%nat).
  { pose proof (length_successes results). subst N. lia. }
  destruct (collect_spec results (cw cfg)) as (records & Hrec & Hw & Hfst).
  destruct (reachable_consistent self chapters ks w0 cfg Hrun)
    as (_ & _ & _ & _ & Hlog & _).
  assert (Hlogs : failure_logs (log (snd (collect results (cw cfg))))
                  = (failure_logs (log w) + M)%nat).
  { rewrite Hw. cbn [log]. rewrite failure_logs_app, Hlog, Hrec, Hcount.
    subst w0. unfold start, KnowledgeExtractor.logger, logging. cbn [snd log].
    rewrite failure_logs_snoc.
    destruct (not_a_failure_record INFO
                (str_of_nat (length chapters) ++ py " chapters"))
      as (_ & _ & _ & -> & _). lia. }
  split; [exact Hper|]. split; [exact Hsucc|]. split; [exact Hlogs|].
  split; [|split].
  - intros Hlt.
    assert (Hfst' : fst (collect results (cw cfg)) = Return (successes results)).
    { rewrite Hfst. destruct (successes results); [cbn in Hsucc; lia|reflexivity]. }
    split; [exact Hfst'|]. rewrite finish_after_collect, Hfst'. reflexivity.
  - intros Heq.
    assert (Hfst' : fst (collect results (cw cfg)) = Raise pipeline_failure).
    { rewrite Hfst. destruct (successes results); [reflexivity|cbn in Hsucc; lia]. }
    split; [exact Hfst'|]. rewrite finish_after_collect, Hfst'. reflexivity.
  - rewrite Hfst. split.
    + destruct (successes results); [intros _; cbn in Hsucc; lia|discriminate].
    + intros Heq. destruct (successes results); [reflexivity|cbn in Hsucc; lia].
Qed.

Lemma sample_returns_objects :
  returns_objects Sample.extractor Sample.chapters Sample.template.
Proof.
  intros chapter v _. cbn [Sample.extractor init langchain_service Sample.service svc_extract].
  destruct (bool_decide _); [discriminate|]. intros H. injection H as <-. eauto.
Qed.

Lemma partial_failure_tolerance_witness :
  (0 < max_concurrent_requests Sample.extractor)%nat
  /\ count (extraction_fails Sample.extractor Sample.template) Sample.chapters = 1%nat
  /\ length (successes [Return 1%nat; Return 0%nat; Raise Sample.boom]) = (3 - 1)%nat
  /\ failure_logs
       (log (snd (collect [Return 1%nat; Return 0%nat; Raise Sample.boom]
                          (cw Sample.final))))
     = (failure_logs (log Sample.empty_world) + 1)%nat.
Proof.
  assert (HK : (0 < max_concurrent_requests Sample.extractor)%nat) by (cbn; lia).
  assert (HM : 1%nat = count (extraction_fails Sample.extractor Sample.template)
                             Sample.chapters) by (vm_compute; reflexivity).
  assert (Hrun : rtc (step Sample.extractor Sample.chapters Sample.template)
                     (initial Sample.extractor Sample.chapters Sample.started)
                     Sample.final) by apply run_schedule_rtc.
  assert (Hres : gather Sample.final
                 = Some [Return 1%nat; Return 0%nat; Raise Sample.boom])
    by (vm_compute; reflexivity).
  destruct (partial_failure_tolerance
              Sample.extractor Sample.chapters Sample.template Sample.empty_world
              1%nat HK sample_returns_objects HM) as (_ & _ & Hall).
  destruct (Hall Sample.final _ Hrun Hres) as (_ & Hlen & Hlogs & _).
  split; [exact HK|]. split; [symmetry; exact HM|]. split; [|exact Hlogs].
  replace (length Sample.chapters) with 3%nat in Hlen by (vm_compute; reflexivity).
  exact Hlen.
Defined.

(** The scenario of the specification, from the text to the merged
    result. *)
Example end_to_end :
  exists w',
    extract_knowledge_points Sample.extractor Sample.chapters Sample.template
      Sample.empty_world
      (Return (JDict [(py "topics", JList [JStr (py "X"); JStr (py "X")])]), w')
    /\ failure_logs (log w') = 1%nat.
Proof.
  eexists. split.
  - exists Sample.final, [Return 1%nat; Return 0%nat; Raise Sample.boom].
    split; [apply run_schedule_rtc|]. split; vm_compute; reflexivity.
  - vm_compute. reflexivity.
Qed.

(** C9. A merge call reads the results and leaves them as they are: after a
    call the store is the store before it, so the objects behind the
    references it was given are unchanged and serialize as before, and a
    second call on the same references has the same outcome and sends the
    same request (or, like the first, none); between [gather] and the merge the orchestrator does not
    touch the store either, and what it hands to the merge is the list of
    references of the successes. *)
Theorem merge_does_not_mutate_results
        (globals : list (string * LangChainService.binding))
        (llm : request -> outcome str) (json_parser : str -> outcome json)
        (extracted_points : list nat) (target_structure : json) (w : world) :
  let merge := LangChainService.merge_knowledge_points
                 globals llm json_parser extracted_points target_structure in
  let first := merge w in
  let second := merge (snd first) in
  store (snd first) = store w
  /\ store (snd second) = store w
  /\ map (deref (snd first)) extracted_points = map (deref w) extracted_points
  /\ map (deref (snd second)) extracted_points = map (deref w) extracted_points
  /\ (forall dumps : json -> str,
        dumps (JList (map (deref (snd first)) extracted_points))
        = dumps (JList (map (deref w) extracted_points))
        /\ dumps (JList (map (deref (snd second)) extracted_points))
           = dumps (JList (map (deref w) extracted_points)))
  /\ fst second = fst first
  /\ (exists requests, (length requests <= 1)%nat
                       /\ sent (snd first) = sent w ++ requests
                       /\ sent (snd second) = sent (snd first) ++ requests)
  /\ forall (self : t) (ks : json) (results : list (outcome nat)) (wg : world),
       store (snd (collect results wg)) = store wg
       /\ forall successful_results,
            fst (collect results wg) = Return successful_results ->
            successful_results = successes results
            /\ finish self ks results wg
               = try_except (svc_merge (langchain_service self) successful_results ks)
                            on_error (snd (collect results wg)).
Proof.
  intros merge first second.
  destruct (merge_shape globals llm json_parser extracted_points target_structure w)
    as (o & records & requests & Hlen & Hshape).
  assert (H1 : first = (o, {| store := store w; log := log w ++ records;
                              sent := sent w ++ requests |})).
  { subst first merge. now apply Hshape. }
  assert (H2 : second = (o, {| store := store (snd first);
                               log := log (snd first) ++ records;
                               sent := sent (snd first) ++ requests |})).
  { subst second merge. apply Hshape. rewrite H1. reflexivity. }
  assert (Hs1 : store (snd first) = store w) by (rewrite H1; reflexivity).
  assert (Hs2 : store (snd second) = store w) by (rewrite H2; exact Hs1).
  split; [exact Hs1|]. split; [exact Hs2|].
  split; [now apply deref_store|]. split; [now apply deref_store|].
  split.
  { intros dumps.
    rewrite (deref_store (snd first) w extracted_points Hs1).
    rewrite (deref_store (snd second) w extracted_points Hs2). auto. }
  split; [rewrite H1, H2; reflexivity|]. split.
  - exists requests. split; [exact Hlen|]. split.
    + rewrite H1. reflexivity.
    + rewrite H2. reflexivity.
  - intros self ks results wg.
    destruct (collect_spec results wg) as (recs & _ & Hw & Hfst).
    split; [rewrite Hw; reflexivity|].
    intros succ Hsucc. split.
    + rewrite Hfst in Hsucc. destruct (successes results); [discriminate|].
      now injection Hsucc.
    + rewrite finish_after_collect, Hsucc. reflexivity.
Qed.

(** * Further properties *)

(** ** The fan-out *)

Lemma remaining_nsteps (self : t) (chapters : list ChapterUnit) (ks : json)
      (n : nat) (cfg cfg' : config) :
  nsteps (step self chapters ks) n cfg cfg' ->
  remaining cfg = (n + remaining cfg')%nat.
Proof.
  induction 1 as [|n x y z Hstep _ IH]; [reflexivity|].
  apply step_remaining in Hstep. lia.
Qed.

Lemma gathered_not_waiting (cfg : config) (results : list (outcome nat)) :
  gather cfg = Some results -> count is_waiting (tasks cfg) = 0%nat.
Proof.
  unfold gather. intros H. apply mapM_Some in H.
  induction H as [|p r l k Hp _ IH]; [reflexivity|].
  destruct p; try discriminate. exact IH.
Qed.

Lemma run_schedule_nsteps (self : t) (chapters : list ChapterUnit) (ks : json)
      (schedule : list nat) (cfg : config) :
  exists n, nsteps (step self chapters ks) n cfg
                   (run_schedule self chapters ks schedule cfg).
Proof.
  apply rtc_nsteps_1, run_schedule_rtc.
Qed.

(** X1. A fan-out over [N] chapters is over after exactly [2 N] steps:
    every task enters once and finishes once, none is skipped and none runs
    twice, and [gather] has its results then and not before. *)
Theorem gather_returns_after_two_steps_per_chapter
        (self : t) (chapters : list ChapterUnit) (ks : json) (w : world)
        (n : nat) (cfg : config) :
  nsteps (step self chapters ks) n (initial self chapters w) cfg ->
  (n <= 2 * length chapters)%nat
  /\ (is_Some (gather cfg) <-> n = (2 * length chapters)%nat).
Proof.
  intros Hn. pose proof (remaining_nsteps _ _ _ _ _ _ Hn) as Hrem.
  destruct (initial_counts self chapters w) as [Hf Hw].
  unfold remaining at 1 in Hrem. rewrite Hf, Hw in Hrem.
  split; [lia|]. split.
  - intros [results Hres]. unfold remaining in Hrem.
    rewrite (gathered_not_in_flight _ _ Hres), (gathered_not_waiting _ _ Hres) in Hrem.
    lia.
  - intros ->. unfold remaining in Hrem.
    destruct (all_done (tasks cfg)) as [results Hres]; [lia|lia|].
    exists results. exact Hres.
Qed.

Lemma gather_returns_after_two_steps_per_chapter_witness :
  exists n,
    nsteps (step Sample.extractor Sample.chapters Sample.template) n
           (initial Sample.extractor Sample.chapters Sample.started) Sample.final
    /\ n = 6%nat.
Proof.
  destruct (run_schedule_nsteps Sample.extractor Sample.chapters Sample.template
              [0; 1; 2; 2; 1; 0]%nat
              (initial Sample.extractor Sample.chapters Sample.started))
    as [n Hn].
  exists n. split; [exact Hn|].
  destruct (gather_returns_after_two_steps_per_chapter _ _ _ _ _ _ Hn) as [_ Hiff].
  replace (length Sample.chapters) with 3%nat in Hiff by (vm_compute; reflexivity).
  apply Hiff. eexists. vm_compute. reflexivity.
Defined.

(** X2. With a limit of zero and at least one chapter nothing ever
    happens: no task can enter, the configuration stays the initial one and
    [gather] never has its results. *)
Theorem limit_zero_never_starts
        (self : t) (chapters : list ChapterUnit) (ks : json) (w : world)
        (cfg : config) :
  max_concurrent_requests self = 0%nat ->
  chapters <> [] ->
  rtc (step self chapters ks) (initial self chapters w) cfg ->
  cfg = initial self chapters w /\ gather cfg = None.
Proof.
  intros HK Hne Hrun.
  assert (Hstuck : forall cfg', ~ step self chapters ks (initial self chapters w) cfg').
  { intros cfg' Hstep. inversion Hstep as [c i chapter Hi Hc Hpos | c i chapter Hi Hc]; subst.
    - unfold initial in Hpos. cbn [sem] in Hpos. lia.
    - apply initial_tasks in Hi. discriminate. }
  assert (E : cfg = initial self chapters w).
  { apply rtc_inv in Hrun. destruct Hrun as [E|(y & Hstep & _)]; [now symmetry in E|].
    exfalso. exact (Hstuck y Hstep). }
  split; [exact E|]. subst cfg. unfold gather, initial. cbn [tasks].
  destruct chapters as [|c cs]; [contradiction|reflexivity].
Qed.

Lemma limit_zero_never_starts_witness :
  gather (run_schedule Cases.stuck Sample.chapters Sample.template [0; 1; 2; 0; 1; 2]%nat
            (initial Cases.stuck Sample.chapters Sample.started))
  = None.
Proof.
  refine (proj2 (limit_zero_never_starts Cases.stuck Sample.chapters Sample.template
                   Sample.started _ eq_refl _ (run_schedule_rtc _ _ _ _ _))).
  vm_compute. discriminate.
Defined.

Lemma no_chapters_no_step (self : t) (ks : json) (cfg cfg' : config) :
  ~ step self [] ks cfg cfg'.
Proof.
  intros Hstep.
  inversion Hstep as [c i chapter _ Hc _ | c i chapter _ Hc]; subst;
    rewrite lookup_nil in Hc; discriminate.
Qed.

(** X3. Without chapters there is one run: nothing is awaited, the
    pipeline failure [Failed to process any chapters successfully] is
    raised, the merge is not called, and the run leaves two records of the
    orchestrator: the start with the count 0 and the error. *)
Theorem no_chapters_raises_pipeline_failure
        (self : t) (ks : json) (w : world) (res : outcome json * world) :
  extract_knowledge_points self [] ks w res
  <-> res = (Raise pipeline_failure,
             {| store := store w;
                log := log w
                       ++ [ {| log_name := "services.knowledge_extractor";
                               log_level := INFO;
                               log_msg := py "Starting knowledge extraction for 0 chapters" |};
                            {| log_name := "services.knowledge_extractor";
                               log_level := ERROR;
                               log_msg := py "Error in knowledge extraction process: Failed to process any chapters successfully" |} ];
                sent := sent w |}).
Proof.
  assert (Hfin : finish self ks [] (snd (start [] w))
                 = (Raise pipeline_failure,
                    {| store := store w;
                       log := log w
                              ++ [ {| log_name := "services.knowledge_extractor";
                                      log_level := INFO;
                                      log_msg := py "Starting knowledge extraction for 0 chapters" |};
                                   {| log_name := "services.knowledge_extractor";
                                      log_level := ERROR;
                                      log_msg := py "Error in knowledge extraction process: Failed to process any chapters successfully" |} ];
                       sent := sent w |})).
  { unfold finish, collect, on_error, start, try_except, bind, raise, ret,
      KnowledgeExtractor.logger, logging.
    cbn [filter_results ret fst snd store log sent length].
    unfold ret. cbn [fst snd store log sent]. rewrite <- app_assoc.
    assert (E1 : py "Starting knowledge extraction for " ++ str_of_nat 0%nat
                 ++ py " chapters"
                 = py "Starting knowledge extraction for 0 chapters")
      by (vm_compute; reflexivity).
    assert (E2 : py "Error in knowledge extraction process: "
                 ++ exn_msg pipeline_failure
                 = py "Error in knowledge extraction process: Failed to process any chapters successfully")
      by (vm_compute; reflexivity).
    rewrite E1, E2. reflexivity. }
  split.
  - intros (cfg & results & Hrun & Hres & ->).
    apply rtc_inv in Hrun. destruct Hrun as [<-|(y & Hstep & _)].
    + unfold gather, initial in Hres. cbn in Hres. injection Hres as <-. exact Hfin.
    + exfalso. exact (no_chapters_no_step _ _ _ _ Hstep).
  - intros ->. exists (initial self [] (snd (start [] w))), [].
    split; [apply rtc_refl|]. split; [reflexivity|]. symmetry. exact Hfin.
Qed.

(** X4. An extraction that returns anything but a JSON object (an array, a
    string, a number, [null]) makes its own chapter fail: tagging the
    result raises [TypeError], which becomes the result of the task, and the
    chapter is left out of the list handed to the merge. *)
Theorem non_object_result_fails_its_chapter
        (self : t) (chapters : list ChapterUnit) (ks : json) (w : world)
        (cfg : config) (results : list (outcome nat))
        (i : nat) (chapter : ChapterUnit) (v : json) :
  rtc (step self chapters ks) (initial self chapters w) cfg ->
  gather cfg = Some results ->
  chapters !! i = Some chapter ->
  svc_extract (langchain_service self) (content chapter) ks = Return v ->
  is_object v = false ->
  exists e, results !! i = Some (Raise e)
            /\ exn_class e = "TypeError"%string
            /\ exn_langchain e = false.
Proof.
  intros Hrun Hres Hc Hext Hobj.
  destruct (result_of_chapter self chapters ks w cfg results Hrun Hres i chapter Hc)
    as (r & Hr & Hfin).
  unfold finished_as, chapter_outcome in Hfin. rewrite Hext in Hfin.
  destruct v; try discriminate; cbn [setitem_result] in Hfin;
    (destruct r as [ref|e]; [contradiction|]); subst e;
    (eexists; split; [exact Hr|split; reflexivity]).
Qed.

Lemma non_object_result_fails_its_chapter_witness :
  exists e, [Return 0%nat; Raise (TypeError "list indices must be integers or slices, not str");
             Return 2%nat] !! 1%nat = Some (Raise e)
            /\ exn_class e = "TypeError"%string
            /\ exn_langchain e = false.
Proof.
  assert (Hres : gather Cases.listy_final
                 = Some [Return 0%nat;
                         Raise (TypeError "list indices must be integers or slices, not str");
                         Return 2%nat])
    by (vm_compute; reflexivity).
  refine (non_object_result_fails_its_chapter
            Cases.listy_extractor Sample.chapters Sample.template Sample.started
            Cases.listy_final _ 1%nat
            {| chapter_number := 2; title := py "Chapter 2 B"; content := py "Chapter 2 B" |}
            (JList [JStr (py "X")])
            (run_schedule_rtc _ _ _ _ _) Hres _ _ eq_refl);
    vm_compute; reflexivity.
Defined.

Lemma expected_results_cons (self : t) (ks : json) (c : ChapterUnit)
      (cs : list ChapterUnit) :
  expected_results self ks (c :: cs)
  = match chapter_outcome self ks c with
    | Return v => v :: expected_results self ks cs
    | Raise _ => expected_results self ks cs
    end.
Proof.
  unfold expected_results. cbn [omap list_omap].
  destruct (chapter_outcome self ks c); reflexivity.
Qed.

Lemma successes_values (self : t) (ks : json) (w0 w : world)
      (chapters : list ChapterUnit) (results : list (outcome nat)) :
  Forall2 (finished_as self ks w0 w) chapters results ->
  map (deref w) (successes results) = expected_results self ks chapters.
Proof.
  induction 1 as [|c r cs rs Hfin _ IH]; [reflexivity|].
  rewrite expected_results_cons. unfold finished_as in Hfin.
  destruct r as [ref|e], (chapter_outcome self ks c) as [obj|e']; try contradiction.
  - change (successes (Return ref :: rs)) with (ref :: successes rs).
    cbn [map]. rewrite IH. destruct Hfin as [Hl _]. unfold deref. rewrite Hl. reflexivity.
  - change (successes (Raise e :: rs)) with (successes rs). exact IH.
Qed.

(** X5. What the merge is given does not depend on the order in which the
    calls were scheduled: at the end of every run the objects behind the
    list handed to the merge are the tagged results of the chapters whose
    call ends well, in chapter order. Two runs on the same chapters hand
    the same objects to the merge. *)
Theorem merge_input_is_independent_of_schedule
        (self : t) (chapters : list ChapterUnit) (ks : json) (w : world)
        (cfg : config) (results : list (outcome nat)) :
  rtc (step self chapters ks) (initial self chapters w) cfg ->
  gather cfg = Some results ->
  map (deref (snd (collect results (cw cfg)))) (successes results)
  = expected_results self ks chapters.
Proof.
  intros Hrun Hres.
  destruct (collect_spec results (cw cfg)) as (records & _ & Hw & _).
  rewrite (deref_store _ (cw cfg)) by (rewrite Hw; reflexivity).
  apply (successes_values self ks w).
  apply Forall2_same_length_lookup_2.
  - symmetry. exact (length_results self chapters ks w cfg results Hrun Hres).
  - intros i c r Hc Hr.
    destruct (result_of_chapter self chapters ks w cfg results Hrun Hres i c Hc)
      as (r' & Hr' & Hfin).
    congruence.
Qed.

Lemma merge_input_is_independent_of_schedule_witness :
  map (deref (snd (collect [Return 1%nat; Return 0%nat; Raise Sample.boom]
                           (cw Sample.final))))
      (successes [Return 1%nat; Return 0%nat; Raise Sample.boom])
  = expected_results Sample.extractor Sample.template Sample.chapters.
Proof.
  apply (merge_input_is_independent_of_schedule
           Sample.extractor Sample.chapters Sample.template Sample.started).
  - apply run_schedule_rtc.
  - vm_compute. reflexivity.
Defined.



Lemma all_raise_no_successes (results : list (outcome nat)) :
  (forall i r, results !! i = Some r -> is_raise r = true) ->
  successes results = [] /\ count is_raise results = length results.
Proof.
  induction results as [|r rs IH]; intros Hall; [auto|].
  destruct IH as [IH1 IH2]; [intros i r' Hr'; exact (Hall (S i) r' Hr')|].
  pose proof (Hall 0%nat r eq_refl) as Hr. destruct r as [ref|e]; [discriminate|].
  change (successes (Raise e :: rs)) with (successes rs).
  cbn [count is_raise length]. rewrite IH2. auto.
Qed.

(** X7. On [services/langchain_service.py] as it is written (no
    [import json]) the orchestrator never produces a result: whatever the
    chapters, the template, the service and the parser are, every run
    comes to its end, every chapter is logged as failed, and the run raises
    [Failed to process any chapters successfully]. *)
Theorem as_written_every_run_fails
        (llm : request -> outcome str) (json_parser : str -> outcome json)
        (chapters : list ChapterUnit) (ks : json) (w : world) :
  (exists res,
      extract_knowledge_points
        (init (real_service LangChainService.module_globals llm json_parser))
        chapters ks w res)
  /\ forall res,
      extract_knowledge_points
        (init (real_service LangChainService.module_globals llm json_parser))
        chapters ks w res ->
      fst res = Raise pipeline_failure
      /\ failure_logs (log (snd res))
         = (failure_logs (log w) + length chapters)%nat.
Proof.
  set (self := init (real_service LangChainService.module_globals llm json_parser)).
  set (w0 := snd (start chapters w)).
  split.
  - destruct (run_completes self chapters ks w0 (initial self chapters w0))
      as (cfg & results & Hrun & Hres);
      [apply initial_consistent|cbn; lia|].
    exists (finish self ks results (cw cfg)), cfg, results. auto.
  - intros res (cfg & results & Hrun & Hres & ->). fold w0 in Hrun.
    pose proof (length_results self chapters ks w0 cfg results Hrun Hres) as Hlen.
    assert (Hall : forall i r, results !! i = Some r -> is_raise r = true).
    { intros i r Hr.
      assert (Hi : (i < length chapters)%nat)
        by (rewrite <- Hlen; eapply lookup_lt_Some; exact Hr).
      apply lookup_lt_is_Some_2 in Hi. destruct Hi as [c Hc].
      destruct (result_of_chapter self chapters ks w0 cfg results Hrun Hres i c Hc)
        as (r' & Hr' & Hfin).
      assert (r' = r) by congruence. subst r'.
      pose proof (real_service_fails_every_chapter llm json_parser ks c) as Hf.
      fold self in Hf. unfold extraction_fails in Hf.
      unfold finished_as, chapter_outcome in Hfin.
      destruct (svc_extract (langchain_service self) (content c) ks); [discriminate|].
      destruct r; [contradiction|reflexivity]. }
    destruct (all_raise_no_successes results Hall) as [Hnone Hcount].
    destruct (collect_spec results (cw cfg)) as (records & Hrec & Hw & Hfst).
    rewrite Hnone in Hfst. rewrite finish_after_collect, Hfst, Hw.
    split; [reflexivity|].
    unfold on_error, bind, raise, KnowledgeExtractor.logger, logging.
    cbn [fst snd store log sent].
    rewrite failure_logs_snoc, failure_logs_app, Hrec, Hcount, Hlen.
    destruct (reachable_consistent self chapters ks w0 cfg Hrun)
      as (_ & _ & _ & _ & Hlogs & _).
    rewrite Hlogs. subst w0. unfold start, KnowledgeExtractor.logger, logging.
    cbn [fst snd store log sent]. rewrite failure_logs_snoc.
    destruct (not_a_failure_record INFO
                (str_of_nat (length chapters) ++ py " chapters"))
      as (_ & _ & _ & -> & _).
    replace (is_failure_record _) with false by (vm_compute; reflexivity).
    lia.
Qed.

(** ** The merge stage and the extraction, once more *)

(** X8. On the module as it is written the merge sends no request
    either: [json.dumps] raises [NameError] before the inputs of the chain
    exist; the handler logs [Error merging knowledge points: ...] and
    raises the same exception again, whatever the chapter results, the
    template, the service and the parser are. *)
Theorem merge_raises_before_any_request
        (llm : request -> outcome str) (json_parser : str -> outcome json)
        (extracted_points : list nat) (target_structure : json) (w : world) :
  LangChainService.merge_knowledge_points
    LangChainService.module_globals llm json_parser extracted_points target_structure w
  = (Raise {| exn_class := "NameError"; exn_langchain := false;
              exn_msg := py "name 'json' is not defined" |},
     {| store := store w;
        log := log w
               ++ [ {| log_name := "services.langchain_service"; log_level := INFO;
                       log_msg := py "Starting knowledge points merge" |};
                    {| log_name := "services.langchain_service"; log_level := ERROR;
                       log_msg := py "Error merging knowledge points: "
                                  ++ py "name 'json' is not defined" |} ];
        sent := sent w |}).
Proof.
  unfold LangChainService.merge_knowledge_points, LangChainService.json_dumps,
    try_except, bind, LangChainService.logger, logging, raise.
  cbn. rewrite <- app_assoc. reflexivity.
Qed.

(** How a call of the merge ends, read off its reply. *)
Lemma merge_with_json_run
      (dumps : json -> str) (llm : request -> outcome str)
      (json_parser : str -> outcome json)
      (extracted_points : list nat) (target_structure : json) (w : world) :
  let req := LangChainService.merge_prompt
               (dumps (JList (map (deref w) extracted_points)))
               (dumps target_structure) in
  let reply := match llm req with
               | Return text => json_parser text
               | Raise e => Raise e
               end in
  LangChainService.merge_knowledge_points
    (LangChainService.with_json dumps) llm json_parser
    extracted_points target_structure w
  = (reply,
     {| store := store w;
        log := log w
               ++ [ {| log_name := "services.langchain_service"; log_level := INFO;
                       log_msg := py "Starting knowledge points merge" |};
                    match reply with
                    | Return _ =>
                        {| log_name := "services.langchain_service"; log_level := INFO;
                           log_msg := py "Successfully merged knowledge points" |}
                    | Raise e =>
                        {| log_name := "services.langchain_service"; log_level := ERROR;
                           log_msg := py "Error merging knowledge points: " ++ exn_msg e |}
                    end ];
        sent := sent w ++ [req] |}).
Proof.
  intros req reply. subst reply.
  unfold LangChainService.merge_knowledge_points, LangChainService.json_dumps,
    LangChainService.ainvoke, try_except, bind, LangChainService.logger, logging,
    ret, raise.
  cbn. unfold deref at 1. cbn [store]. fold (deref w). fold req.
  destruct (llm req) as [text|e]; [destruct (json_parser text) as [v|e]|];
    cbn; rewrite <- ?app_assoc; reflexivity.
Qed.

(** X10. With [import json] in the module, a failure of an extraction is
    the failure of the text-generation service or of the parser, raised
    again as it is; the last record of the call is the error, under
    [LangChain processing error] for a [LangChainException] and under
    [Unexpected error in knowledge extraction] for any other exception. *)
Theorem extract_failure_is_logged_and_raised_again
        (dumps : json -> str) (llm : request -> outcome str)
        (json_parser : str -> outcome json)
        (chapter_content : str) (json_structure : json) (w : world) (e : exn) :
  fst (LangChainService.extract_knowledge_from_chapter
         (LangChainService.with_json dumps) llm json_parser
         chapter_content json_structure w) = Raise e ->
  (llm (LangChainService.knowledge_prompt chapter_content (dumps json_structure))
   = Raise e
   \/ exists text,
       llm (LangChainService.knowledge_prompt chapter_content (dumps json_structure))
       = Return text
       /\ json_parser text = Raise e)
  /\ last (log (snd (LangChainService.extract_knowledge_from_chapter
                       (LangChainService.with_json dumps) llm json_parser
                       chapter_content json_structure w)))
     = Some {| log_name := "services.langchain_service"; log_level := ERROR;
               log_msg := (if exn_langchain e
                           then py "LangChain processing error: "
                           else py "Unexpected error in knowledge extraction: ")
                          ++ exn_msg e |}.
Proof.
  unfold LangChainService.extract_knowledge_from_chapter, LangChainService.json_dumps,
    LangChainService.ainvoke, try_except, bind, LangChainService.logger, logging,
    ret, raise.
  cbn.
  destruct (llm _) as [text|e1] eqn:El; [destruct (json_parser text) as [v|e1] eqn:Ep|];
    cbn; try discriminate.
  - destruct (exn_langchain e1) eqn:Hl; cbn; intros H; injection H as <-;
      (split; [right; eauto|]); rewrite Hl, last_snoc; reflexivity.
  - destruct (exn_langchain e1) eqn:Hl; cbn; intros H; injection H as <-;
      (split; [left; reflexivity|]); rewrite Hl, last_snoc; reflexivity.
Qed.

Lemma extract_failure_is_logged_and_raised_again_witness :
  last (log (snd (LangChainService.extract_knowledge_from_chapter
                    (LangChainService.with_json Cases.dumps) Cases.llm Cases.json_parser
                    (py "Cells divide.") Sample.template Cases.empty_world)))
  = Some {| log_name := "services.langchain_service"; log_level := ERROR;
            log_msg := (if exn_langchain Cases.rate_limit
                        then py "LangChain processing error: "
                        else py "Unexpected error in knowledge extraction: ")
                       ++ exn_msg Cases.rate_limit |}.
Proof.
  refine (proj2 (extract_failure_is_logged_and_raised_again
                   Cases.dumps Cases.llm Cases.json_parser
                   (py "Cells divide.") Sample.template Cases.empty_world
                   Cases.rate_limit _)).
  vm_compute. reflexivity.
Defined.

(** X11. With [import json] in the module the merge sends exactly one
    request: the merge prompt with the serialized list of the objects
    behind the chapter results, in the order given, and the serialized
    template. It changes no object; its outcome is the failure of the
    service, or what the parser makes of the reply; and a failure is
    raised again as it is after the record [Error merging knowledge
    points]. *)
Theorem merge_sends_the_results_in_one_request
        (dumps : json -> str) (llm : request -> outcome str)
        (json_parser : str -> outcome json)
        (extracted_points : list nat) (target_structure : json) (w : world) :
  let req := LangChainService.merge_prompt
               (dumps (JList (map (deref w) extracted_points)))
               (dumps target_structure) in
  let res := LangChainService.merge_knowledge_points
               (LangChainService.with_json dumps) llm json_parser
               extracted_points target_structure w in
  sent (snd res) = sent w ++ [req]
  /\ store (snd res) = store w
  /\ fst res = match llm req with
               | Return text => json_parser text
               | Raise e => Raise e
               end
  /\ forall e, fst res = Raise e ->
       last (log (snd res))
       = Some {| log_name := "services.langchain_service"; log_level := ERROR;
                 log_msg := py "Error merging knowledge points: " ++ exn_msg e |}.
Proof.
  intros req res. subst res.
  rewrite (merge_with_json_run dumps llm json_parser extracted_points target_structure w).
  cbn [fst snd store log sent]. fold req.
  split; [reflexivity|]. split; [reflexivity|]. split; [reflexivity|].
  intros e ->.
  change (log w ++ [?a; ?b]) with (log w ++ [a] ++ [b]).
  rewrite app_assoc, last_snoc. reflexivity.
Qed.

(** ** The orchestrator on the service *)

Lemma gathered_values
      (self : t) (chapters : list ChapterUnit) (ks : json) (w : world)
      (cfg : config) (results : list (outcome nat)) :
  rtc (step self chapters ks) (initial self chapters w) cfg ->
  gather cfg = Some results ->
  map (deref (cw cfg)) (successes results) = expected_results self ks chapters.
Proof.
  intros Hrun Hres. apply (successes_values self ks w).
  apply Forall2_same_length_lookup_2.
  - symmetry. exact (length_results self chapters ks w cfg results Hrun Hres).
  - intros i c r Hc Hr.
    destruct (result_of_chapter self chapters ks w cfg results Hrun Hres i c Hc)
      as (r' & Hr' & Hfin).
    congruence.
Qed.

(** X12. The orchestrator on the service with [import json]: when at least
    one chapter ends well, every run ends with the merge request, which
    carries the serialized list of the tagged results of the chapters that
    ended well, in chapter order, and the serialized template; the outcome
    of the run is the failure of the service on that request, or what the
    parser makes of the reply. *)
Theorem run_ends_with_the_merge_request
        (dumps : json -> str) (llm : request -> outcome str)
        (json_parser : str -> outcome json)
        (chapters : list ChapterUnit) (ks : json) (w : world)
        (res : outcome json * world) :
  extract_knowledge_points
    (init (real_service (LangChainService.with_json dumps) llm json_parser))
    chapters ks w res ->
  expected_results
    (init (real_service (LangChainService.with_json dumps) llm json_parser))
    ks chapters <> [] ->
  last (sent (snd res))
  = Some (LangChainService.merge_prompt
            (dumps (JList (expected_results
                             (init (real_service (LangChainService.with_json dumps)
                                                 llm json_parser))
                             ks chapters)))
            (dumps ks))
  /\ fst res
     = match llm (LangChainService.merge_prompt
                    (dumps (JList (expected_results
                                     (init (real_service (LangChainService.with_json dumps)
                                                         llm json_parser))
                                     ks chapters)))
                    (dumps ks)) with
       | Return text => json_parser text
       | Raise e => Raise e
       end.
Proof.
  set (self := init (real_service (LangChainService.with_json dumps) llm json_parser)).
  intros (cfg & results & Hrun & Hres & ->) Hne.
  pose proof (gathered_values self chapters ks _ cfg results Hrun Hres) as Hvals.
  destruct (collect_spec results (cw cfg)) as (records & _ & Hw & Hfst).
  rewrite finish_after_collect.
  destruct (successes results) as [|r rs] eqn:Hsucc.
  { exfalso. apply Hne. rewrite <- Hvals. reflexivity. }
  rewrite Hfst.
  change (svc_merge (langchain_service self))
    with (LangChainService.merge_knowledge_points
            (LangChainService.with_json dumps) llm json_parser).
  unfold try_except.
  rewrite (merge_with_json_run dumps llm json_parser (r :: rs) ks
                               (snd (collect results (cw cfg)))).
  rewrite (deref_store (snd (collect results (cw cfg))) (cw cfg))
    by (rewrite Hw; reflexivity).
  rewrite Hvals.
  destruct (llm _) as [text|e]; [destruct (json_parser text) as [v|e]|];
    unfold on_error, bind, raise, KnowledgeExtractor.logger, logging;
    cbn [fst snd store log sent]; rewrite last_snoc; auto.
Qed.

Lemma run_ends_with_the_merge_request_witness :
  fst (finish Cases.real_extractor Sample.template
              [Return 0%nat; Return 1%nat; Return 2%nat] (cw Cases.real_final))
  = match Cases.patient_llm
            (LangChainService.merge_prompt
               (Cases.dumps (JList (expected_results
                                      (init (real_service
                                               (LangChainService.with_json Cases.dumps)
                                               Cases.patient_llm Cases.json_parser))
                                      Sample.template Sample.chapters)))
               (Cases.dumps Sample.template)) with
    | Return text => Cases.json_parser text
    | Raise e => Raise e
    end.
Proof.
  refine (proj2 (run_ends_with_the_merge_request
                   Cases.dumps Cases.patient_llm Cases.json_parser
                   Sample.chapters Sample.template Cases.empty_world
                   (finish Cases.real_extractor Sample.template
                           [Return 0%nat; Return 1%nat; Return 2%nat]
                           (cw Cases.real_final))
                   _ _)).
  - exists Cases.real_final, [Return 0%nat; Return 1%nat; Return 2%nat].
    split; [apply run_schedule_rtc|]. split; [vm_compute; reflexivity|reflexivity].
  - vm_compute. discriminate.
Defined.

(** ** The segmenter, once more *)





















Section UnitFacts.
Variable re_findall : str -> str -> list str.
Variable split_text : str -> list str.




End UnitFacts.



(** ** The patterns under [re.IGNORECASE] *)

Lemma mtch_ext (r : Re.regex) (k1 k2 : str -> option str) (s : str) :
  (forall s', k1 s' = k2 s') -> Re.mtch r k1 s = Re.mtch r k2 s.
Proof.
  revert k1 k2 s.
  induction r as [|p|a IHa b IHb|a IHa b IHb|a IHa|a IHa|a IHa|]; intros k1 k2 s Hk;
    cbn [Re.mtch].
  - apply Hk.
  - destruct s as [|c s']; [reflexivity|]. destruct (p c); [apply Hk|reflexivity].
  - apply IHa. intros s'. apply IHb. exact Hk.
  - rewrite (IHa k1 k2 s Hk), (IHb k1 k2 s Hk). reflexivity.
  - generalize (length s) as fuel. intros fuel. revert s.
    induction fuel as [|fuel IHf]; intros s; [apply Hk|].
    rewrite Hk.
    match goal with
    | |- match Re.mtch a ?f1 s with _ => _ end = match Re.mtch a ?f2 s with _ => _ end =>
        rewrite (IHa f1 f2 s); [reflexivity|]
    end.
    intros s'. destruct (length s' <? length s)%nat; [apply IHf|reflexivity].
  - generalize (length s) as fuel. intros fuel. revert s.
    induction fuel as [|fuel IHf]; intros s; [apply Hk|].
    rewrite Hk. destruct (k2 s); [reflexivity|].
    apply IHa. intros s'. destruct (length s' <? length s)%nat; [apply IHf|reflexivity].
  - rewrite Hk. reflexivity.
  - destruct s as [|c [|d s']]; rewrite ?Hk; reflexivity.
Qed.

Lemma scan_ext (r1 r2 : Re.regex) (fuel : nat) (s : str) :
  (forall s', Re.mtch r1 Some s' = Re.mtch r2 Some s') ->
  Re.scan r1 fuel s = Re.scan r2 fuel s.
Proof.
  intros H. revert s. induction fuel as [|fuel IH]; intros s; [reflexivity|].
  cbn [Re.scan]. rewrite H.
  destruct (Re.mtch r2 Some s) as [rest|].
  - rewrite IH. destruct s as [|c s']; [reflexivity|]. rewrite IH. reflexivity.
  - destruct s as [|c s']; [reflexivity|]. apply IH.
Qed.

Lemma try_patterns_skip (re_findall : str -> str -> list str)
      (p1 p2 p3 : str) (rest : list str) (text : str) :
  re_findall p3 text = re_findall p2 text ->
  try_patterns re_findall (p1 :: p2 :: p3 :: rest) text
  = try_patterns re_findall (p1 :: p2 :: rest) text.
Proof.
  intros E. cbn [try_patterns]. rewrite E.
  destruct (negb (bool_decide (re_findall p1 text = [])) && _); [reflexivity|].
  destruct (negb (bool_decide (re_findall p2 text = [])) && _); reflexivity.
Qed.

Section CaseFolding.
Variable T : Re.tables.

Lemma word_folds (w1 w2 : str) (k : str -> option str) (s : str) :
  Forall2 (fun a b => Re.lower T a = Re.lower T b) w1 w2 ->
  Re.mtch (Re.word T w1) k s = Re.mtch (Re.word T w2) k s.
Proof.
  intros H. revert s. induction H as [|a b w1 w2 Hab _ IH]; intros s; [reflexivity|].
  change (Re.word T (a :: w1)) with (Re.Seq (Re.lit T a) (Re.word T w1)).
  change (Re.word T (b :: w2)) with (Re.Seq (Re.lit T b) (Re.word T w2)).
  cbn [Re.mtch]. unfold Re.lit. cbn [Re.mtch].
  destruct s as [|c s']; [reflexivity|]. rewrite Hab.
  destruct (_ =? _); [apply IH|reflexivity].
Qed.

Lemma up_to_next_folds (w1 w2 : str) (tail : list Re.regex)
      (k : str -> option str) (s : str) :
  Forall2 (fun a b => Re.lower T a = Re.lower T b) w1 w2 ->
  Re.mtch (Re.up_to_next (Re.seq (Re.word T w1 :: tail))) k s
  = Re.mtch (Re.up_to_next (Re.seq (Re.word T w2 :: tail))) k s.
Proof.
  intros H.
  assert (Hm : forall k s,
             Re.mtch (Re.seq (Re.word T w1 :: tail)) k s
             = Re.mtch (Re.seq (Re.word T w2 :: tail)) k s).
  { intros k' s'.
    change (Re.seq (Re.word T w1 :: tail)) with (Re.Seq (Re.word T w1) (Re.seq tail)).
    change (Re.seq (Re.word T w2 :: tail)) with (Re.Seq (Re.word T w2) (Re.seq tail)).
    cbn [Re.mtch]. apply word_folds. exact H. }
  unfold Re.up_to_next.
  change (Re.seq [?m; ?l; ?a]) with (Re.Seq m (Re.Seq l (Re.Seq a Re.Eps))).
  cbn [Re.mtch]. rewrite Hm. apply mtch_ext. intros s1.
  apply (mtch_ext (Re.LazyStar Re.any)). intros s2.
  cbn [Re.mtch]. rewrite Hm. reflexivity.
Qed.

(** X15. Under [re.IGNORECASE] the third pattern, [CHAPTER\s+\d+...], has
    the matches of the second, [Chapter\s+\d+...], on every text, so it
    never decides a segmentation: the patterns give the same chapters
    without it. *)
Theorem third_pattern_never_decides (text : str) :
  Forall2 (fun a b => Re.lower T a = Re.lower T b) (py "CHAPTER") (py "Chapter") ->
  Re.re_findall T (py "CHAPTER\s+\d+.*?(?=CHAPTER\s+\d+|$)") text
  = Re.re_findall T (py "Chapter\s+\d+.*?(?=Chapter\s+\d+|$)") text
  /\ try_patterns (Re.re_findall T) chapter_patterns text
     = try_patterns (Re.re_findall T)
         [ py "第[一二三四五六七八九十\d]+章.*?(?=第[一二三四五六七八九十\d]+章|$)";
           py "Chapter\s+\d+.*?(?=Chapter\s+\d+|$)";
           py "\n\d+\..*?(?=\n\d+\.|$)";
           py "\n[A-Z][^.]*\n.*?(?=\n[A-Z][^.]*\n|$)" ] text.
Proof.
  intros H.
  assert (E : Re.re_findall T (py "CHAPTER\s+\d+.*?(?=CHAPTER\s+\d+|$)") text
              = Re.re_findall T (py "Chapter\s+\d+.*?(?=Chapter\s+\d+|$)") text).
  { unfold Re.re_findall.
    replace (Re.compile T (py "CHAPTER\s+\d+.*?(?=CHAPTER\s+\d+|$)"))
      with (Some (Re.up_to_next
                    (Re.seq [Re.word T (py "CHAPTER"); Re.Plus Re.space;
                             Re.Plus (Re.digit T)])))
      by (vm_compute; reflexivity).
    replace (Re.compile T (py "Chapter\s+\d+.*?(?=Chapter\s+\d+|$)"))
      with (Some (Re.up_to_next
                    (Re.seq [Re.word T (py "Chapter"); Re.Plus Re.space;
                             Re.Plus (Re.digit T)])))
      by (vm_compute; reflexivity).
    unfold Re.findall. apply scan_ext. intros s'. apply up_to_next_folds. exact H. }
  split; [exact E|].
  unfold chapter_patterns. apply try_patterns_skip. exact E.
Qed.

End CaseFolding.

Lemma third_pattern_never_decides_witness :
  Re.re_findall Re.ascii_tables (py "CHAPTER\s+\d+.*?(?=CHAPTER\s+\d+|$)") Sample.text
  = Re.re_findall Re.ascii_tables (py "Chapter\s+\d+.*?(?=Chapter\s+\d+|$)") Sample.text.
Proof.
  refine (proj1 (third_pattern_never_decides Re.ascii_tables Sample.text _)).
  vm_compute. repeat (apply List.Forall2_cons; [reflexivity|]). apply List.Forall2_nil.
Defined.

(** * The uploads and the endpoint *)

Import FileValidator.

(** X16. [validate_pdf] accepts an upload exactly when its lowered name
    ends in [.pdf], what is read of it is at most 50 MB (a file of exactly
    that size passes) and starts with [%PDF]. An accepted upload is rewound
    to its beginning; a rejected one raises an [HTTPException] with status
    400 and logs nothing. *)
Theorem validate_pdf_accepts
        (str_lower : str -> str) (pdf_file : UploadFile) (w : world) :
  let file_content := drop (position pdf_file) (data pdf_file) in
  let res := validate_pdf str_lower pdf_file w in
  (fst (fst res) = None
   <-> endswith (py ".pdf") (str_lower (filename pdf_file)) = true
       /\ N.of_nat (length file_content) <= max_file_size
       /\ startswith (py "%PDF") file_content = true)
  /\ (fst (fst res) = None ->
      snd (fst res) = {| filename := filename pdf_file; data := data pdf_file;
                         position := 0 |})
  /\ (forall e, fst (fst res) = Some e ->
                (exists detail, e = HTTPException 400 detail) /\ snd res = w).
Proof.
  intros file_content res. subst res. unfold validate_pdf, read.
  fold file_content.
  destruct (endswith _ _); cbn [negb].
  - destruct (N.ltb_spec max_file_size (N.of_nat (length file_content))) as [Hbig|Hok].
    + cbn [fst snd]. split; [split; [discriminate|intros (_ & H & _); lia]|].
      split; [discriminate|]. intros e H. injection H as <-. eauto.
    + destruct (startswith _ _); cbn [negb fst snd].
      * split; [split; auto|]. split; [reflexivity|discriminate].
      * split; [split; [discriminate|intros (_ & _ & H); discriminate]|].
        split; [discriminate|]. intros e H. injection H as <-. eauto.
  - cbn [fst snd]. split; [split; [discriminate|intros (H & _); discriminate]|].
    split; [discriminate|]. intros e H. injection H as <-. eauto.
Qed.

(** X17. [validate_json] accepts an upload exactly when its lowered name
    ends in [.json], what is read of it is at most 10 MB, decodes as UTF-8
    and parses to a JSON object. An accepted upload is rewound to its
    beginning. A rejection is an [HTTPException] with status 400, except
    that an exception of the parser other than [JSONDecodeError] is raised
    as it is. *)
Theorem validate_json_accepts
        (str_lower : str -> str) (decode : list N -> outcome str)
        (json_loads : str -> outcome json) (json_file : UploadFile) (w : world) :
  let file_content := drop (position json_file) (data json_file) in
  let res := validate_json str_lower decode json_loads json_file w in
  (fst (fst res) = None
   <-> endswith (py ".json") (str_lower (filename json_file)) = true
       /\ N.of_nat (length file_content) <= 10 * 1024 * 1024
       /\ exists text d, decode file_content = Return text
                         /\ json_loads text = Return (JDict d))
  /\ (fst (fst res) = None ->
      snd (fst res) = {| filename := filename json_file; data := data json_file;
                         position := 0 |})
  /\ (forall e, fst (fst res) = Some e ->
                snd res = w
                /\ ((exists detail, e = HTTPException 400 detail)
                    \/ exists text x, decode file_content = Return text
                                      /\ json_loads text = Raise x
                                      /\ e = Other x
                                      /\ exn_class x <> "JSONDecodeError"%string)).
Proof.
  intros file_content res. subst res. unfold validate_json, read.
  fold file_content.
  destruct (endswith _ _); cbn [negb].
  2:{ cbn [fst snd]. split; [split; [discriminate|intros (H & _); discriminate]|].
      split; [discriminate|]. intros e H. injection H as <-. eauto. }
  destruct (N.ltb_spec (10 * 1024 * 1024) (N.of_nat (length file_content))) as [Hbig|Hok].
  { cbn [fst snd]. split; [split; [discriminate|intros (_ & H & _); lia]|].
    split; [discriminate|]. intros e H. injection H as <-. eauto. }
  destruct (decode file_content) as [text|x] eqn:Ed.
  2:{ cbn [fst snd].
      split; [split; [discriminate|intros (_ & _ & t & d & H & _); discriminate]|].
      split; [discriminate|]. intros e H. injection H as <-. eauto. }
  destruct (json_loads text) as [v|x] eqn:El.
  - destruct v; cbn [is_object negb fst snd];
      try (split; [split; [discriminate|
                           intros (_ & _ & t & d & Ht & Hd); congruence]|];
           split; [discriminate|]; intros e H; injection H as <-; eauto).
    split; [split; [intros _|reflexivity]|]; [eauto 8|].
    split; [reflexivity|discriminate].
  - destruct (String.eqb_spec (exn_class x) "JSONDecodeError") as [Hc|Hc]; cbn [fst snd].
    + split; [split; [discriminate|intros (_ & _ & t & d & Ht & Hd); congruence]|].
      split; [discriminate|]. intros e H. injection H as <-. eauto.
    + split; [split; [discriminate|intros (_ & _ & t & d & Ht & Hd); congruence]|].
      split; [discriminate|]. intros e H. injection H as <-.
      split; [reflexivity|]. right. eauto 8.
Qed.

Import Main.

Lemma validate_pdf_any_world (str_lower : str -> str) (f : UploadFile) (w w' : world) :
  fst (validate_pdf str_lower f w) = fst (validate_pdf str_lower f w').
Proof.
  unfold validate_pdf, read.
  destruct (endswith _ _); cbn [negb]; [|reflexivity].
  destruct (_ <? _); [reflexivity|].
  destruct (startswith _ _); reflexivity.
Qed.

Lemma validate_json_any_world
      (str_lower : str -> str) (decode : list N -> outcome str)
      (json_loads : str -> outcome json) (f : UploadFile) (w w' : world) :
  fst (validate_json str_lower decode json_loads f w)
  = fst (validate_json str_lower decode json_loads f w').
Proof.
  unfold validate_json, read.
  destruct (endswith _ _); cbn [negb]; [|reflexivity].
  destruct (_ <? _); [reflexivity|].
  destruct (decode _); [|reflexivity].
  destruct (json_loads _) as [v|x]; [|destruct (String.eqb _ _); reflexivity].
  destruct (is_object v); reflexivity.
Qed.

Section EndpointFacts.
Variable E : env.

Lemma logger_runs (lvl : level) (msg : str) (s : state) :
  logger E lvl msg s
  = (inl tt, set_world (snd (logging (main_name E) lvl msg (wld s))) s).
Proof. reflexivity. Qed.

(** Validation touches neither the disk nor the locals. *)
Lemma validate_uploads_frame (s : state) :
  files (snd (validate_uploads E s)) = files s
  /\ pdf_path (snd (validate_uploads E s)) = pdf_path s
  /\ json_path (snd (validate_uploads E s)) = json_path s.
Proof.
  unfold validate_uploads.
  destruct (validate_pdf _ _ _) as [[[e|] f] w]; [cbn; auto|].
  destruct (validate_json _ _ _ _ _) as [[[e|] f'] w']; cbn; auto.
Qed.

(** Its verdict does not depend on the world. *)
Lemma validate_uploads_verdict (s : state) (w : world) :
  fst (validate_uploads E (set_world w s)) = fst (validate_uploads E s).
Proof.
  unfold validate_uploads. cbn [pdf_file json_file wld set_world].
  pose proof (validate_pdf_any_world (str_lower E) (pdf_file s) w (wld s)) as Hp.
  destruct (validate_pdf _ (pdf_file s) w) as [[r f] w1],
           (validate_pdf _ (pdf_file s) (wld s)) as [[r' f'] w1'].
  cbn [fst] in Hp. injection Hp as -> ->.
  destruct r' as [e|]; [reflexivity|].
  cbn [pdf_file json_file wld set_world set_pdf_file].
  pose proof (validate_json_any_world (str_lower E) (decode E) (json_loads E)
                                      (json_file s) w1 w1') as Hj.
  destruct (validate_json _ _ _ (json_file s) w1) as [[r f] w2],
           (validate_json _ _ _ (json_file s) w1') as [[r' f''] w2'].
  cbn [fst] in Hj. injection Hj as -> ->.
  destruct r' as [e|]; reflexivity.
Qed.

(** The handler with [pdf_path] unbound: evaluating the list of the loop
    raises. *)
Lemma on_error_unbound (e : error) (s : state) :
  pdf_path s = None ->
  on_error E e s
  = (inr (Other (unbound_local E "pdf_path")),
     set_world (snd (logging (main_name E) ERROR
                             (py "Error processing files: " ++ error_str E e) (wld s))) s).
Proof.
  intros H. unfold on_error, io_bind. rewrite logger_runs.
  unfold local. cbn [pdf_path set_world]. rewrite H. reflexivity.
Qed.

Lemma before_extraction_rejected (s : state) (e : error) :
  fst (validate_uploads E s) = inr e ->
  exists s1, before_extraction E s = (inr e, s1)
             /\ files s1 = files s /\ pdf_path s1 = pdf_path s
             /\ json_path s1 = json_path s.
Proof.
  intros H. unfold before_extraction, io_bind at 1. rewrite logger_runs.
  unfold io_bind at 1.
  match goal with
  | |- context [validate_uploads E (set_world ?w s)] =>
      pose proof (validate_uploads_verdict s w) as Hv;
      pose proof (validate_uploads_frame (set_world w s)) as Hf;
      destruct (validate_uploads E (set_world w s)) as [r s1]
  end.
  cbn [fst snd] in Hv, Hf. rewrite H in Hv. subst r.
  exists s1. split; [reflexivity|exact Hf].
Qed.

End EndpointFacts.

(** X18. The client never sees the 400 of a rejected upload. When
    [validate_pdf] or [validate_json] raises, the handler of
    [process_files] catches it, and its cleanup loop reads [pdf_path] before
    it was assigned: the [UnboundLocalError] escapes, and the answer is the
    500 of [global_exception_handler] with that error as its text. Nothing
    was written to disk. *)
Theorem rejected_upload_is_answered_with_500
        (E : env) (pdf_name : str) (pdf_bytes : list N)
        (json_name : str) (json_bytes : list N)
        (fs : list (str * list N)) (w : world)
        (res : (ProcessResponse + error) * state) :
  fst (fst (validate_pdf (str_lower E)
              {| filename := pdf_name; data := pdf_bytes; position := 0 |} w)) <> None
  \/ fst (fst (validate_json (str_lower E) (decode E) (json_loads E)
                 {| filename := json_name; data := json_bytes; position := 0 |} w))
     <> None ->
  process_files E (incoming pdf_name pdf_bytes json_name json_bytes fs w) res ->
  fst (answer E res)
  = ServerError (py "Internal server error") (exn_msg (unbound_local E "pdf_path"))
  /\ files (snd (answer E res)) = fs.
Proof.
  intros Hrej Hrun.
  set (s := incoming pdf_name pdf_bytes json_name json_bytes fs w) in *.
  assert (Hv : exists e, fst (validate_uploads E s) = inr e).
  { unfold validate_uploads. subst s. cbn [incoming pdf_file json_file wld].
    destruct (validate_pdf _ _ w) as [[[e|] f] w1] eqn:Hp; [eexists; reflexivity|].
    cbn [set_world set_pdf_file json_file wld].
    pose proof (validate_json_any_world (str_lower E) (decode E) (json_loads E)
                  {| filename := json_name; data := json_bytes; position := 0 |}
                  w1 w) as Hj.
    destruct (validate_json _ _ _ _ w1) as [[[e|] f'] w2]; [eexists; reflexivity|].
    exfalso. destruct Hrej as [H|H]; apply H; [reflexivity|].
    rewrite <- Hj. reflexivity. }
  destruct Hv as [e He].
  destruct (before_extraction_rejected E s e He) as (s1 & Hb & Hfiles & Hpath & _).
  unfold process_files in Hrun. rewrite Hb in Hrun. subst res.
  rewrite on_error_unbound by (rewrite Hpath; reflexivity).
  unfold answer, global_exception_handler. cbn [fst snd].
  split; [reflexivity|]. rewrite logger_runs. cbn [snd set_world files]. exact Hfiles.
Qed.

Lemma rejected_upload_is_answered_with_500_witness :
  exists res,
    process_files Uploads.E Uploads.bad res
    /\ fst (answer Uploads.E res)
       = ServerError (py "Internal server error")
                     (exn_msg (unbound_local Uploads.E "pdf_path")).
Proof.
  destruct (before_extraction Uploads.E Uploads.bad) as [[[c k]|e] s1] eqn:Hb.
  - exfalso. revert Hb. vm_compute. discriminate.
  - exists (on_error Uploads.E e s1).
    assert (Hp : process_files Uploads.E Uploads.bad (on_error Uploads.E e s1))
      by (unfold process_files; rewrite Hb; reflexivity).
    split; [exact Hp|].
    refine (proj1 (rejected_upload_is_answered_with_500
                     Uploads.E (py "notes.txt") (py "plain text")
                     (py "template.json") (py "{}")
                     [(py "temp_uploads/old.pdf", py "%PDF old")] Cases.empty_world
                     _ _ Hp)).
    left. vm_compute. discriminate.
Defined.

Lemma fs_lookup_delete (p : str) (fs : list (str * list N)) :
  fs_lookup p (fs_delete p fs) = None.
Proof.
  unfold fs_delete. induction fs as [|[q b] fs IH]; [reflexivity|].
  rewrite filter_cons. cbn [fst]. destruct (decide (q <> p)) as [Hne|Heq]; [|exact IH].
  cbn [fs_lookup]. rewrite bool_decide_eq_false_2 by exact Hne. exact IH.
Qed.

Lemma fs_lookup_delete_ne (p q : str) (fs : list (str * list N)) :
  q <> p -> fs_lookup q (fs_delete p fs) = fs_lookup q fs.
Proof.
  intros Hqp. unfold fs_delete. induction fs as [|[r b] fs IH]; [reflexivity|].
  rewrite filter_cons. cbn [fst fs_lookup].
  destruct (decide (r <> p)) as [Hne|Heq].
  - cbn [fs_lookup]. destruct (bool_decide (r = q)); [reflexivity|exact IH].
  - apply dec_stable in Heq. subst r.
    rewrite bool_decide_eq_false_2 by congruence. exact IH.
Qed.

Lemma fs_lookup_write_ne (p q : str) (b : list N) (fs : list (str * list N)) :
  q <> p -> fs_lookup q (fs_write p b fs) = fs_lookup q fs.
Proof.
  intros Hqp. unfold fs_write. cbn [fs_lookup].
  rewrite bool_decide_eq_false_2 by congruence. now apply fs_lookup_delete_ne.
Qed.

Lemma fs_absent_delete (p q : str) (fs : list (str * list N)) :
  fs_lookup q fs = None -> fs_lookup q (fs_delete p fs) = None.
Proof.
  intros H. destruct (decide (q = p)) as [->|Hne]; [apply fs_lookup_delete|].
  now rewrite fs_lookup_delete_ne.
Qed.

Section Cleanup.
Variable E : env.
Variable fs : list (str * list N).
Variable p1 p2 : str.

Lemma saved_set_world (w : world) (s : state) :
  saved fs p1 p2 s -> saved fs p1 p2 (set_world w s).
Proof. intros H. exact H. Qed.

Lemma absent_set_world (p : str) (w : world) (s : state) :
  absent p s -> absent p (set_world w s).
Proof. intros H. exact H. Qed.

(** One round of the cleanup loop: the path is gone, what was gone stays
    gone, the other files stay. *)
Lemma cleanup_effect (p : str) (s : state) :
  saved fs p1 p2 s -> p = p1 \/ p = p2 ->
  exists s', cleanup p s = (inl tt, s')
             /\ saved fs p1 p2 s' /\ absent p s'
             /\ forall q, absent q s -> absent q s'.
Proof.
  intros (H1 & H2 & H3) Hp. unfold cleanup, exists_, absent, saved.
  destruct (fs_lookup p (files s)) as [b|] eqn:Hl.
  - eexists. split; [reflexivity|]. cbn [set_files files pdf_path json_path].
    split; [|split].
    + split; [exact H1|]. split; [exact H2|]. intros q Hq1 Hq2.
      rewrite fs_lookup_delete_ne by (destruct Hp; congruence). now apply H3.
    + apply fs_lookup_delete.
    + intros q Hq. now apply fs_absent_delete.
  - exists s. split; [reflexivity|]. split; [now split|]. split; [exact Hl|auto].
Qed.

(** The handler once the paths are bound: both files are gone, the other
    files stay, and the [HTTPException] with status 500 is raised. *)
Lemma on_error_bound (e : error) (s : state) :
  saved fs p1 p2 s ->
  exists s', on_error E e s
             = (inr (HTTPException 500 (py "Failed to process files: " ++ error_str E e)),
                s')
             /\ saved fs p1 p2 s' /\ absent p1 s' /\ absent p2 s'.
Proof.
  intros Hs. unfold on_error, io_bind at 1. rewrite logger_runs.
  apply (saved_set_world (snd (logging (main_name E) ERROR
                                 (py "Error processing files: " ++ error_str E e)
                                 (wld s)))) in Hs.
  revert Hs. generalize (set_world (snd (logging (main_name E) ERROR
                                 (py "Error processing files: " ++ error_str E e)
                                 (wld s))) s).
  intros s0 Hs. pose proof Hs as (H1 & H2 & _).
  unfold io_bind at 1, local at 1. rewrite H1.
  unfold io_bind at 1, local at 1. rewrite H2.
  destruct (cleanup_effect p1 s0 Hs (or_introl eq_refl)) as (s1 & Hc1 & Hs1 & Ha1 & _).
  unfold io_bind at 1. rewrite Hc1.
  destruct (cleanup_effect p2 s1 Hs1 (or_intror eq_refl)) as (s2 & Hc2 & Hs2 & Ha2 & Hk).
  unfold io_bind at 1. rewrite Hc2.
  exists s2. split; [reflexivity|]. auto.
Qed.

End Cleanup.

Lemma validate_pdf_name (str_lower : str -> str) (f : UploadFile) (w : world) :
  filename (snd (fst (validate_pdf str_lower f w))) = filename f.
Proof.
  unfold validate_pdf, read.
  destruct (endswith _ _); cbn [negb]; [|reflexivity].
  destruct (_ <? _); [reflexivity|].
  destruct (startswith _ _); reflexivity.
Qed.

Lemma validate_json_name
      (str_lower : str -> str) (decode : list N -> outcome str)
      (json_loads : str -> outcome json) (f : UploadFile) (w : world) :
  filename (snd (fst (validate_json str_lower decode json_loads f w))) = filename f.
Proof.
  unfold validate_json, read.
  destruct (endswith _ _); cbn [negb]; [|reflexivity].
  destruct (_ <? _); [reflexivity|].
  destruct (decode _); [|reflexivity].
  destruct (json_loads _) as [v|x]; [|destruct (String.eqb _ _); reflexivity].
  destruct (is_object v); reflexivity.
Qed.

Section Requests.
Variable E : env.

Lemma validate_uploads_names (s : state) :
  filename (pdf_file (snd (validate_uploads E s))) = filename (pdf_file s)
  /\ filename (json_file (snd (validate_uploads E s))) = filename (json_file s).
Proof.
  unfold validate_uploads.
  pose proof (validate_pdf_name (str_lower E) (pdf_file s) (wld s)) as Hp.
  destruct (validate_pdf _ _ _) as [[[e|] f] w]; cbn [fst snd] in Hp; [cbn; auto|].
  cbn [set_world set_pdf_file json_file wld].
  pose proof (validate_json_name (str_lower E) (decode E) (json_loads E)
                                 (json_file s) w) as Hj.
  destruct (validate_json _ _ _ _ _) as [[[e|] f'] w']; cbn [fst snd] in Hj; cbn; auto.
Qed.

Lemma save_uploads_saved (s : state) :
  exists s', save_uploads s = (inl tt, s')
             /\ saved (files s)
                      (py "temp_uploads" ++ py "/" ++ filename (pdf_file s))
                      (py "temp_uploads" ++ py "/" ++ filename (json_file s)) s'.
Proof.
  unfold save_uploads, read. eexists. split; [reflexivity|].
  unfold saved. cbn [set_files set_pdf_file set_json_file set_pdf_path set_json_path
                     files pdf_path json_path pdf_file json_file filename].
  split; [reflexivity|]. split; [reflexivity|].
  intros q Hq1 Hq2. rewrite !fs_lookup_write_ne by assumption. reflexivity.
Qed.

Lemma call_saved {A} (fs : list (str * list N)) (p1 p2 : str) (c : M A) (s : state) :
  saved fs p1 p2 s -> saved fs p1 p2 (snd (call c s)).
Proof.
  intros H. unfold call. destruct (c (wld s)) as [[a|e] w]; exact H.
Qed.

(** Once the uploads passed validation, the rest of the block up to the
    orchestrator runs with both paths bound and both files written. *)
Lemma before_extraction_accepted (s : state) :
  fst (validate_uploads E s) = inl tt ->
  saved (files s)
        (py "temp_uploads" ++ py "/" ++ filename (pdf_file s))
        (py "temp_uploads" ++ py "/" ++ filename (json_file s))
        (snd (before_extraction E s)).
Proof.
  intros H. unfold before_extraction, io_bind at 1. rewrite logger_runs.
  unfold io_bind at 1.
  match goal with
  | |- context [validate_uploads E (set_world ?w s)] =>
      pose proof (validate_uploads_verdict E s w) as Hv;
      pose proof (validate_uploads_frame E (set_world w s)) as (Hf & _);
      pose proof (validate_uploads_names (set_world w s)) as (Hn1 & Hn2);
      destruct (validate_uploads E (set_world w s)) as [r s1]
  end.
  cbn [fst snd set_world files pdf_file json_file] in Hv, Hf, Hn1, Hn2.
  rewrite H in Hv. subst r.
  destruct (save_uploads_saved s1) as (s2 & Hsave & Hs2).
  rewrite Hf, Hn1, Hn2 in Hs2.
  unfold io_bind at 1. rewrite Hsave.
  pose proof Hs2 as (H1 & H2 & _).
  unfold io_bind at 1, local at 1. rewrite H2.
  unfold io_bind at 1.
  match goal with
  | |- context [call ?c s2] =>
      pose proof (call_saved _ _ _ c s2 Hs2) as Hs3; destruct (call c s2) as [[ks|e] s3]
  end; cbn [snd] in Hs3; [|exact Hs3].
  unfold io_bind at 1. rewrite logger_runs.
  pose proof (saved_set_world _ _ _
                (snd (logging (main_name E) INFO
                        (py "Successfully parsed knowledge structure JSON") (wld s3)))
                s3 Hs3) as Hs4.
  revert Hs4. generalize (set_world
                (snd (logging (main_name E) INFO
                        (py "Successfully parsed knowledge structure JSON") (wld s3)))
                s3).
  intros s4 Hs4. pose proof Hs4 as (H1' & _).
  unfold io_bind at 1, local at 1. rewrite H1'.
  unfold io_bind at 1.
  match goal with
  | |- context [call ?c s4] =>
      pose proof (call_saved _ _ _ c s4 Hs4) as Hs5; destruct (call c s4) as [[ch|e] s5]
  end; cbn [snd] in Hs5; [|exact Hs5].
  unfold io_bind at 1. rewrite logger_runs. exact Hs5.
Qed.

Lemma remove_effect (fs : list (str * list N)) (p1 p2 p : str) (s : state) :
  saved fs p1 p2 s -> p = p1 \/ p = p2 ->
  saved fs p1 p2 (snd (remove E p s))
  /\ (fst (remove E p s) = inl tt -> absent p (snd (remove E p s)))
  /\ forall q, absent q s -> absent q (snd (remove E p s)).
Proof.
  intros (H1 & H2 & H3) Hp. unfold remove, exists_, absent, saved.
  destruct (fs_lookup p (files s)) as [b|] eqn:Hl; cbn [fst snd].
  - cbn [set_files files pdf_path json_path]. split; [|split].
    + split; [exact H1|]. split; [exact H2|]. intros q Hq1 Hq2.
      rewrite fs_lookup_delete_ne by (destruct Hp; congruence). now apply H3.
    + intros _. apply fs_lookup_delete.
    + intros q Hq. now apply fs_absent_delete.
  - split; [now split|]. split; [discriminate|auto].
Qed.

(** The block after the orchestrator: when it returns a response, both
    files were removed and the data is a JSON object. *)
Lemma after_extraction_effect (fs : list (str * list N)) (p1 p2 : str)
      (v : json) (s : state) :
  saved fs p1 p2 s ->
  saved fs p1 p2 (snd (after_extraction E v s))
  /\ forall body, fst (after_extraction E v s) = inl body ->
                  absent p1 (snd (after_extraction E v s))
                  /\ absent p2 (snd (after_extraction E v s))
                  /\ is_object v = true
                  /\ response_data body = v
                  /\ success body = true.
Proof.
  intros Hs. pose proof Hs as (H1 & H2 & _).
  assert (Hrun : forall r s',
             after_extraction E v s = (r, s') ->
             saved fs p1 p2 s'
             /\ forall body, r = inl body ->
                             absent p1 s' /\ absent p2 s' /\ is_object v = true
                             /\ response_data body = v /\ success body = true).
  { intros r s'.
    unfold after_extraction, io_bind at 1, local at 1. rewrite H1.
    unfold io_bind at 1.
    destruct (remove_effect fs p1 p2 p1 s Hs (or_introl eq_refl)) as (Hs1 & Ha1 & _).
    destruct (remove E p1 s) as [[[]|e] s1]; cbn [fst snd] in Hs1, Ha1;
      [|intros H; injection H as <- <-; split; [exact Hs1|discriminate]].
    specialize (Ha1 eq_refl). pose proof Hs1 as (_ & H2' & _).
    unfold io_bind at 1, local at 1. rewrite H2'.
    unfold io_bind at 1.
    destruct (remove_effect fs p1 p2 p2 s1 Hs1 (or_intror eq_refl)) as (Hs2 & Ha2 & Hk).
    destruct (remove E p2 s1) as [[[]|e] s2]; cbn [fst snd] in Hs2, Ha2, Hk;
      [|intros H; injection H as <- <-; split; [exact Hs2|discriminate]].
    specialize (Ha2 eq_refl). specialize (Hk p1 Ha1).
    unfold io_bind at 1. rewrite logger_runs.
    destruct (is_object v); cbn [io_ret io_raise]; intros H; injection H as <- <-.
    - split; [exact Hs2|]. intros body H. injection H as <-. cbn. auto.
    - split; [exact Hs2|discriminate]. }
  destruct (after_extraction E v s) as [r s'].
  destruct (Hrun r s' eq_refl) as [Hsaved Hbody]. cbn [fst snd]. auto.
Qed.

End Requests.

Lemma validate_uploads_accepts
      (E : env) (pdf_name : str) (pdf_bytes : list N)
      (json_name : str) (json_bytes : list N)
      (fs : list (str * list N)) (w : world) :
  fst (fst (validate_pdf (str_lower E)
              {| filename := pdf_name; data := pdf_bytes; position := 0 |} w)) = None ->
  fst (fst (validate_json (str_lower E) (decode E) (json_loads E)
              {| filename := json_name; data := json_bytes; position := 0 |} w)) = None ->
  fst (validate_uploads E (incoming pdf_name pdf_bytes json_name json_bytes fs w))
  = inl tt.
Proof.
  intros Hp Hj. unfold validate_uploads. cbn [incoming pdf_file json_file wld].
  destruct (validate_pdf _ _ w) as [[[e|] f] w1]; [discriminate|].
  cbn [set_world set_pdf_file json_file wld].
  pose proof (validate_json_any_world (str_lower E) (decode E) (json_loads E)
                {| filename := json_name; data := json_bytes; position := 0 |}
                w1 w) as Hw.
  destruct (validate_json _ _ _ _ w1) as [[r f'] w2]. cbn [fst] in Hw.
  rewrite <- Hw in Hj. cbn [fst] in Hj. subst r. reflexivity.
Qed.

(** X19. A request whose uploads pass validation leaves no temporary file
    behind, however it ends: with a response, with a failure of the parsing,
    of the loading, of the orchestrator or of the response model. At the end
    of [process_files] neither [temp_uploads/<pdf name>] nor
    [temp_uploads/<json name>] exists (a file that was there under one of
    these names before the request is gone too), and every other file is
    what it was. *)
Theorem no_temp_file_is_left
        (E : env) (pdf_name : str) (pdf_bytes : list N)
        (json_name : str) (json_bytes : list N)
        (fs : list (str * list N)) (w : world)
        (res : (ProcessResponse + error) * state) :
  fst (fst (validate_pdf (str_lower E)
              {| filename := pdf_name; data := pdf_bytes; position := 0 |} w)) = None ->
  fst (fst (validate_json (str_lower E) (decode E) (json_loads E)
              {| filename := json_name; data := json_bytes; position := 0 |} w)) = None ->
  process_files E (incoming pdf_name pdf_bytes json_name json_bytes fs w) res ->
  fs_lookup (py "temp_uploads" ++ py "/" ++ pdf_name) (files (snd res)) = None
  /\ fs_lookup (py "temp_uploads" ++ py "/" ++ json_name) (files (snd res)) = None
  /\ forall q, q <> py "temp_uploads" ++ py "/" ++ pdf_name ->
               q <> py "temp_uploads" ++ py "/" ++ json_name ->
               fs_lookup q (files (snd res)) = fs_lookup q fs.
Proof.
  intros Hp Hj Hrun.
  pose proof (validate_uploads_accepts E pdf_name pdf_bytes json_name json_bytes fs w
                                       Hp Hj) as Hv.
  pose proof (before_extraction_accepted E _ Hv) as Hs.
  cbn [incoming files pdf_file json_file filename] in Hs.
  set (p1 := py "temp_uploads" ++ py "/" ++ pdf_name) in *.
  set (p2 := py "temp_uploads" ++ py "/" ++ json_name) in *.
  assert (Hend : saved fs p1 p2 (snd res) /\ absent p1 (snd res) /\ absent p2 (snd res)).
  { unfold process_files in Hrun.
    destruct (before_extraction E _) as [[[chapters ks]|e] s1]; cbn [snd] in Hs.
    - destruct Hrun as (r & _ & ->).
      pose proof (saved_set_world fs p1 p2 (snd r) s1 Hs) as Hs'.
      destruct (fst r) as [v|e].
      + unfold io_try.
        destruct (after_extraction_effect E fs p1 p2 v _ Hs') as [Hs2 Hbody].
        destruct (after_extraction E v (set_world (snd r) s1)) as [[body|e] s2];
          cbn [fst snd] in Hs2, Hbody.
        * destruct (Hbody body eq_refl) as (Ha1 & Ha2 & _). cbn [snd]. auto.
        * destruct (on_error_bound E fs p1 p2 e s2 Hs2) as (s3 & -> & H). exact H.
      + destruct (on_error_bound E fs p1 p2 (Other e) _ Hs') as (s3 & -> & H). exact H.
    - subst res. destruct (on_error_bound E fs p1 p2 e s1 Hs) as (s3 & -> & H). exact H. }
  destruct Hend as ((_ & _ & Hother) & Ha1 & Ha2). auto.
Qed.

Lemma extraction_run_exists
      (self : KnowledgeExtractor.t) (chapters : list ChapterUnit) (ks : json) (w : world) :
  (0 < max_concurrent_requests self)%nat ->
  exists r, extract_knowledge_points self chapters ks w r.
Proof.
  intros HK.
  destruct (run_completes self chapters ks (snd (start chapters w))
                          (initial self chapters (snd (start chapters w))))
    as (cfg & results & Hrun & Hres); [apply initial_consistent|exact HK|].
  exists (finish self ks results (cw cfg)), cfg, results. auto.
Qed.

Lemma as_written_run_raises
      (llm : request -> outcome str) (json_parser : str -> outcome json)
      (chapters : list ChapterUnit) (ks : json) (w : world)
      (r : outcome json * world) :
  extract_knowledge_points
    (init (real_service LangChainService.module_globals llm json_parser))
    chapters ks w r ->
  fst r = Raise pipeline_failure.
Proof.
  set (self := init (real_service LangChainService.module_globals llm json_parser)).
  set (w0 := snd (start chapters w)).
  intros (cfg & results & Hrun & Hres & ->). fold w0 in Hrun.
  pose proof (length_results self chapters ks w0 cfg results Hrun Hres) as Hlen.
  assert (Hall : forall i r, results !! i = Some r -> is_raise r = true).
  { intros i r Hr.
    assert (Hi : (i < length chapters)%nat)
      by (rewrite <- Hlen; eapply lookup_lt_Some; exact Hr).
    apply lookup_lt_is_Some_2 in Hi. destruct Hi as [c Hc].
    destruct (result_of_chapter self chapters ks w0 cfg results Hrun Hres i c Hc)
      as (r' & Hr' & Hfin).
    assert (r' = r) by congruence. subst r'.
    pose proof (real_service_fails_every_chapter llm json_parser ks c) as Hf.
    fold self in Hf. unfold extraction_fails in Hf.
    unfold finished_as, chapter_outcome in Hfin.
    destruct (svc_extract (langchain_service self) (content c) ks); [discriminate|].
    destruct r; [contradiction|reflexivity]. }
  destruct (all_raise_no_successes results Hall) as [Hnone _].
  destruct (collect_spec results (cw cfg)) as (records & _ & _ & Hfst).
  rewrite Hnone in Hfst. rewrite finish_after_collect, Hfst. reflexivity.
Qed.

(** When the block before the orchestrator ran to its end, the uploads
    were saved. *)
Lemma before_extraction_inl (E : env) (s : state)
      (x : list ChapterUnit * json) (s1 : state) :
  before_extraction E s = (inl x, s1) ->
  exists p1 p2, saved (files s) p1 p2 s1.
Proof.
  intros Hb.
  destruct (fst (validate_uploads E s)) as [[]|e] eqn:Hv.
  - pose proof (before_extraction_accepted E s Hv) as Hs. rewrite Hb in Hs. eauto.
  - destruct (before_extraction_rejected E s e Hv) as (s1' & Hb' & _). congruence.
Qed.

(** Every request is answered. *)
Lemma process_files_total (E : env) (s : state) : exists res, process_files E s res.
Proof.
  unfold process_files.
  destruct (before_extraction E s) as [[[chapters ks]|e] s1]; [|eauto].
  destruct (extraction_run_exists (knowledge_extractor E) chapters ks (wld s1))
    as [r Hr]; [cbn; lia|].
  eexists. exists r. split; [exact Hr|reflexivity].
Qed.

Lemma no_temp_file_is_left_witness :
  exists res,
    process_files Uploads.E Uploads.good res
    /\ fs_lookup (py "temp_uploads" ++ py "/" ++ py "Course.PDF") (files (snd res)) = None
    /\ fs_lookup (py "temp_uploads" ++ py "/" ++ py "template.json") (files (snd res))
       = None.
Proof.
  destruct (process_files_total Uploads.E Uploads.good) as [res Hres].
  exists res. split; [exact Hres|].
  assert (Hp : fst (fst (validate_pdf (str_lower Uploads.E)
                           {| filename := py "Course.PDF"; data := py "%PDF-1.7 pages";
                              position := 0 |} Cases.empty_world)) = None)
    by (vm_compute; reflexivity).
  assert (Hj : fst (fst (validate_json (str_lower Uploads.E) (decode Uploads.E)
                           (json_loads Uploads.E)
                           {| filename := py "template.json"; data := py "{}";
                              position := 0 |} Cases.empty_world)) = None)
    by (vm_compute; reflexivity).
  destruct (no_temp_file_is_left
              Uploads.E (py "Course.PDF") (py "%PDF-1.7 pages")
              (py "template.json") (py "{}")
              [(py "temp_uploads/old.pdf", py "%PDF old")] Cases.empty_world
              res Hp Hj Hres) as (H1 & H2 & _).
  split; [exact H1|exact H2].
Defined.

Lemma on_error_raises (E : env) (e : error) (s : state) :
  exists e' s', on_error E e s = (inr e', s')
                /\ (e' = HTTPException 500
                           (py "Failed to process files: " ++ error_str E e)
                    \/ exists x, e' = Other x).
Proof.
  unfold on_error, io_bind at 1. rewrite logger_runs.
  generalize (set_world (snd (logging (main_name E) ERROR
                                (py "Error processing files: " ++ error_str E e)
                                (wld s))) s).
  intros s0. unfold io_bind at 1, local at 1.
  destruct (pdf_path s0) as [p1|]; [|eauto 6].
  unfold io_bind at 1, local at 1.
  destruct (json_path s0) as [p2|]; [|eauto 6].
  unfold io_bind at 1, cleanup at 1.
  destruct (exists_ p1 (files s0)); unfold io_bind at 1, cleanup at 1;
    match goal with
    | |- context [exists_ p2 ?f] => destruct (exists_ p2 f)
    end; eauto 6.
Qed.

(** X20. On [services/langchain_service.py] as it is written no request
    is ever answered with 200: every request is answered, with status 500.
    When both uploads were accepted and the template and the PDF were read,
    the answer is the [HTTPException] of [process_files] with the text
    [Failed to process files: Failed to process any chapters
    successfully]. *)
Theorem as_written_every_request_is_answered_with_500 (E : env) (s : state) :
  globals E = LangChainService.module_globals ->
  (exists res, process_files E s res)
  /\ forall res,
      process_files E s res ->
      status_of (fst (answer E res)) = 500%nat
      /\ (forall x s1,
             before_extraction E s = (inl x, s1) ->
             fst (answer E res)
             = HttpError 500 (py "Failed to process files: "
                              ++ py "Failed to process any chapters successfully")).
Proof.
  intros Hg. split; [apply process_files_total|].
  intros res Hrun. unfold process_files in Hrun.
  pose proof (before_extraction_inl E s) as Hbound.
  destruct (before_extraction E s) as [[[chapters ks]|e] s1].
  - destruct Hrun as (r & Hr & ->).
    unfold knowledge_extractor in Hr. rewrite Hg in Hr.
    apply as_written_run_raises in Hr. rewrite Hr.
    split.
    + destruct (on_error_raises E (Other pipeline_failure) (set_world (snd r) s1))
        as (e' & s' & -> & [-> | [x ->]]); reflexivity.
    + intros x s1' _.
      destruct (Hbound _ _ eq_refl) as (p1 & p2 & Hs1).
      destruct (on_error_bound E (files s) p1 p2 (Other pipeline_failure)
                               (set_world (snd r) s1))
        as (s' & -> & _); [exact Hs1|].
      reflexivity.
  - subst res. split.
    + destruct (on_error_raises E e s1) as (e' & s' & -> & [-> | [x ->]]); reflexivity.
    + intros x s1' H. discriminate.
Qed.

Lemma as_written_every_request_is_answered_with_500_witness :
  exists res,
    process_files Uploads.E Uploads.good res
    /\ status_of (fst (answer Uploads.E res)) = 500%nat.
Proof.
  destruct (as_written_every_request_is_answered_with_500
              Uploads.E Uploads.good eq_refl) as [[res Hres] Hall].
  exists res. split; [exact Hres|]. exact (proj1 (Hall res Hres)).
Defined.

(** X21. A response with status 200 is earned: [process_files] returns its
    response model only when both uploads were saved, the template was
    parsed, the PDF was split and a run of the orchestrator returned a JSON
    object; that object is the [data] of the response, [success] is true,
    and both temporary files were removed before the response was
    built. *)
Theorem a_processed_response_carries_the_merged_object
        (E : env) (s : state) (res : (ProcessResponse + error) * state)
        (body : ProcessResponse) :
  process_files E s res ->
  fst res = inl body ->
  success body = true
  /\ is_object (response_data body) = true
  /\ exists chapters ks s1 r p1 p2,
      before_extraction E s = (inl (chapters, ks), s1)
      /\ extract_knowledge_points (knowledge_extractor E) chapters ks (wld s1) r
      /\ fst r = Return (response_data body)
      /\ pdf_path s1 = Some p1 /\ json_path s1 = Some p2
      /\ fs_lookup p1 (files (snd res)) = None
      /\ fs_lookup p2 (files (snd res)) = None.
Proof.
  intros Hrun Hbody. unfold process_files in Hrun.
  pose proof (before_extraction_inl E s) as Hbound.
  destruct (before_extraction E s) as [[[chapters ks]|e] s1].
  2:{ subst res. destruct (on_error_raises E e s1) as (e' & s' & Ho & _).
      rewrite Ho in Hbody. discriminate. }
  destruct Hrun as (r & Hr & ->).
  destruct (Hbound _ _ eq_refl) as (p1 & p2 & Hs1).
  pose proof (saved_set_world (files s) p1 p2 (snd r) s1 Hs1) as Hs'.
  destruct (fst r) as [v|e] eqn:Hv.
  2:{ destruct (on_error_raises E (Other e) (set_world (snd r) s1)) as (e' & s' & Ho & _).
      rewrite Ho in Hbody. discriminate. }
  unfold io_try in *.
  destruct (after_extraction_effect E (files s) p1 p2 v _ Hs') as [Hs2 Hb].
  destruct (after_extraction E v (set_world (snd r) s1)) as [[body'|e] s2];
    cbn [fst snd] in Hs2, Hb.
  2:{ destruct (on_error_raises E e s2) as (e' & s' & Ho & _).
      rewrite Ho in Hbody. discriminate. }
  cbn [fst] in Hbody. injection Hbody as ->.
  destruct (Hb body eq_refl) as (Ha1 & Ha2 & Hobj & Hdata & Hsucc).
  split; [exact Hsucc|]. split; [rewrite Hdata; exact Hobj|].
  exists chapters, ks, s1, r, p1, p2. rewrite Hdata. cbn [snd].
  destruct Hs1 as (H1 & H2 & _). auto 10.
Qed.

Lemma a_processed_response_carries_the_merged_object_witness :
  process_files Uploads.E_json Uploads.good Uploads.good_end
  /\ success {| success := true;
                message := py "Knowledge points extracted successfully";
                response_data := JDict [];
                processed_at := py "2024-05-01T12:00:00" |} = true.
Proof.
  assert (Hb : before_extraction Uploads.E_json Uploads.good
               = (inl (Uploads.good_chapters, Uploads.good_template),
                  snd Uploads.good_start))
    by (vm_compute; reflexivity).
  assert (Hr : fst Uploads.good_run = Return (JDict [])) by (vm_compute; reflexivity).
  assert (Hp : process_files Uploads.E_json Uploads.good Uploads.good_end).
  { unfold process_files. rewrite Hb. exists Uploads.good_run. split.
    - exists Uploads.good_final, [Return 1%nat; Return 2%nat; Return 0%nat].
      split; [apply run_schedule_rtc|]. split; [vm_compute; reflexivity|reflexivity].
    - rewrite Hr. reflexivity. }
  split; [exact Hp|].
  refine (proj1 (a_processed_response_carries_the_merged_object
                   Uploads.E_json Uploads.good Uploads.good_end _ Hp _)).
  vm_compute. reflexivity.
Defined.

Lemma validate_pdf_rewinds (str_lower : str -> str) (f : UploadFile) (w : world) :
  fst (fst (validate_pdf str_lower f w)) = None ->
  snd (fst (validate_pdf str_lower f w))
  = {| filename := filename f; data := data f; position := 0 |}.
Proof.
  unfold validate_pdf, read.
  destruct (endswith _ _); cbn [negb]; [|discriminate].
  destruct (_ <? _); [discriminate|].
  destruct (startswith _ _); [reflexivity|discriminate].
Qed.

Lemma validate_json_rewinds
      (str_lower : str -> str) (decode : list N -> outcome str)
      (json_loads : str -> outcome json) (f : UploadFile) (w : world) :
  fst (fst (validate_json str_lower decode json_loads f w)) = None ->
  snd (fst (validate_json str_lower decode json_loads f w))
  = {| filename := filename f; data := data f; position := 0 |}
  /\ endswith (py ".json") (str_lower (filename f)) = true
  /\ exists text d, decode (drop (position f) (data f)) = Return text
                    /\ json_loads text = Return (JDict d).
Proof.
  unfold validate_json, read.
  destruct (endswith _ _); cbn [negb]; [|discriminate].
  destruct (_ <? _); [discriminate|].
  destruct (decode _) as [text|]; [|discriminate].
  destruct (json_loads text) as [v|x] eqn:El;
    [|destruct (String.eqb _ _); discriminate].
  destruct v; try discriminate. cbn [is_object negb fst snd]. eauto 6.
Qed.

Lemma pdf_is_not_json (l : str) :
  endswith (py ".pdf") l = true -> endswith (py ".json") l = true -> False.
Proof.
  unfold endswith.
  change (reverse (py ".pdf")) with [102; 100; 112; 46].
  change (reverse (py ".json")) with [110; 111; 115; 106; 46].
  destruct (reverse l) as [|c r]; [discriminate|].
  cbn [TextSplitter.is_prefix].
  destruct (N.eqb_spec 102 c) as [<-|]; [|discriminate].
  cbn [andb]. intros _. discriminate.
Qed.

Lemma call_runs {A} (c : M A) (s : state) :
  call c s
  = (match fst (c (wld s)) with Return a => inl a | Raise e => inr (Other e) end,
     set_world (snd (c (wld s))) s).
Proof. unfold call. destruct (c (wld s)) as [[a|e] w]; reflexivity. Qed.

Section Reading.
Variable E : env.

(** [parse_json_file] on a file whose text parses, and which universal
    newlines leave as it is. *)
Lemma parse_json_file_returns (json_path : str) (fs : list (str * list N))
      (bytes : list N) (text : str) (v : json) (w : world) :
  fs_lookup json_path fs = Some bytes ->
  decode E bytes = Return text ->
  universal_newlines text = text ->
  json_loads E text = Return v ->
  fst (parse_json_file E json_path fs w) = Return v.
Proof.
  intros Hl Hd Hn Hj. unfold parse_json_file. rewrite Hl, Hd, Hn, Hj. reflexivity.
Qed.

(** [extract_chapters] on a file: the segmentation of its pages, or the
    exception of the loader. *)
Lemma extract_chapters_of_file_runs (pdf_path : str) (fs : list (str * list N))
      (w : world) :
  fst (extract_chapters_of_file E pdf_path fs w)
  = match load_pdf E (fs_lookup pdf_path fs) with
    | Return documents =>
        Return (extract_chapters (re_findall E) (split_text E) documents)
    | Raise e => Raise e
    end.
Proof.
  unfold extract_chapters_of_file, try_except, bind, lift, logging, ret, raise.
  cbn [fst snd]. destruct (load_pdf E _); reflexivity.
Qed.

End Reading.

Lemma validate_pdf_extension (str_lower : str -> str) (f : UploadFile) (w : world) :
  fst (fst (validate_pdf str_lower f w)) = None ->
  endswith (py ".pdf") (str_lower (filename f)) = true.
Proof.
  unfold validate_pdf, read. destruct (endswith _ _); [reflexivity|discriminate].
Qed.

Lemma validate_uploads_rewinds (E : env) (s : state) :
  fst (validate_uploads E s) = inl tt ->
  pdf_file (snd (validate_uploads E s))
  = {| filename := filename (pdf_file s); data := data (pdf_file s); position := 0 |}
  /\ json_file (snd (validate_uploads E s))
     = {| filename := filename (json_file s); data := data (json_file s);
          position := 0 |}.
Proof.
  unfold validate_uploads.
  pose proof (validate_pdf_rewinds (str_lower E) (pdf_file s) (wld s)) as Hp.
  destruct (validate_pdf _ _ _) as [[[e|] f] w]; [discriminate|].
  cbn [fst snd] in Hp. specialize (Hp eq_refl). subst f.
  cbn [set_world set_pdf_file json_file wld].
  pose proof (validate_json_rewinds (str_lower E) (decode E) (json_loads E)
                                    (json_file s) w) as Hj.
  destruct (validate_json _ _ _ _ _) as [[[e|] f'] w']; [discriminate|].
  cbn [fst snd] in Hj. destruct (Hj eq_refl) as [-> _]. intros _. split; reflexivity.
Qed.

(** X22. What the orchestrator is given. When both uploads pass
    validation and universal newlines leave the text of the template as it
    is, the block of [process_files] before the orchestrator fails only if
    loading the PDF fails, with the exception of the loader; otherwise the
    template handed on is the parsed upload, a JSON object, and the chapters
    are the segmentation of the pages of the uploaded PDF. *)
Theorem accepted_uploads_reach_the_orchestrator
        (E : env) (pdf_name : str) (pdf_bytes : list N)
        (json_name : str) (json_bytes : list N)
        (fs : list (str * list N)) (w : world) (text : str) :
  fst (fst (validate_pdf (str_lower E)
              {| filename := pdf_name; data := pdf_bytes; position := 0 |} w)) = None ->
  fst (fst (validate_json (str_lower E) (decode E) (json_loads E)
              {| filename := json_name; data := json_bytes; position := 0 |} w)) = None ->
  decode E json_bytes = Return text ->
  universal_newlines text = text ->
  match fst (before_extraction E
               (incoming pdf_name pdf_bytes json_name json_bytes fs w)) with
  | inl (chapters, ks) =>
      json_loads E text = Return ks
      /\ is_object ks = true
      /\ exists documents,
          load_pdf E (Some pdf_bytes) = Return documents
          /\ chapters = extract_chapters (re_findall E) (split_text E) documents
  | inr e => exists x, load_pdf E (Some pdf_bytes) = Raise x /\ e = Other x
  end.
Proof.
  intros Hp Hj Hd Hn.
  pose proof (validate_pdf_extension _ _ _ Hp) as Hext1.
  destruct (validate_json_rewinds _ _ _ _ _ Hj) as (_ & Hext2 & text' & d & Hd' & Hl).
  cbn [filename data position] in Hext1, Hext2, Hd'. rewrite drop_0 in Hd'.
  rewrite Hd in Hd'. injection Hd' as <-.
  set (p1 := py "temp_uploads" ++ py "/" ++ pdf_name).
  set (p2 := py "temp_uploads" ++ py "/" ++ json_name).
  assert (Hne : p1 <> p2).
  { subst p1 p2. intros H. apply app_inv_head in H. apply app_inv_head in H.
    subst json_name. exact (pdf_is_not_json _ Hext1 Hext2). }
  pose proof (validate_uploads_accepts E pdf_name pdf_bytes json_name json_bytes fs w
                                       Hp Hj) as Hv.
  set (s := incoming pdf_name pdf_bytes json_name json_bytes fs w) in *.
  unfold before_extraction, io_bind at 1. rewrite logger_runs.
  unfold io_bind at 1.
  match goal with
  | |- context [validate_uploads E (set_world ?w0 s)] =>
      pose proof (validate_uploads_verdict E s w0) as Hv';
      pose proof (validate_uploads_frame E (set_world w0 s)) as (Hf & _);
      pose proof (validate_uploads_rewinds E (set_world w0 s)) as Hrw;
      destruct (validate_uploads E (set_world w0 s)) as [r s1]
  end.
  cbn [fst snd set_world files pdf_file json_file] in Hv', Hf, Hrw.
  rewrite Hv in Hv'. subst r. destruct (Hrw eq_refl) as [Hpf Hjf].
  subst s. cbn [incoming pdf_file json_file filename data files] in Hf, Hpf, Hjf.
  unfold io_bind at 1, save_uploads, read.
  cbn [set_files set_pdf_file set_json_file set_pdf_path set_json_path
       files pdf_path json_path pdf_file json_file].
  rewrite Hpf, Hjf, Hf. cbn [filename data position]. rewrite !drop_0. fold p1 p2.
  set (s2 := set_files (fs_write p2 json_bytes (fs_write p1 pdf_bytes fs))
               (set_json_file _ (set_files _ (set_pdf_file _
                  (set_json_path p2 (set_pdf_path p1 s1)))))).
  assert (H2j : json_path s2 = Some p2) by reflexivity.
  assert (H2p : pdf_path s2 = Some p1) by reflexivity.
  assert (H2f : files s2 = fs_write p2 json_bytes (fs_write p1 pdf_bytes fs))
    by reflexivity.
  clearbody s2.
  unfold io_bind at 1, local at 1. rewrite H2j.
  unfold io_bind at 1. rewrite call_runs, H2f.
  assert (Hl2 : fs_lookup p2 (fs_write p2 json_bytes (fs_write p1 pdf_bytes fs))
                = Some json_bytes).
  { unfold fs_write at 1. cbn [fs_lookup]. now rewrite bool_decide_eq_true_2. }
  assert (Hl1 : fs_lookup p1 (fs_write p2 json_bytes (fs_write p1 pdf_bytes fs))
                = Some pdf_bytes).
  { rewrite fs_lookup_write_ne by exact Hne.
    unfold fs_write. cbn [fs_lookup]. now rewrite bool_decide_eq_true_2. }
  rewrite (parse_json_file_returns E p2 _ json_bytes text (JDict d) _ Hl2 Hd Hn Hl).
  unfold io_bind at 1. rewrite logger_runs.
  unfold io_bind at 1, local at 1. cbn [pdf_path set_world]. rewrite H2p.
  unfold io_bind at 1. rewrite call_runs. cbn [files wld set_world]. rewrite H2f.
  rewrite extract_chapters_of_file_runs, Hl1.
  destruct (load_pdf E (Some pdf_bytes)) as [documents|x].
  - unfold io_bind at 1. rewrite logger_runs. cbn [fst io_ret].
    split; [exact Hl|]. split; [reflexivity|]. eauto.
  - cbn [fst]. eauto.
Qed.

Lemma accepted_uploads_reach_the_orchestrator_witness :
  match fst (before_extraction Uploads.E Uploads.good) with
  | inl (chapters, ks) =>
      json_loads Uploads.E (py "{}") = Return ks
      /\ is_object ks = true
      /\ exists documents,
          load_pdf Uploads.E (Some (py "%PDF-1.7 pages")) = Return documents
          /\ chapters = extract_chapters (re_findall Uploads.E) (split_text Uploads.E)
                                         documents
  | inr e => exists x, load_pdf Uploads.E (Some (py "%PDF-1.7 pages")) = Raise x
                       /\ e = Other x
  end.
Proof.
  apply (accepted_uploads_reach_the_orchestrator
           Uploads.E (py "Course.PDF") (py "%PDF-1.7 pages")
           (py "template.json") (py "{}")
           [(py "temp_uploads/old.pdf", py "%PDF old")] Cases.empty_world (py "{}"));
    vm_compute; reflexivity.
Defined.

(** * Cleaning of data for serialization *)

Import JSONProcessor.

Lemma pyobj_induction (P : pyobj -> Prop) :
  P PNone -> (forall b, P (PBool b)) -> (forall z, P (PInt z)) ->
  (forall bits, P (PFloat bits)) -> (forall s, P (PStr s)) ->
  (forall items, Forall P items -> P (PList items)) ->
  (forall items, Forall P items -> P (PTuple items)) ->
  (forall entries, Forall (fun kv => P (snd kv)) entries -> P (PDict entries)) ->
  (forall id, P (PObject id)) ->
  forall obj, P obj.
Proof.
  intros HN HB HI HF HS HL HT HD HO. fix IH 1. intros [| | | | |items|items|entries|id].
  - exact HN.
  - apply HB.
  - apply HI.
  - apply HF.
  - apply HS.
  - apply HL. induction items as [|x xs IHxs];
      [apply List.Forall_nil|apply List.Forall_cons; [apply IH|exact IHxs]].
  - apply HT. induction items as [|x xs IHxs];
      [apply List.Forall_nil|apply List.Forall_cons; [apply IH|exact IHxs]].
  - apply HD. induction entries as [|[k v] xs IHxs];
      [apply List.Forall_nil|apply List.Forall_cons; [apply IH|exact IHxs]].
  - apply HO.
Qed.

Section CleaningFacts.
Variable py_str : pyobj -> str.
Variable int_ok : Z -> bool.

Local Abbreviation clean := (_clean_non_serializable py_str).




Lemma serializable_keys_ok (obj : pyobj) :
  serializable int_ok obj = true -> keys_ok int_ok obj = true.
Proof.
  induction obj as [| | | | |items IH|items IH|entries IH|id] using pyobj_induction;
    try reflexivity; try (intros H; exact H).
  - cbn [serializable keys_ok]. induction IH as [|x xs Hx _ IHxs]; [reflexivity|].
    cbn [forallb]. rewrite !andb_true_iff. intros [H1 H2]. auto.
  - cbn [serializable keys_ok]. induction IH as [|[k v] xs Hx _ IHxs]; [reflexivity|].
    cbn [forallb snd] in *. rewrite !andb_true_iff. intros [[H1 H2] H3]. auto.
Qed.

Lemma clean_serializable (obj : pyobj) :
  serializable int_ok (clean obj) = keys_ok int_ok obj.
Proof.
  induction obj as [| | | | |items IH|items IH|entries IH|id] using pyobj_induction;
    try reflexivity.
  - cbn [_clean_non_serializable serializable keys_ok].
    induction IH as [|x xs Hx _ IHxs]; [reflexivity|].
    cbn [map forallb]. now rewrite Hx, IHxs.
  - cbn [_clean_non_serializable serializable keys_ok].
    induction IH as [|[k v] xs Hx _ IHxs]; [reflexivity|].
    cbn [map forallb snd] in *. now rewrite Hx, IHxs.
Qed.

(** X24. [ensure_json_serializable] does not always ensure it. It returns
    serializable data as it is; other data it cleans, and the result can be
    serialized exactly when every key of the dicts reached through lists and
    dicts is a [str], [int], [float], [bool] or [None] and no integer is
    beyond the limit of the interpreter: a key of another type is left in
    place, and [json.dumps] still raises on the result. *)
Theorem ensure_serializable_iff_keys_ok (data : pyobj) :
  (serializable int_ok data = true
   -> ensure_json_serializable py_str int_ok data = data)
  /\ serializable int_ok (ensure_json_serializable py_str int_ok data)
     = keys_ok int_ok data.
Proof.
  unfold ensure_json_serializable. split.
  - intros ->. reflexivity.
  - destruct (serializable int_ok data) eqn:E.
    + rewrite E. symmetry. now apply serializable_keys_ok.
    + apply clean_serializable.
Qed.

End CleaningFacts.

Example ensure_leaves_a_tuple_key :
  serializable (fun _ => true)
    (ensure_json_serializable (fun _ => py "(1, 2)") (fun _ => true)
       (PDict [(PTuple [PInt 1; PInt 2], PObject 0)]))
  = false.
Proof. reflexivity. Qed.
